(** * Two deep-learning course notebooks, embedded and verified

    The repository holds two notebooks:

    - [demo05-implement-resnet-visualize-loss-landscape.ipynb]: a residual
      block ([BuildingBlock]) written first without and then with padding;
    - the implicit-regularization notebook: a dataset class ([AbaloneData]),
      a two-layer network ([Model]), a training routine ([get_test_loss])
      and a sweep over hidden widths.

    Both are scripts over PyTorch.  Module [Torch] models the part of the
    framework the notebooks call (tensors with a shape and row-major
    storage, [Conv2d], [BatchNorm2d], [ReLU], [Linear], [MSELoss], [SGD],
    broadcasting, the global random generator, exceptions).  Modules
    [Demo05] and [ImplicitReg] embed the notebooks' own cells.

    Scalars: tensor elements are [double]s in the notebooks; here they are
    exact rationals ([Q]), without rounding.  The one irrational
    primitive, the square root, is a parameter [fsqrt] of the definitions
    that use it.  The test loss the sweep compares with its threshold is a
    Python float, which may be an infinity or NaN ([pyfloat]). *)

From Stdlib Require Import String Bool Arith ZArith QArith Qminmax Lia Lqa List Permutation.
Import ListNotations.
Local Open Scope nat_scope.

(* ================================================================== *)
(** * Python-level effects: exceptions, standard output, global RNG    *)
(* ================================================================== *)

(** Exceptions the modelled calls can raise.  The payloads are the numbers
    the framework prints in its message. *)
Inductive exn : Type :=
  (* "The size of tensor a (a) must match the size of tensor b (b) at
     non-singleton dimension dim" *)
| RuntimeError_size_mismatch (a b dim : nat)
  (* "output with shape [..] doesn't match the broadcast shape [..]" *)
| RuntimeError_output_shape (out bshape : list nat)
  (* "Expected 3D (unbatched) or 4D (batched) input to conv2d" *)
| RuntimeError_conv_input_rank (rank : nat)
  (* "Given groups=1, expected weight to be at least 1 at dimension 0, but
     got weight of size [..] instead" *)
| RuntimeError_weight_dim0 (weight_size : list nat)
  (* "expected input[..] to have c channels, but got g channels instead" *)
| RuntimeError_conv_channels (expected got : nat)
  (* "Calculated padded input size per channel: (h x w). Kernel size:
     (k x k). Kernel size can't be greater than actual input size" *)
| RuntimeError_kernel_size (ph pw k : nat)
  (* "expected 4D input (got nD input)" *)
| ValueError_expected_4D (rank : nat)
  (* "Expected more than 1 value per channel when training" *)
| ValueError_one_value_per_channel (size : list nat)
  (* "running_mean should contain g elements not c" *)
| RuntimeError_bn_features (expected got : nat)
  (* "mat1 and mat2 shapes cannot be multiplied" *)
| RuntimeError_mat_shapes (got expected : nat)
  (* "stack expects each tensor to be equal size" *)
| RuntimeError_stack_sizes
  (* list or row index out of range *)
| IndexError
  (* torch.tensor called on data that is not numeric *)
| TypeError_not_numeric
  (* "stack expects a non-empty TensorList" *)
| RuntimeError_stack_empty
  (* "num_samples should be a positive integer value, but got
     num_samples=n" *)
| ValueError_num_samples (n : nat)
  (* next() on an exhausted iterator *)
| StopIteration
  (* a variable read before any assignment *)
| NameError.

Inductive result (A : Type) : Type :=
| Ok (a : A)
| Raise (e : exn).
Arguments Ok {A} a.
Arguments Raise {A} e.

(** Values a data-frame cell can hold: a string or a number. *)
Inductive pyval : Type :=
| PyStr (s : string)
| PyNum (q : Q).

(** [v == 'M'] *)
Definition eq_str (v : pyval) (lit : string) : bool :=
  match v with
  | PyStr s => String.eqb s lit
  | PyNum _ => false
  end.

(** [l[i]] on a Python list. *)
Definition py_index {A} (l : list A) (i : nat) : result A :=
  match nth_error l i with
  | Some a => Ok a
  | None => Raise IndexError
  end.

(** [l[a:b]] for [0 <= a <= b]. *)
Definition py_slice {A} (l : list A) (a b : nat) : list A :=
  firstn (b - a) (skipn a l).

(** [range(start, stop, step)] for a positive step. *)
Definition py_range (start stop step : nat) : list nat :=
  map (fun i => start + i * step) (seq 0 ((stop - start + step - 1) / step)).

(** A Python float as the sweep handles the test loss: it compares it
    with the threshold, divides it and adds it up.  What these do on the
    special values is part of what the loop does, so a float is a number,
    an infinity or NaN.  Rounding is not modelled: the numbers are exact. *)
Inductive pyfloat : Type :=
| Fin (q : Q)
| PInf
| NInf
| NaN.

(** What a cell writes to standard output, kept structured. *)
Inductive Line : Type :=
| PrintSize (s : list nat)                      (* print(x.shape) *)
| PrintLabelledSize (label : string) (s : list nat)
| PrintSweep (layer_size num_param : nat) (avg_test_loss : pyfloat).

(** The global random generator, seen through what it would return at each
    position of its stream for each kind of request. *)
Record Generator : Type := mkGenerator {
  uniform01 : nat -> Q;     (* a sample of U[0,1) *)
  normal01 : nat -> Q;      (* a sample of N(0,1) *)
  random_raw : nat -> nat;  (* a raw integer *)
  cursor : nat
}.

Record World : Type := mkWorld {
  stdout : list Line;
  rng : Generator
}.

(** Computations: read and write the world, return or raise. *)
Definition M (A : Type) : Type := World -> result A * World.

Definition ret {A} (a : A) : M A := fun w => (Ok a, w).
Definition raise {A} (e : exn) : M A := fun w => (Raise e, w).
Definition bind {A B} (c : M A) (k : A -> M B) : M B :=
  fun w => match c w with
           | (Ok a, w') => k a w'
           | (Raise e, w') => (Raise e, w')
           end.
Definition lift {A} (r : result A) : M A := fun w => (r, w).

Declare Scope m_scope.
Delimit Scope m_scope with M.
Notation "x <- c ;; k" := (bind c (fun x => k))
  (at level 61, c at next level, right associativity) : m_scope.
Notation "' p <- c ;; k" := (bind c (fun x => let p := x in k))
  (at level 61, p pattern, c at next level, right associativity) : m_scope.
Notation "c ;;; k" := (bind c (fun _ => k))
  (at level 61, right associativity) : m_scope.

(** The pure fragment (no world) has its own bind. *)
Definition rbind {A B} (r : result A) (k : A -> result B) : result B :=
  match r with Ok a => k a | Raise e => Raise e end.
Declare Scope r_scope.
Delimit Scope r_scope with R.
Notation "x <- c ;; k" := (rbind c (fun x => k))
  (at level 61, c at next level, right associativity) : r_scope.

Definition print (l : Line) : M unit :=
  fun w => (Ok tt, mkWorld (stdout w ++ [l]) (rng w)).

Definition advance (g : Generator) (n : nat) : Generator :=
  mkGenerator (uniform01 g) (normal01 g) (random_raw g) (cursor g + n).

(** [n] consecutive samples read through [tape], the cursor moved past them. *)
Definition draw (tape : Generator -> nat -> Q) (n : nat) : M (list Q) :=
  fun w => let g := rng w in
           (Ok (map (fun i => tape g (cursor g + i)) (seq 0 n)),
            mkWorld (stdout w) (advance g n)).

Definition draw_raw : M nat :=
  fun w => let g := rng w in
           (Ok (random_raw g (cursor g)), mkWorld (stdout w) (advance g 1)).

(* ================================================================== *)
(** * The framework                                                    *)
(* ================================================================== *)

Module Torch.

Local Open Scope Q_scope.

(** A tensor: its size and its elements in row-major order. *)
Record Tensor : Type := mkTensor {
  shape : list nat;
  data : list Q
}.

Definition numel_of (s : list nat) : nat := fold_right Nat.mul 1%nat s.
Definition numel (t : Tensor) : nat := numel_of (shape t).
Definition dim (t : Tensor) : nat := length (shape t).

(** [t] is a tensor of size [s]: the size field is [s] and the storage
    holds one element per position. *)
Definition has_shape (t : Tensor) (s : list nat) : Prop :=
  shape t = s /\ length (data t) = numel_of s.

(** Row-major offset of a multi-index, and its inverse. *)
Fixpoint ravel (s idx : list nat) : nat :=
  match s, idx with
  | _ :: s', i :: idx' => (i * numel_of s' + ravel s' idx')%nat
  | _, _ => 0%nat
  end.

Fixpoint unravel (s : list nat) (k : nat) : list nat :=
  match s with
  | [] => []
  | _ :: s' => (k / numel_of s')%nat :: unravel s' (k mod numel_of s')%nat
  end.

Definition item (t : Tensor) (k : nat) : Q := nth k (data t) 0.
Definition get (t : Tensor) (idx : list nat) : Q := item t (ravel (shape t) idx).

Definition tabulate (s : list nat) (f : list nat -> Q) : Tensor :=
  mkTensor s (map (fun k => f (unravel s k)) (seq 0 (numel_of s))).

Definition sumQ (l : list Q) : Q := fold_right Qplus 0 l.
Definition sum_upto (n : nat) (f : nat -> Q) : Q := sumQ (map f (seq 0 n)).

(** ** Broadcasting *)

(** [infer_size]: the common size of two operands; sizes are compared from
    the last dimension backwards and the first clash is reported. *)
Fixpoint infer_size_rev (ra rb : list nat) (d : nat) : result (list nat) :=
  match ra, rb with
  | [], _ => Ok rb
  | _, [] => Ok ra
  | a :: ra', b :: rb' =>
      if (a =? b)%nat then rbind (infer_size_rev ra' rb' (d - 1)) (fun r => Ok (a :: r))
      else if (a =? 1)%nat then rbind (infer_size_rev ra' rb' (d - 1)) (fun r => Ok (b :: r))
      else if (b =? 1)%nat then rbind (infer_size_rev ra' rb' (d - 1)) (fun r => Ok (a :: r))
      else Raise (RuntimeError_size_mismatch a b d)
  end.

Definition infer_size (sa sb : list nat) : result (list nat) :=
  rbind (infer_size_rev (rev sa) (rev sb) (Nat.max (length sa) (length sb) - 1))
        (fun r => Ok (rev r)).

(** Index into an operand of size [src] for position [idx] of the expanded
    size: leading extra dimensions are dropped, size-1 dimensions read 0. *)
Definition expand_index (src : list nat) (idx : list nat) : list nat :=
  map (fun p => if (fst p =? 1)%nat then 0%nat else snd p)
      (combine src (skipn (length idx - length src) idx)).

Definition expand (t : Tensor) (s : list nat) : Tensor :=
  tabulate s (fun idx => get t (expand_index (shape t) idx)).

Definition list_eqb (a b : list nat) : bool :=
  if list_eq_dec Nat.eq_dec a b then true else false.

Definition map2 (f : Q -> Q -> Q) (a b : list Q) : list Q :=
  map (fun p => f (fst p) (snd p)) (combine a b).

(** [out += x] (Tensor.add_): the operands are broadcast together, and the
    common size must be the size of [out], which is written in place. *)
Definition add_ (out x : Tensor) : result Tensor :=
  match infer_size (shape out) (shape x) with
  | Raise e => Raise e
  | Ok s =>
      if list_eqb s (shape out)
      then Ok (mkTensor (shape out) (map2 Qplus (data out) (data (expand x s))))
      else Raise (RuntimeError_output_shape (shape out) s)
  end.

(** ** ReLU *)

Definition relu_scalar (v : Q) : Q := if Qle_bool v 0 then 0 else v.

Definition relu (t : Tensor) : Tensor :=
  mkTensor (shape t) (map relu_scalar (data t)).

(** ** Conv2d (square kernel, stride 1, zero padding, one group) *)

Record Conv2d : Type := mkConv2d {
  in_channels : nat;
  out_channels : nat;
  kernel_size : nat;
  padding : nat;
  conv_weight : Tensor;     (* [out_channels; in_channels; k; k] *)
  conv_bias : Tensor        (* [out_channels] *)
}.

(** Element [b,c,r,s] of the zero-padded input. *)
Definition padded_at (x : Tensor) (C H W p b c r s : nat) : Q :=
  if ((p <=? r) && (r <? H + p) && (p <=? s) && (s <? W + p))%bool
  then item x (((b * C + c) * H + (r - p)) * W + (s - p))%nat
  else 0.

Definition conv_at (m : Conv2d) (x : Tensor) (C H W b o i j : nat) : Q :=
  let k := kernel_size m in
  item (conv_bias m) o +
  sum_upto C (fun c =>
    sum_upto k (fun di =>
      sum_upto k (fun dj =>
        item (conv_weight m) (((o * C + c) * k + di) * k + dj)%nat *
        padded_at x C H W (padding m) b c (i + di) (j + dj)))).

(** The batched core; [lead] is [[B]] for a 4-D input and [[]] for an
    unbatched 3-D one.  The checks come in the framework's order: the
    weight must have an output channel, the input must have the weight's
    input channels, and the padded input must hold the kernel. *)
Definition conv2d_core (m : Conv2d) (x : Tensor) (lead : list nat) (B C H W : nat)
  : result Tensor :=
  let k := kernel_size m in
  let p := padding m in
  if (out_channels m =? 0)%nat
  then Raise (RuntimeError_weight_dim0 [out_channels m; in_channels m; k; k])
  else if negb (C =? in_channels m)%nat
  then Raise (RuntimeError_conv_channels (in_channels m) C)
  else if ((H + 2 * p <? k) || (W + 2 * p <? k))%bool
  then Raise (RuntimeError_kernel_size (H + 2 * p) (W + 2 * p) k)
  else
    let H' := (H + 2 * p - (k - 1) - 1 + 1)%nat in
    let W' := (W + 2 * p - (k - 1) - 1 + 1)%nat in
    let O := out_channels m in
    Ok (mkTensor (lead ++ [O; H'; W'])
          (flat_map (fun b =>
             flat_map (fun o =>
               flat_map (fun i =>
                 map (fun j => conv_at m x C H W b o i j) (seq 0 W'))
                 (seq 0 H'))
               (seq 0 O))
             (seq 0 B))).

Definition Conv2d_forward (m : Conv2d) (x : Tensor) : result Tensor :=
  match shape x with
  | [B; C; H; W] => conv2d_core m x [B] B C H W
  | [C; H; W] => conv2d_core m x [] 1 C H W
  | s => Raise (RuntimeError_conv_input_rank (length s))
  end.

(** ** BatchNorm2d in training mode

    A freshly constructed module is in training mode: the batch statistics
    normalise the input.  The running statistics are written but never
    read in this mode and are left out. *)

Record BatchNorm2d : Type := mkBatchNorm2d {
  num_features : nat;
  eps : Q;
  bn_weight : Tensor;       (* [num_features] *)
  bn_bias : Tensor          (* [num_features] *)
}.

Section WithSqrt.
Variable fsqrt : Q -> Q.

(** All elements of channel [c], in storage order. *)
Definition channel_values (x : Tensor) (B C H W c : nat) : list Q :=
  flat_map (fun b =>
    map (fun r => item x ((b * C + c) * (H * W) + r)%nat) (seq 0 (H * W)))
    (seq 0 B).

Definition mean (l : list Q) : Q := sumQ l / inject_Z (Z.of_nat (length l)).

Definition channel_stats (x : Tensor) (B C H W c : nat) : Q * Q :=
  let vs := channel_values x B C H W c in
  let mu := mean vs in
  (mu, mean (map (fun v => (v - mu) * (v - mu)) vs)).

Definition BatchNorm2d_forward (m : BatchNorm2d) (x : Tensor) : result Tensor :=
  match shape x with
  | [B; C; H; W] =>
      if (B * (H * W) =? 1)%nat
      then Raise (ValueError_one_value_per_channel (shape x))
      else if negb (C =? num_features m)%nat
      then Raise (RuntimeError_bn_features C (num_features m))
      else
        let stats := map (channel_stats x B C H W) (seq 0 C) in
        Ok (mkTensor [B; C; H; W]
              (flat_map (fun b =>
                 flat_map (fun c =>
                   let '(mu, var) := nth c stats (0, 0) in
                   let scale := item (bn_weight m) c / fsqrt (var + eps m) in
                   map (fun r =>
                          (item x ((b * C + c) * (H * W) + r)%nat - mu) * scale
                          + item (bn_bias m) c)
                       (seq 0 (H * W)))
                   (seq 0 C))
                 (seq 0 B)))
  | s => Raise (ValueError_expected_4D (length s))
  end.

(** ** Construction (default initialisation)

    [uniform_(lo, hi)] fills a tensor from the generator; [Conv2d] and
    [Linear] draw the weight from U(-b, b) with the Kaiming bound
    [b = sqrt 3 * gain / sqrt fan_in], [gain = sqrt (2 / (1 + a^2))],
    [a = sqrt 5]. *)

Definition uniform_ (s : list nat) (lo hi : Q) : M Tensor :=
  bind (draw uniform01 (numel_of s))
       (fun us => ret (mkTensor s (map (fun u => lo + (hi - lo) * u) us))).

Definition randn (s : list nat) : M Tensor :=
  bind (draw normal01 (numel_of s)) (fun zs => ret (mkTensor s zs)).

Definition Q_of_nat (n : nat) : Q := inject_Z (Z.of_nat n).

Definition kaiming_bound (fan_in : nat) : Q :=
  let gain := fsqrt (2 / (1 + fsqrt 5 * fsqrt 5)) in
  fsqrt 3 * (gain / fsqrt (Q_of_nat fan_in)).

Definition Conv2d_init (cin cout k p : nat) : M Conv2d :=
  let fan_in := (cin * (k * k))%nat in
  bind (uniform_ [cout; cin; k; k] (- kaiming_bound fan_in) (kaiming_bound fan_in))
       (fun w =>
  let b := 1 / fsqrt (Q_of_nat fan_in) in
  bind (uniform_ [cout] (- b) b)
       (fun bias => ret (mkConv2d cin cout k p w bias))).

Definition full (s : list nat) (v : Q) : Tensor :=
  mkTensor s (repeat v (numel_of s)).

(** [BatchNorm2d(n)]: weight ones, bias zeros, eps 1e-5. *)
Definition BatchNorm2d_init (n : nat) : BatchNorm2d :=
  mkBatchNorm2d n (1 # 100000) (full [n] 1) (full [n] 0).

(** ** Linear *)

Record Linear : Type := mkLinear {
  weight : Tensor;                (* [out_features; in_features] *)
  bias : option Tensor            (* [out_features], absent with bias=False *)
}.

Definition Linear_init (in_features out_features : nat) (with_bias : bool) : M Linear :=
  bind (uniform_ [out_features; in_features]
          (- kaiming_bound in_features) (kaiming_bound in_features))
       (fun w =>
  if with_bias
  then let b := 1 / fsqrt (Q_of_nat in_features) in
       bind (uniform_ [out_features] (- b) b)
            (fun bv => ret (mkLinear w (Some bv)))
  else ret (mkLinear w None)).

End WithSqrt.

(** The bias is added only when the layer has one. *)
Definition add_bias (m : Linear) (o : nat) (v : Q) : Q :=
  match bias m with
  | Some b => v + item b o
  | None => v
  end.

(** [F.linear]: [x] of size [.. ; n] against a weight of size [[m; n]]
    gives size [.. ; m]; row [r], column [o] is the dot product of row [r]
    of [x] with row [o] of the weight, plus the bias. *)
Definition Linear_forward (m : Linear) (x : Tensor) : result Tensor :=
  match shape (weight m), rev (shape x) with
  | [outf; inf], last :: lead =>
      if (last =? inf)%nat
      then
        let rows := numel_of lead in
        Ok (mkTensor (rev lead ++ [outf])
              (flat_map (fun r =>
                 map (fun o =>
                        add_bias m o
                          (sum_upto inf (fun k =>
                             item x (r * inf + k)%nat *
                             item (weight m) (o * inf + k)%nat)))
                     (seq 0 outf))
                 (seq 0 rows)))
      else Raise (RuntimeError_mat_shapes last inf)
  | _, _ => Raise (RuntimeError_mat_shapes 0 0)
  end.

(** Gradients of a linear layer, given the gradient [gy] of its output:
    with respect to the weight, the bias and the input. *)
Definition Linear_backward (m : Linear) (x gy : Tensor)
  : Tensor * option Tensor * Tensor :=
  match shape (weight m) with
  | [outf; inf] =>
      let rows := numel_of (removelast (shape x)) in
      (mkTensor [outf; inf]
         (flat_map (fun o =>
            map (fun k =>
                   sum_upto rows (fun r =>
                     item gy (r * outf + o)%nat * item x (r * inf + k)%nat))
                (seq 0 inf))
            (seq 0 outf)),
       match bias m with
       | Some _ =>
           Some (mkTensor [outf]
                   (map (fun o => sum_upto rows (fun r => item gy (r * outf + o)%nat))
                        (seq 0 outf)))
       | None => None
       end,
       mkTensor (shape x)
         (flat_map (fun r =>
            map (fun k =>
                   sum_upto outf (fun o =>
                     item gy (r * outf + o)%nat * item (weight m) (o * inf + k)%nat))
                (seq 0 inf))
            (seq 0 rows)))
  | _ => (weight m, bias m, x)
  end.

(** Gradient of ReLU: the incoming gradient where the input is positive. *)
Definition relu_backward (x gy : Tensor) : Tensor :=
  mkTensor (shape x)
    (map2 (fun v g => if Qle_bool v 0 then 0 else g) (data x) (data gy)).

(** ** squeeze, item, MSELoss *)

Definition squeeze (t : Tensor) : Tensor :=
  mkTensor (filter (fun d => negb (d =? 1)%nat) (shape t)) (data t).

(** [loss.item()] *)
Definition item0 (t : Tensor) : Q := item t 0.

(** [nn.MSELoss()(input, target)]: both operands are broadcast to their
    common size; the result is the mean of the squared differences, a
    0-dimensional tensor. *)
Definition MSELoss (input target : Tensor) : result Tensor :=
  match infer_size (shape input) (shape target) with
  | Raise e => Raise e
  | Ok s =>
      let a := expand input s in
      let b := expand target s in
      Ok (mkTensor []
            [sumQ (map2 (fun u v => (u - v) * (u - v)) (data a) (data b))
             / Q_of_nat (numel_of s)])
  end.

(** Gradient of the loss with respect to [input]: position [k] of the
    expanded operand contributes [2 (a_k - b_k) / N] to the element of
    [input] it was read from. *)
Definition MSELoss_backward (input target : Tensor) : result Tensor :=
  match infer_size (shape input) (shape target) with
  | Raise e => Raise e
  | Ok s =>
      let a := expand input s in
      let b := expand target s in
      let N := Q_of_nat (numel_of s) in
      let g := map2 (fun u v => 2 * (u - v) / N) (data a) (data b) in
      Ok (mkTensor (shape input)
            (map (fun i =>
                    sumQ (map (fun k =>
                                 if (ravel (shape input)
                                       (expand_index (shape input) (unravel s k)) =? i)%nat
                                 then nth k g 0 else 0)
                              (seq 0 (numel_of s))))
                 (seq 0 (numel input))))
  end.

(** Gradient of [squeeze]: the same elements under the original size. *)
Definition squeeze_backward (x g : Tensor) : Tensor :=
  mkTensor (shape x) (data g).

(** ** torch.tensor, torch.stack *)

Fixpoint numbers (l : list pyval) : result (list Q) :=
  match l with
  | [] => Ok []
  | PyNum q :: l' => rbind (numbers l') (fun qs => Ok (q :: qs))
  | PyStr _ :: _ => Raise TypeError_not_numeric
  end.

(** [torch.tensor(l)] on a flat list, and on a single value.  A cell is a
    string or a number; numbers are carried as exact rationals, so the
    element type [torch.tensor] infers, the rounding it applies to a list
    of floats and the integers it refuses as too large are not part of
    these definitions.  What is kept is the size of the result and the
    refusal of a cell that is not a number. *)
Definition tensor_of_list (l : list pyval) : result Tensor :=
  rbind (numbers l) (fun qs => Ok (mkTensor [length qs] qs)).

Definition tensor_of_value (v : pyval) : result Tensor :=
  match v with
  | PyNum q => Ok (mkTensor [] [q])
  | PyStr _ => Raise TypeError_not_numeric
  end.

Definition stack (ts : list Tensor) : result Tensor :=
  match ts with
  | [] => Raise RuntimeError_stack_empty
  | t0 :: _ =>
      if forallb (fun t => list_eqb (shape t) (shape t0)) ts
      then Ok (mkTensor (length ts :: shape t0) (concat (map data ts)))
      else Raise RuntimeError_stack_sizes
  end.

(** ** torch.randperm

    A Fisher-Yates shuffle: position [i] is exchanged with a position
    chosen among [i .. n-1] from one raw draw; the last position needs no
    draw. *)
Fixpoint fisher_yates (n : nat) (l : list nat) : M (list nat) :=
  match n, l with
  | S n', a :: rest =>
      match rest with
      | [] => ret [a]
      | _ :: _ =>
          bind draw_raw (fun raw =>
          let z := (raw mod length l)%nat in
          match z with
          | O => bind (fisher_yates n' rest) (fun tl => ret (a :: tl))
          | S z' =>
              bind (fisher_yates n' (firstn z' rest ++ a :: skipn z rest))
                   (fun tl => ret (nth z' rest a :: tl))
          end)
      end
  | _, _ => ret l
  end.

Definition randperm (n : nat) : M (list nat) := fisher_yates n (seq 0 n).

(** ** SGD without momentum or weight decay: [p -= lr * p.grad] *)
Definition sgd_update (lr : Q) (p g : Tensor) : Tensor :=
  mkTensor (shape p) (map2 (fun pv gv => pv - lr * gv) (data p) (data g)).

End Torch.

(* ================================================================== *)
(** * Notebook: a residual block, without and with padding             *)
(* ================================================================== *)

Module Demo05.
Import Torch.
Local Open Scope m_scope.

(** [relu1] and [relu2] hold no state; the record keeps the four layers
    that do. *)
Record BuildingBlock : Type := mkBuildingBlock {
  conv1 : Conv2d;
  bn1 : BatchNorm2d;
  conv2 : Conv2d;
  bn2 : BatchNorm2d
}.

Section WithSqrt.
Variable fsqrt : Q -> Q.

(** [__init__] of the first two definitions of the class: kernel size 3,
    no padding. *)
Definition BuildingBlock_init_unpadded (num_channels : nat) : M BuildingBlock :=
  c1 <- Conv2d_init fsqrt num_channels num_channels 3 0 ;;
  c2 <- Conv2d_init fsqrt num_channels num_channels 3 0 ;;
  ret (mkBuildingBlock c1 (BatchNorm2d_init num_channels)
                       c2 (BatchNorm2d_init num_channels)).

(** [__init__] of the final definition: [padding=1] on both convolutions. *)
Definition BuildingBlock_init (num_channels : nat) : M BuildingBlock :=
  c1 <- Conv2d_init fsqrt num_channels num_channels 3 1 ;;
  c2 <- Conv2d_init fsqrt num_channels num_channels 3 1 ;;
  ret (mkBuildingBlock c1 (BatchNorm2d_init num_channels)
                       c2 (BatchNorm2d_init num_channels)).

(** [forward]: the same text in both definitions. *)
Definition forward (self : BuildingBlock) (x : Tensor) : M Tensor :=
  (* forward through the first weight layer *)
  out <- lift (Conv2d_forward (conv1 self) x) ;;
  out <- lift (BatchNorm2d_forward fsqrt (bn1 self) out) ;;
  out <- ret (relu out) ;;
  print (PrintLabelledSize "shape after first weight layer:" (shape out)) ;;;
  (* forward through the second weight layer *)
  out <- lift (Conv2d_forward (conv2 self) out) ;;
  out <- lift (BatchNorm2d_forward fsqrt (bn2 self) out) ;;
  print (PrintLabelledSize "shape after second weight layer:" (shape out)) ;;;
  (* our skip connection: adding back in x after both weight layers *)
  out <- lift (add_ out x) ;;
  out <- ret (relu out) ;;
  ret out.

Definition NUM_CHANNELS : nat := 64.

(** The cell that builds the input, and the two cells that run a block on
    it. *)
Definition make_input : M Tensor :=
  x <- randn [1; NUM_CHANNELS; 50; 50] ;;
  print (PrintSize (shape x)) ;;;
  ret x.

Definition run_unpadded (x : Tensor) : M Tensor :=
  building_block <- BuildingBlock_init_unpadded NUM_CHANNELS ;;
  forward building_block x.

Definition run_padded : M Tensor :=
  x <- make_input ;;
  building_block <- BuildingBlock_init NUM_CHANNELS ;;
  forward building_block x.

End WithSqrt.

(** A block whose two convolutions are 3x3 over [C] channels with padding
    [p], and whose normalisations are over [C] channels. *)
Definition configured (blk : BuildingBlock) (C p : nat) : Prop :=
  (in_channels (conv1 blk) = C /\ out_channels (conv1 blk) = C /\
   kernel_size (conv1 blk) = 3 /\ padding (conv1 blk) = p) /\
  (in_channels (conv2 blk) = C /\ out_channels (conv2 blk) = C /\
   kernel_size (conv2 blk) = 3 /\ padding (conv2 blk) = p) /\
  num_features (bn1 blk) = C /\ num_features (bn2 blk) = C.

(** Sample inputs: a generator whose uniform samples are all 1/2 (every
    drawn weight is then 0), a world around it, and small tensors. *)
Definition sample_generator : Generator :=
  mkGenerator (fun _ => 1 # 2) (fun _ => 0%Q) (fun k => k) 0.
Definition sample_world : World := mkWorld [] sample_generator.
Definition sample_sqrt (q : Q) : Q := 1%Q.
Definition one_pixel : Tensor := mkTensor [1; 1; 1; 1] [3%Q].
Definition two_by_two : Tensor := mkTensor [1; 1; 2; 2] [1%Q; (-2)%Q; 3%Q; 4%Q].
(** Tensors without an element: no channel, no row, no sample. *)
Definition no_channels : Tensor := mkTensor [2; 0; 3; 3] [].
Definition empty_height : Tensor := mkTensor [1; 1; 0; 3] [].
Definition empty_batch : Tensor := mkTensor [0; 1; 2; 2] [].
Definition zeros_1_64_50_50 : Tensor := full [1; 64; 50; 50] 0%Q.
(** Blocks over one channel with all weights 0, as [BuildingBlock(1)]
    leaves them on [sample_world]: with and without padding. *)
Definition sample_block (p : nat) : BuildingBlock :=
  mkBuildingBlock
    (mkConv2d 1 1 3 p (full [1; 1; 3; 3] 0%Q) (full [1] 0%Q)) (BatchNorm2d_init 1)
    (mkConv2d 1 1 3 p (full [1; 1; 3; 3] 0%Q) (full [1] 0%Q)) (BatchNorm2d_init 1).

(** A padded block without a channel, as [BuildingBlock(0)] builds it. *)
Definition empty_block : BuildingBlock :=
  mkBuildingBlock
    (mkConv2d 0 0 3 1 (mkTensor [0; 0; 3; 3] []) (mkTensor [0] [])) (BatchNorm2d_init 0)
    (mkConv2d 0 0 3 1 (mkTensor [0; 0; 3; 3] []) (mkTensor [0] [])) (BatchNorm2d_init 0).

End Demo05.

(* ================================================================== *)
(** * Notebook: implicit regularization on the abalone data            *)
(* ================================================================== *)

Module ImplicitReg.
Import Torch.
Local Open Scope m_scope.

(** ** The dataset *)

(** A data frame: rows of cells.  The device field of the class only
    places tensors and is left out. *)
Record AbaloneData : Type := mkAbaloneData {
  ds_data : list (list pyval)
}.

Definition AbaloneData_len (self : AbaloneData) : nat := length (ds_data self).

Definition AbaloneData_getitem (self : AbaloneData) (idx : nat)
  : result (Tensor * Tensor) :=
  (row <- py_index (ds_data self) idx ;;
   (* We turn the first variable from categorical sex to binary *)
   row0 <- py_index row 0 ;;
   let x := [if eq_str row0 "M" then PyNum 0 else PyNum 1] ++ py_slice row 1 8 in
   y <- py_index row 8 ;;
   x <- tensor_of_list x ;;
   y <- tensor_of_value y ;;
   Ok (x, y))%R.

(** ** The data loader *)

Record DataLoader : Type := mkDataLoader {
  dataset : AbaloneData;
  batch_size : nat;
  shuffle : bool
}.

(** [DataLoader(dataset, batch_size=bs, shuffle=sh)]: a shuffling loader
    builds a RandomSampler, which refuses an empty dataset. *)
Definition DataLoader_init (ds : AbaloneData) (bs : nat) (sh : bool)
  : result DataLoader :=
  if (sh && (AbaloneData_len ds =? 0))%bool
  then Raise (ValueError_num_samples (AbaloneData_len ds))
  else Ok (mkDataLoader ds bs sh).

(** Consecutive groups of [bs] indices, the last one possibly shorter. *)
Fixpoint chunks_fuel (fuel bs : nat) (l : list nat) : list (list nat) :=
  match fuel, l with
  | S fuel', _ :: _ => firstn bs l :: chunks_fuel fuel' bs (skipn bs l)
  | _, _ => []
  end.
Definition chunks (bs : nat) (l : list nat) : list (list nat) :=
  chunks_fuel (length l) bs l.

(** [iter(loader)]: the order of the indices is fixed here, a fresh
    permutation when [shuffle] is set. *)
Definition DataLoader_iter (dl : DataLoader) : M (list (list nat)) :=
  let n := AbaloneData_len (dataset dl) in
  idxs <- (if shuffle dl then randperm n else ret (seq 0 n)) ;;
  ret (chunks (batch_size dl) idxs).

Fixpoint mapR {A B} (f : A -> result B) (l : list A) : result (list B) :=
  match l with
  | [] => Ok []
  | a :: l' => (b <- f a ;; bs <- mapR f l' ;; Ok (b :: bs))%R
  end.

(** One batch: the samples are fetched one by one and stacked. *)
Definition fetch (ds : AbaloneData) (idxs : list nat) : result (Tensor * Tensor) :=
  (samples <- mapR (AbaloneData_getitem ds) idxs ;;
   x <- stack (map fst samples) ;;
   y <- stack (map snd samples) ;;
   Ok (x, y))%R.

(** ** The model: [nn.Sequential] of linear and ReLU layers *)

Inductive Layer : Type :=
| LinearL (m : Linear)
| ReLUL.

Record Model : Type := mkModel {
  layers : list Layer
}.

Definition Layer_forward (l : Layer) (x : Tensor) : result Tensor :=
  match l with
  | LinearL m => Linear_forward m x
  | ReLUL => Ok (relu x)
  end.

Fixpoint Sequential_forward (ls : list Layer) (x : Tensor) : result Tensor :=
  match ls with
  | [] => Ok x
  | l :: ls' => (y <- Layer_forward l x ;; Sequential_forward ls' y)%R
  end.

Definition Model_forward (self : Model) (x : Tensor) : result Tensor :=
  Sequential_forward (layers self) x.

(** [model.parameters()] *)
Definition Layer_parameters (l : Layer) : list Tensor :=
  match l with
  | LinearL m => weight m :: match bias m with Some b => [b] | None => [] end
  | ReLUL => []
  end.

Definition parameters (self : Model) : list Tensor :=
  flat_map Layer_parameters (layers self).

(** Gradients of one layer's parameters: of the weight and of the bias. *)
Definition LayerGrad : Type := option (Tensor * option Tensor).

(** Reverse-mode differentiation through the layers.  [seed] gives the
    gradient of the loss with respect to the output of the last layer; the
    result is the gradient for each layer and for the input. *)
Fixpoint Sequential_backward (ls : list Layer) (x : Tensor)
    (seed : Tensor -> result Tensor) : result (list LayerGrad * Tensor) :=
  match ls with
  | [] => (g <- seed x ;; Ok ([], g))%R
  | l :: ls' =>
      (y <- Layer_forward l x ;;
       r <- Sequential_backward ls' y seed ;;
       let '(gs, gy) := r in
       match l with
       | LinearL m =>
           let '(gw, gb, gx) := Linear_backward m x gy in
           Ok (Some (gw, gb) :: gs, gx)
       | ReLUL => Ok (None :: gs, relu_backward x gy)
       end)%R
  end.

(** [optimizer.step()] for plain SGD, through the layers that own the
    parameters. *)
Definition Layer_step (lr : Q) (l : Layer) (g : LayerGrad) : Layer :=
  match l, g with
  | LinearL m, Some (gw, gb) =>
      LinearL (mkLinear (sgd_update lr (weight m) gw)
                 match bias m, gb with
                 | Some b, Some g' => Some (sgd_update lr b g')
                 | ob, _ => ob
                 end)
  | _, _ => l
  end.

Definition SGD_step (lr : Q) (self : Model) (gs : list LayerGrad) : Model :=
  mkModel (map (fun p => Layer_step lr (fst p) (snd p)) (combine (layers self) gs)).

Definition sum_nat (l : list nat) : nat := fold_right Nat.add 0 l.

Section Notebook.
Variable fsqrt : Q -> Q.

(** [Model(layer_size)] *)
Definition Model_init (layer_size : nat) : M Model :=
  l1 <- Linear_init fsqrt 8 layer_size false ;;
  l2 <- Linear_init fsqrt layer_size 1 false ;;
  ret (mkModel [LinearL l1; ReLUL; LinearL l2; ReLUL]).

(** ** The data: the shuffled frame and the two loaders *)
Variable csv : list (list pyval).

(** The cell that builds the two loaders.  It raises on an empty frame,
    and then nothing after it runs. *)
Definition loaders_cell : result (DataLoader * DataLoader) :=
  (train_loader <- DataLoader_init (mkAbaloneData (py_slice csv 0 3000)) 1000 true ;;
   test_loader <- DataLoader_init (mkAbaloneData (py_slice csv 3000 4000)) 1000 false ;;
   Ok (train_loader, test_loader))%R.

(** The two globals that cell binds when it returns, as the functions
    below read them. *)
Definition train_loader : DataLoader :=
  mkDataLoader (mkAbaloneData (py_slice csv 0 3000)) 1000 true.
Definition test_loader : DataLoader :=
  mkDataLoader (mkAbaloneData (py_slice csv 3000 4000)) 1000 false.

(** ** Training and evaluation *)

(** The body of the inner training loop: one gradient step on one batch.
    [zero_grad] clears the stored gradients, so the step uses the gradient
    of this batch alone.  The result is the updated model and the batch
    loss. *)
Definition train_step (lr : Q) (model : Model) (x y : Tensor) : result (Model * Q) :=
  (out <- Model_forward model x ;;
   let yhat := squeeze out in
   loss <- MSELoss yhat y ;;
   r <- Sequential_backward (layers model) x
          (fun o => g <- MSELoss_backward (squeeze o) y ;; Ok (squeeze_backward o g)) ;;
   Ok (SGD_step lr model (fst r), item0 loss))%R.

(** [for x, y in train_loader: ...] over the batches fixed by [iter]. *)
Fixpoint train_batches (lr : Q) (ds : AbaloneData) (batches : list (list nat))
    (model : Model) (train_loss : Q) : result (Model * Q) :=
  match batches with
  | [] => Ok (model, train_loss)
  | b :: bs =>
      (xy <- fetch ds b ;;
       r <- train_step lr model (fst xy) (snd xy) ;;
       train_batches lr ds bs (fst r) (train_loss + snd r)%Q)%R
  end.

(** [for epoch in range(epochs): ...] *)
Fixpoint train_epochs (lr : Q) (epochs : nat) (model : Model) : M Model :=
  match epochs with
  | O => ret model
  | S epochs' =>
      let train_loss := 0%Q in
      batches <- DataLoader_iter train_loader ;;
      r <- lift (train_batches lr (dataset train_loader) batches model train_loss) ;;
      train_epochs lr epochs' (fst r)
  end.

(** [next(iter(test_loader))] *)
Definition first_batch (dl : DataLoader) : M (Tensor * Tensor) :=
  batches <- DataLoader_iter dl ;;
  match batches with
  | [] => raise StopIteration
  | b :: _ => lift (fetch (dataset dl) b)
  end.

Definition get_test_loss (layer_size epochs : nat) : M (Q * nat) :=
  model <- Model_init layer_size ;;
  (* criterion = nn.MSELoss(); optimizer = SGD(model.parameters(), lr=.01) *)
  let lr := (1 # 100)%Q in
  model <- train_epochs lr epochs model ;;
  let test_loss := 0%Q in
  xy <- first_batch test_loader ;;
  out <- lift (Model_forward model (fst xy)) ;;
  let yhat := squeeze out in
  loss <- lift (MSELoss yhat (snd xy)) ;;
  let test_loss := (test_loss + item0 loss)%Q in
  let num_param := sum_nat (map numel (parameters model)) in
  ret (test_loss, num_param).

(** The same call with its loss as the Python float the caller receives. *)
Definition get_test_loss_float (layer_size epochs : nat) : M (pyfloat * nat) :=
  r <- get_test_loss layer_size epochs ;;
  ret (Fin (fst r), snd r).

End Notebook.

(** ** The sweep over hidden widths *)

(** A loop that may not end is run with a bound on its iterations;
    [OutOfFuel] is the run that has not ended within the bound. *)
Inductive outcome (A : Type) : Type :=
| Done (r : result A) (w : World)
| OutOfFuel.
Arguments Done {A} r w.
Arguments OutOfFuel {A}.

(** [a + b] and [a / n] on floats, [n] a positive int. *)
Definition fadd (a b : pyfloat) : pyfloat :=
  match a, b with
  | NaN, _ | _, NaN => NaN
  | PInf, NInf | NInf, PInf => NaN
  | PInf, _ | _, PInf => PInf
  | NInf, _ | _, NInf => NInf
  | Fin p, Fin q => Fin (p + q)
  end.
Definition fdiv (a : pyfloat) (n : nat) : pyfloat :=
  match a with
  | Fin p => Fin (p / Q_of_nat n)
  | _ => a
  end.

Section Sweep.
(** The training call the loops make. *)
Variable get_test_loss_ : nat -> nat -> M (pyfloat * nat).

(** [test_loss > 15]: true on plus infinity, false on minus infinity and,
    as every comparison with it, on NaN. *)
Definition rejected (test_loss : pyfloat) : bool :=
  match test_loss with
  | Fin q => negb (Qle_bool q 15)
  | PInf => true
  | NInf => false
  | NaN => false
  end.

(** [while test_loss > 15: test_loss, num_param = get_test_loss(..)] *)
Fixpoint retry_loop (fuel layer_size epochs : nat) (cur : pyfloat * nat) (w : World)
  : outcome (pyfloat * nat) :=
  if rejected (fst cur)
  then match fuel with
       | O => OutOfFuel
       | S fuel' =>
           match get_test_loss_ layer_size epochs w with
           | (Ok cur', w') => retry_loop fuel' layer_size epochs cur' w'
           | (Raise e, w') => Done (Raise e) w'
           end
       end
  else Done (Ok cur) w.

(** One run of the inner [for]: a first attempt, the retries, and the
    accepted loss. *)
Definition one_run (fuel layer_size epochs : nat) (w : World)
  : outcome (pyfloat * nat) :=
  match get_test_loss_ layer_size epochs w with
  | (Ok cur, w') => retry_loop fuel layer_size epochs cur w'
  | (Raise e, w') => Done (Raise e) w'
  end.

(** [for run in range(num_runs): ...]; the state is [avg_test_loss] and
    the last [num_param] bound, if any. *)
Fixpoint runs_loop (fuel layer_size epochs num_runs : nat) (runs : list nat)
    (st : pyfloat * option nat) (w : World) : outcome (pyfloat * option nat) :=
  match runs with
  | [] => Done (Ok st) w
  | _ :: runs' =>
      match one_run fuel layer_size epochs w with
      | Done (Ok (test_loss, num_param)) w' =>
          runs_loop fuel layer_size epochs num_runs runs'
            (fadd (fst st) (fdiv test_loss num_runs), Some num_param) w'
      | Done (Raise e) w' => Done (Raise e) w'
      | OutOfFuel => OutOfFuel
      end
  end.

(** [for layer_size in range(1, 250, 20): ...]; the state is the two
    result lists. *)
Fixpoint sizes_loop (fuel epochs num_runs : nat) (sizes : list nat)
    (st : list pyfloat * list nat) (w : World)
  : outcome (list pyfloat * list nat) :=
  match sizes with
  | [] => Done (Ok st) w
  | layer_size :: sizes' =>
      let avg_test_loss := Fin 0 in
      match runs_loop fuel layer_size epochs num_runs (py_range 0 num_runs 1)
              (avg_test_loss, None) w with
      | Done (Ok (avg_test_loss, Some num_param)) w' =>
          let w'' := snd (print (PrintSweep layer_size num_param avg_test_loss) w') in
          sizes_loop fuel epochs num_runs sizes'
            (fst st ++ [avg_test_loss], snd st ++ [num_param]) w''
      | Done (Ok (_, None)) w' => Done (Raise NameError) w'
      | Done (Raise e) w' => Done (Raise e) w'
      | OutOfFuel => OutOfFuel
      end
  end.

Definition sweep (fuel : nat) (w : World) : outcome (list pyfloat * list nat) :=
  let test_losses := [] in
  let num_params := [] in
  let epochs := 10 in
  let num_runs := 10 in
  sizes_loop fuel epochs num_runs (py_range 1 250 20) (test_losses, num_params) w.

End Sweep.

(** ** Notions the statements below use *)

(** The column layout the loader expects: a string, then eight numbers. *)
Definition is_num (v : pyval) : bool :=
  match v with PyNum _ => true | PyStr _ => false end.
Definition is_str (v : pyval) : bool :=
  match v with PyStr _ => true | PyNum _ => false end.
Definition row_layout (row : list pyval) : bool :=
  match row with
  | sex :: rest => is_str sex && (length rest =? 8) && forallb is_num rest
  | [] => false
  end.

(** Rows [idxs] of a dataset all exist and have the expected layout. *)
Definition rows_ok (ds : AbaloneData) (idxs : list nat) : Prop :=
  Forall (fun i => exists row,
            nth_error (ds_data ds) i = Some row /\ row_layout row = true) idxs.

(** A model of hidden width [W] as [Model_init] builds it: linear 8 -> W
    without bias, ReLU, linear W -> 1 without bias, ReLU. *)
Definition two_layer (W : nat) (m : Model) (w1 w2 : Tensor) : Prop :=
  layers m = [LinearL (mkLinear w1 None); ReLUL;
              LinearL (mkLinear w2 None); ReLUL] /\
  has_shape w1 [W; 8] /\ has_shape w2 [1; W].

(** The function such a model computes on [n] samples of 8 features: for
    sample [r], hidden unit [j] is [relu (sum_k x[r,k] * w1[j,k])] and the
    output is [relu (sum_j hidden[j] * w2[0,j])]. *)
Definition hidden_unit (w1 x : Tensor) (r j : nat) : Q :=
  relu_scalar (sum_upto 8 (fun k => item x (r * 8 + k) * item w1 (j * 8 + k)))%Q.
Definition pre_activation (W : nat) (w1 w2 x : Tensor) (r : nat) : Q :=
  sum_upto W (fun j => hidden_unit w1 x r j * item w2 j)%Q.
Definition two_layer_net (W : nat) (w1 w2 x : Tensor) (n : nat) : Tensor :=
  mkTensor [n; 1]
    (map (fun r => relu_scalar (pre_activation W w1 w2 x r)) (seq 0 n)).

(** Mean squared error of [n] predictions against [n] targets. *)
Definition mean_squared_error (pred target : list Q) : Q :=
  (sumQ (map2 (fun u v => (u - v) * (u - v)) pred target)
   / Q_of_nat (length target))%Q.


(** ** The gradient of the loss, in closed form

    For a batch of [n] samples the loss is
    [L = (1/n) sum_r (out_r - y_r)^2] with [out_r = relu p_r],
    [p_r = sum_j h_rj * w2[j]], [h_rj = relu q_rj] and
    [q_rj = sum_k x[r,k] * w1[j,k]].  By the chain rule, the derivative of
    ReLU being 0 where its argument is not positive and 1 elsewhere,
    [dL/dp_r = relu'(p_r) * 2 (out_r - y_r) / n],
    [dL/dw2[j] = sum_r dL/dp_r * h_rj] and
    [dL/dw1[j,k] = sum_r dL/dp_r * w2[j] * relu'(q_rj) * x[r,k]]. *)
Definition relu_slope (v : Q) : Q := if Qle_bool v 0 then 0 else 1.
Definition hidden_pre (w1 x : Tensor) (r j : nat) : Q :=
  sum_upto 8 (fun k => item x (r * 8 + k) * item w1 (j * 8 + k))%Q.
Definition out_slope (W : nat) (w1 w2 x y : Tensor) (n r : nat) : Q :=
  (relu_slope (pre_activation W w1 w2 x r) *
   (2 * (relu_scalar (pre_activation W w1 w2 x r) - item y r) / Q_of_nat n))%Q.
Definition grad_w2 (W : nat) (w1 w2 x y : Tensor) (n j : nat) : Q :=
  sum_upto n (fun r => out_slope W w1 w2 x y n r * hidden_unit w1 x r j)%Q.
Definition grad_w1 (W : nat) (w1 w2 x y : Tensor) (n j k : nat) : Q :=
  sum_upto n (fun r => out_slope W w1 w2 x y n r * item w2 j *
                       relu_slope (hidden_pre w1 x r j) * item x (r * 8 + k))%Q.

(** Plain gradient descent at rate [lr] on that loss: the weights
    [v1], [v2] after the step are the weights before it minus [lr] times
    the gradient. *)
Definition descent_step (W : nat) (lr : Q) (w1 w2 x y : Tensor) (n : nat)
    (v1 v2 : Tensor) : Prop :=
  (forall j k, j < W -> k < 8 ->
     (item v1 (j * 8 + k)
      == item w1 (j * 8 + k) - lr * grad_w1 W w1 w2 x y n j k)%Q) /\
  (forall j, j < W ->
     (item v2 j == item w2 j - lr * grad_w2 W w1 w2 x y n j)%Q).

(** The first linear layer's result, and the second's. *)
Definition first_linear (W : nat) (w1 x : Tensor) (n : nat) : Tensor :=
  mkTensor [n; W]
    (flat_map (fun r => map (fun o => hidden_pre w1 x r o) (seq 0 W)) (seq 0 n)).
Definition second_linear (W : nat) (w1 w2 x : Tensor) (n : nat) : Tensor :=
  mkTensor [n; 1] (map (fun r => pre_activation W w1 w2 x r) (seq 0 n)).

(** One pass over the batches: a gradient step per batch, in order. *)
Inductive sgd_pass (lr : Q) (ds : AbaloneData)
  : list (list nat) -> Model -> Model -> Prop :=
| pass_done m : sgd_pass lr ds [] m m
| pass_step b bs m x y m1 l m2 :
    fetch ds b = Ok (x, y) ->
    train_step lr m x y = Ok (m1, l) ->
    sgd_pass lr ds bs m1 m2 ->
    sgd_pass lr ds (b :: bs) m m2.

(** [k] passes over the training loader: each pass goes through a fresh
    permutation of all training rows, [batch_size] at a time. *)
Inductive trained (csv : list (list pyval)) (lr : Q)
  : nat -> Model -> World -> Model -> World -> Prop :=
| trained_O m w : trained csv lr 0 m w m w
| trained_S k m w perm w1 m1 m2 w2 :
    DataLoader_iter (train_loader csv) w
      = (Ok (chunks (batch_size (train_loader csv)) perm), w1) ->
    Permutation perm (seq 0 (AbaloneData_len (dataset (train_loader csv)))) ->
    sgd_pass lr (dataset (train_loader csv))
      (chunks (batch_size (train_loader csv)) perm) m m1 ->
    trained csv lr k m1 w1 m2 w2 ->
    trained csv lr (S k) m w m2 w2.

(** A loss above the threshold, and one at or below it, as statements
    about the value.  NaN is neither. *)
Definition exceeds_threshold (a : pyfloat) : Prop :=
  match a with
  | Fin q => (15 < q)%Q
  | PInf => True
  | NInf => False
  | NaN => False
  end.
Definition at_most_threshold (a : pyfloat) : Prop :=
  match a with
  | Fin q => (q <= 15)%Q
  | PInf => False
  | NInf => True
  | NaN => False
  end.

(** Equal floats: the same special value, or numbers equal in value. *)
Definition float_eq (a b : pyfloat) : Prop :=
  match a, b with
  | Fin p, Fin q => (p == q)%Q
  | PInf, PInf => True
  | NInf, NInf => True
  | NaN, NaN => True
  | _, _ => False
  end.

(** The arithmetic mean of [l] over [n]: the sum divided by [n]. *)
Definition fsum (l : list pyfloat) : pyfloat := fold_right fadd (Fin 0) l.
Definition float_mean (l : list pyfloat) (n : nat) : pyfloat := fdiv (fsum l) n.

Section SweepNotions.
Variable get_test_loss_ : nat -> nat -> M (pyfloat * nat).

(** The outcome of the [k]-th further training call from world [w]
    (counting from 0), when the calls before it returned. *)
Fixpoint attempt (layer_size epochs k : nat) (w : World)
  : result (pyfloat * nat) * World :=
  match k with
  | O => get_test_loss_ layer_size epochs w
  | S k' =>
      match get_test_loss_ layer_size epochs w with
      | (Ok _, w') => attempt layer_size epochs k' w'
      | (Raise e, w') => (Raise e, w')
      end
  end.


(** Where an exception of the loops comes from: a training call. *)
Definition raised_by_training (e : exn) : Prop :=
  exists ls ep w1 w2, get_test_loss_ ls ep w1 = (Raise e, w2).

(** A run accepted after [k] discarded attempts: the attempts before the
    [k]-th returned a loss above 15, the [k]-th returned [test_loss], which
    is not above 15. *)
Definition accepted_run (layer_size epochs : nat) (w : World)
    (test_loss : pyfloat) (num_param : nat) (w' : World) : Prop :=
  exists k,
    attempt layer_size epochs k w = (Ok (test_loss, num_param), w') /\
    ~ exceeds_threshold test_loss /\
    forall j, j < k ->
      exists tl np wj,
        attempt layer_size epochs j w = (Ok (tl, np), wj) /\
        exceeds_threshold tl.

(** [n] accepted runs in a row, with their losses. *)
Inductive accepted_runs (layer_size epochs : nat)
  : nat -> World -> list pyfloat -> World -> Prop :=
| runs_O w : accepted_runs layer_size epochs 0 w [] w
| runs_S n w tl np w1 tls w2 :
    accepted_run layer_size epochs w tl np w1 ->
    accepted_runs layer_size epochs n w1 tls w2 ->
    accepted_runs layer_size epochs (S n) w (tl :: tls) w2.

(** The sweep over the widths [sizes]: for each, [num_runs] accepted runs
    whose mean is recorded (and printed). *)
Inductive swept (epochs num_runs : nat)
  : list nat -> World -> list pyfloat -> World -> Prop :=
| swept_nil w : swept epochs num_runs [] w [] w
| swept_cons layer_size sizes w tls w1 avg num_param avgs w2 :
    accepted_runs layer_size epochs num_runs w tls w1 ->
    float_eq avg (float_mean tls num_runs) ->
    swept epochs num_runs sizes
      (snd (print (PrintSweep layer_size num_param avg) w1)) avgs w2 ->
    swept epochs num_runs (layer_size :: sizes) w (avg :: avgs) w2.

End SweepNotions.

(** ** Sample inputs *)

Definition sample_male : list pyval :=
  [PyStr "M"; PyNum (1 # 2); PyNum (1 # 4); PyNum (1 # 8); PyNum 1;
   PyNum (1 # 2); PyNum (1 # 4); PyNum (1 # 4); PyNum 3].
Definition sample_female : list pyval :=
  [PyStr "F"; PyNum (1 # 2); PyNum (1 # 4); PyNum (1 # 8); PyNum 1;
   PyNum (1 # 2); PyNum (1 # 4); PyNum (1 # 4); PyNum 2].
Definition sample_infant : list pyval :=
  [PyStr "I"; PyNum (1 # 4); PyNum (1 # 4); PyNum (1 # 8); PyNum 1;
   PyNum (1 # 2); PyNum (1 # 4); PyNum (1 # 4); PyNum 1].
Definition sample_frame : list (list pyval) :=
  [sample_male; sample_female; sample_infant].
(** 3001 rows: a full training part and a one-row test part. *)
Definition sample_csv : list (list pyval) :=
  repeat sample_male 3000 ++ [sample_female].
(** 4000 rows: full training and test parts. *)
Definition sample_csv_4000 : list (list pyval) := repeat sample_infant 4000.
Definition sample_generator : Generator :=
  mkGenerator (fun _ => 1 # 2) (fun _ => 0%Q) (fun k => k) 0.
Definition sample_world : World := mkWorld [] sample_generator.
Definition sample_sqrt (q : Q) : Q := 1%Q.
Definition sample_model : Model :=
  mkModel [LinearL (mkLinear (full [2; 8] (1 # 2)) None); ReLUL;
           LinearL (mkLinear (mkTensor [1; 2] [1%Q; (-3)%Q]) None); ReLUL].
(** A model both of whose hidden units reach the output. *)
Definition sample_live_model : Model :=
  mkModel [LinearL (mkLinear (full [2; 8] (1 # 2)) None); ReLUL;
           LinearL (mkLinear (mkTensor [1; 2] [1%Q; 1 # 2]) None); ReLUL].
(** A stand-in for the training call: the loss is read off the generator
    (scaled to 0..40), the parameter count is 9 per hidden unit. *)
Definition sample_training (layer_size epochs : nat) : M (pyfloat * nat) :=
  fun w =>
    (Ok (Fin (uniform01 (rng w) (cursor (rng w)) * 40)%Q, 9 * layer_size),
     mkWorld (stdout w) (advance (rng w) 1)).
(** Losses 35, 5, 10, 35, 5, 10, ... *)
Definition cycling_generator : Generator :=
  mkGenerator (fun k => match k mod 3 with
                        | 0 => 7 # 8 | 1 => 1 # 8 | _ => 1 # 4 end)
              (fun _ => 0%Q) (fun k => k) 0.
Definition cycling_world : World := mkWorld [] cycling_generator.

(** Sample [r] of a batch of 8-feature samples, as a batch of one. *)
Definition sample_row (x : Tensor) (r : nat) : Tensor :=
  mkTensor [1; 8] (firstn 8 (skipn (r * 8) (data x))).

(** A model none of whose output weights is positive. *)
Definition dead (W : nat) (m : Model) : Prop :=
  exists w1 w2, two_layer W m w1 w2 /\ Forall (fun v => (v <= 0)%Q) (data w2).

Definition sample_short_row : list pyval := [PyStr "M"; PyNum 1; PyNum 2].
Definition sample_text_row : list pyval :=
  [PyStr "F"; PyNum 1; PyNum 2; PyStr "?"; PyNum 4; PyNum 5; PyNum 6; PyNum 7;
   PyNum 8].
(** Ten cells, the first a number: one more than the loader reads. *)
Definition sample_wide_row : list pyval :=
  [PyNum 7; PyNum 1; PyNum 2; PyNum 3; PyNum 4; PyNum 5; PyNum 6; PyNum 7;
   PyNum 8; PyStr "extra"].
Definition sample_odd_frame : list (list pyval) :=
  [sample_short_row; sample_text_row; sample_wide_row].
(** A training call that never accepts: the loss is always 40. *)
Definition stuck_training (layer_size epochs : nat) : M (pyfloat * nat) :=
  fun w => (Ok (Fin 40, 9 * layer_size), w).

(** A model whose output weights are all negative. *)
Definition sample_dead_model : Model :=
  mkModel [LinearL (mkLinear (full [2; 8] (1 # 2)) None); ReLUL;
           LinearL (mkLinear (mkTensor [1; 2] [(-1)%Q; (-3)%Q]) None); ReLUL].
(** 3001 rows whose one test row has label 5. *)
Definition sample_elder : list pyval :=
  [PyStr "F"; PyNum (1 # 2); PyNum (1 # 4); PyNum (1 # 8); PyNum 1;
   PyNum (1 # 2); PyNum (1 # 4); PyNum (1 # 4); PyNum 5].
Definition sample_csv_elder : list (list pyval) :=
  repeat sample_male 3000 ++ [sample_elder].



(** A training call that is accepted at once: the loss is always 5. *)
Definition settled_training (layer_size epochs : nat) : M (pyfloat * nat) :=
  fun w => (Ok (Fin 5, 9 * layer_size), w).

(** From [w] to [w'] nothing was printed and the generator's streams are
    the same; only its position may have moved forward. *)
Definition only_advances (w w' : World) : Prop :=
  stdout w' = stdout w /\
  uniform01 (rng w') = uniform01 (rng w) /\
  normal01 (rng w') = normal01 (rng w) /\
  random_raw (rng w') = random_raw (rng w) /\
  cursor (rng w) <= cursor (rng w').

(** The lines the sweep prints for widths, parameter counts and averages
    taken in step. *)
Fixpoint sweep_lines (sizes params : list nat) (losses : list pyfloat)
  : list Line :=
  match sizes, params, losses with
  | ls :: sizes', np :: params', avg :: losses' =>
      PrintSweep ls np avg :: sweep_lines sizes' params' losses'
  | _, _, _ => []
  end.

(** The sweep cell in a run of the notebook over the loaded frame: the
    cell that builds the loaders comes first, and the run stops there if
    it raises; the sweep then calls [get_test_loss]. *)
Definition sweep_cell (fsqrt : Q -> Q) (csv : list (list pyval)) (fuel : nat)
    (w : World) : outcome (list pyfloat * list nat) :=
  match loaders_cell csv with
  | Raise e => Done (Raise e) w
  | Ok _ => sweep (get_test_loss_float fsqrt csv) fuel w
  end.

End ImplicitReg.

(* ================================================================== *)
(** * Facts about the framework model                                  *)
(* ================================================================== *)

Module TorchFacts.
Import Torch.

Lemma flat_map_length_const {A B} (f : A -> list B) (l : list A) (n : nat) :
  (forall a, length (f a) = n) -> length (flat_map f l) = length l * n.
Proof.
  intros Hf. induction l as [|a l IH]; simpl; [reflexivity|].
  rewrite length_app, Hf, IH. reflexivity.
Qed.

Lemma map2_length f (a b : list Q) :
  length (map2 f a b) = Nat.min (length a) (length b).
Proof. unfold map2. rewrite length_map, length_combine. reflexivity. Qed.

Lemma relu_shape t : shape (relu t) = shape t.
Proof. reflexivity. Qed.

Lemma relu_has_shape t s : has_shape t s -> has_shape (relu t) s.
Proof. intros [Hs Hl]. split; simpl; [assumption | now rewrite length_map]. Qed.

Lemma relu_scalar_nonneg v : (0 <= relu_scalar v)%Q.
Proof.
  unfold relu_scalar. destruct (Qle_bool v 0) eqn:E.
  - apply Qle_refl.
  - apply Qlt_le_weak. apply Qnot_le_lt. intros H.
    apply Qle_bool_iff in H. congruence.
Qed.

Lemma relu_scalar_nonpos v : (v <= 0)%Q -> relu_scalar v = 0%Q.
Proof.
  intros H. unfold relu_scalar. apply Qle_bool_iff in H. now rewrite H.
Qed.

(** ** Conv2d *)

Lemma conv2d_core_ok m x lead B C H W :
  1 <= out_channels m ->
  C = in_channels m ->
  kernel_size m <= H + 2 * padding m ->
  kernel_size m <= W + 2 * padding m ->
  exists y, conv2d_core m x lead B C H W = Ok y /\
    shape y = lead ++ [out_channels m;
                       H + 2 * padding m - (kernel_size m - 1) - 1 + 1;
                       W + 2 * padding m - (kernel_size m - 1) - 1 + 1] /\
    length (data y) =
      B * (out_channels m *
           ((H + 2 * padding m - (kernel_size m - 1) - 1 + 1) *
            (W + 2 * padding m - (kernel_size m - 1) - 1 + 1))).
Proof.
  intros HO HC HH HW. unfold conv2d_core.
  replace (out_channels m =? 0) with false
    by (symmetry; apply Nat.eqb_neq; lia).
  replace (C =? in_channels m) with true by (symmetry; now apply Nat.eqb_eq).
  replace (H + 2 * padding m <? kernel_size m) with false
    by (symmetry; apply Nat.ltb_ge; assumption).
  replace (W + 2 * padding m <? kernel_size m) with false
    by (symmetry; apply Nat.ltb_ge; assumption).
  cbn [negb orb]. cbv iota.
  eexists. split; [reflexivity|]. split; [reflexivity|].
  cbn [data].
  rewrite (flat_map_length_const _ _
    (out_channels m * ((H + 2 * padding m - (kernel_size m - 1) - 1 + 1) *
                       (W + 2 * padding m - (kernel_size m - 1) - 1 + 1)))).
  - now rewrite length_seq.
  - intros b.
    rewrite (flat_map_length_const _ _
      ((H + 2 * padding m - (kernel_size m - 1) - 1 + 1) *
       (W + 2 * padding m - (kernel_size m - 1) - 1 + 1))).
    + now rewrite length_seq.
    + intros o.
      rewrite (flat_map_length_const _ _
        (W + 2 * padding m - (kernel_size m - 1) - 1 + 1)).
      * now rewrite length_seq.
      * intros i. now rewrite length_map, length_seq.
Qed.

Lemma conv2d_core_inv m x lead B C H W y :
  conv2d_core m x lead B C H W = Ok y ->
  1 <= out_channels m /\
  C = in_channels m /\
  kernel_size m <= H + 2 * padding m /\
  kernel_size m <= W + 2 * padding m /\
  shape y = lead ++ [out_channels m;
                     H + 2 * padding m - (kernel_size m - 1) - 1 + 1;
                     W + 2 * padding m - (kernel_size m - 1) - 1 + 1].
Proof.
  unfold conv2d_core. intros E.
  destruct (out_channels m =? 0) eqn:EO; [discriminate|].
  destruct (C =? in_channels m) eqn:EC; cbn [negb] in E; cbv iota in E;
    [|discriminate].
  destruct (H + 2 * padding m <? kernel_size m) eqn:EH; cbn [orb] in E;
    cbv iota in E; [discriminate|].
  destruct (W + 2 * padding m <? kernel_size m) eqn:EW; cbv iota in E;
    [discriminate|].
  injection E as <-.
  apply Nat.eqb_neq in EO. apply Nat.eqb_eq in EC. apply Nat.ltb_ge in EH, EW.
  repeat split; try assumption. lia.
Qed.

(** A batched input with matching channels and room for the kernel goes
    through, and the output size follows the usual formula. *)
Lemma Conv2d_forward_ok m x B C H W :
  shape x = [B; C; H; W] ->
  1 <= out_channels m ->
  C = in_channels m ->
  kernel_size m <= H + 2 * padding m ->
  kernel_size m <= W + 2 * padding m ->
  exists y, Conv2d_forward m x = Ok y /\
    has_shape y [B; out_channels m;
                 H + 2 * padding m - (kernel_size m - 1) - 1 + 1;
                 W + 2 * padding m - (kernel_size m - 1) - 1 + 1].
Proof.
  intros Hs HO HC HH HW. unfold Conv2d_forward. rewrite Hs.
  destruct (conv2d_core_ok m x [B] B C H W HO HC HH HW) as (y & E & Hy & Hl).
  exists y. split; [assumption|]. split; [assumption|].
  rewrite Hl. unfold numel_of. simpl. lia.
Qed.

(** What a successful convolution tells about its input. *)
Lemma Conv2d_forward_inv m x y :
  Conv2d_forward m x = Ok y ->
  exists lead C H W,
    shape x = lead ++ [C; H; W] /\ length lead <= 1 /\
    1 <= out_channels m /\
    C = in_channels m /\
    kernel_size m <= H + 2 * padding m /\
    kernel_size m <= W + 2 * padding m /\
    shape y = lead ++ [out_channels m;
                       H + 2 * padding m - (kernel_size m - 1) - 1 + 1;
                       W + 2 * padding m - (kernel_size m - 1) - 1 + 1].
Proof.
  unfold Conv2d_forward.
  destruct (shape x) as [|a [|b [|c [|d [|e l]]]]]; try discriminate; intros E.
  - apply conv2d_core_inv in E. destruct E as (HO & HC & HH & HW & Hy).
    exists [], a, b, c. simpl. repeat split; auto.
  - apply conv2d_core_inv in E. destruct E as (HO & HC & HH & HW & Hy).
    exists [a], b, c, d. simpl. repeat split; auto.
Qed.

(** Two channels of 3x3, one output channel: an all-ones kernel on the
    first channel, the identity kernel on the second, bias 100. *)
Example conv2d_padded_3x3 :
  let x := mkTensor [1; 2; 3; 3]
             (map (fun k => inject_Z (Z.of_nat k)) (seq 1 18)) in
  let w := mkTensor [1; 2; 3; 3]
             (repeat 1%Q 9 ++ [0; 0; 0; 0; 1; 0; 0; 0; 0]%Q) in
  match Conv2d_forward (mkConv2d 2 1 3 1 w (mkTensor [1] [100%Q])) x with
  | Ok y => shape y = [1; 1; 3; 3] /\
            map Qred (data y)
            = [122; 132; 128; 140; 159; 148; 140; 156; 146]%Q
  | Raise _ => False
  end.
Proof. vm_compute. split; reflexivity. Qed.

Example conv2d_unpadded_3x3 :
  let x := mkTensor [1; 2; 3; 3]
             (map (fun k => inject_Z (Z.of_nat k)) (seq 1 18)) in
  let w := mkTensor [1; 2; 3; 3]
             (repeat 1%Q 9 ++ [0; 0; 0; 0; 1; 0; 0; 0; 0]%Q) in
  match Conv2d_forward (mkConv2d 2 1 3 0 w (mkTensor [1] [100%Q])) x with
  | Ok y => shape y = [1; 1; 1; 1] /\ map Qred (data y) = [159%Q]
  | Raise _ => False
  end.
Proof. vm_compute. split; reflexivity. Qed.

(** ** BatchNorm2d *)

Lemma BatchNorm2d_forward_ok fsqrt m x B C H W :
  shape x = [B; C; H; W] ->
  C = num_features m ->
  B * (H * W) <> 1 ->
  exists y, BatchNorm2d_forward fsqrt m x = Ok y /\ has_shape y [B; C; H; W].
Proof.
  intros Hs HC Hn. unfold BatchNorm2d_forward. rewrite Hs.
  replace (B * (H * W) =? 1) with false by (symmetry; now apply Nat.eqb_neq).
  replace (C =? num_features m) with true by (symmetry; now apply Nat.eqb_eq).
  cbn [negb]. cbv iota.
  eexists. split; [reflexivity|]. split; [reflexivity|].
  cbn [data].
  rewrite (flat_map_length_const _ _ (C * (H * W))).
  - rewrite length_seq. unfold numel_of. simpl. lia.
  - intros b. rewrite (flat_map_length_const _ _ (H * W)).
    + now rewrite length_seq.
    + intros c. destruct (nth c _ _) as [mu var].
      now rewrite length_map, length_seq.
Qed.

Lemma BatchNorm2d_forward_inv fsqrt m x y :
  BatchNorm2d_forward fsqrt m x = Ok y ->
  exists B C H W, shape x = [B; C; H; W] /\ shape y = [B; C; H; W] /\
                  B * (H * W) <> 1 /\ C = num_features m.
Proof.
  unfold BatchNorm2d_forward.
  destruct (shape x) as [|B [|C [|H [|W [|e l]]]]]; try discriminate.
  intros E.
  destruct (B * (H * W) =? 1) eqn:E1; [discriminate|].
  destruct (C =? num_features m) eqn:E2; cbn [negb] in E; cbv iota in E;
    [|discriminate].
  injection E as <-.
  apply Nat.eqb_neq in E1. apply Nat.eqb_eq in E2.
  exists B, C, H, W. repeat split; auto.
Qed.

(** ** Indexing and broadcasting *)

Lemma length_unravel s k : length (unravel s k) = length s.
Proof. revert k. induction s as [|d s IH]; intros k; simpl; auto. Qed.

Lemma ravel_unravel s k : k < numel_of s -> ravel s (unravel s k) = k.
Proof.
  revert k. induction s as [|d s IH]; intros k Hk; simpl in *.
  - lia.
  - fold (numel_of s) in *.
    assert (Hn : numel_of s <> 0) by (intros E; rewrite E in Hk; lia).
    rewrite IH by (apply Nat.mod_upper_bound; assumption).
    pose proof (Nat.div_mod_eq k (numel_of s)). lia.
Qed.

Lemma expand_index_unravel s k :
  k < numel_of s -> expand_index s (unravel s k) = unravel s k.
Proof.
  intros Hk. unfold expand_index.
  rewrite length_unravel, Nat.sub_diag. cbn [skipn].
  revert k Hk. induction s as [|d s IH]; intros k Hk; simpl in *; [reflexivity|].
  fold (numel_of s) in *.
  assert (Hn : numel_of s <> 0) by (intros E; rewrite E in Hk; lia).
  rewrite IH by (apply Nat.mod_upper_bound; assumption).
  f_equal. destruct (d =? 1) eqn:E; [|reflexivity].
  apply Nat.eqb_eq in E. subst d. symmetry. apply Nat.div_small. lia.
Qed.

Lemma map_nth_seq (l : list Q) d :
  map (fun k => nth k l d) (seq 0 (length l)) = l.
Proof.
  apply nth_ext with (d := d) (d' := d).
  - now rewrite length_map, length_seq.
  - intros n Hn. rewrite length_map, length_seq in Hn.
    rewrite (nth_indep _ d (nth 0 l d)) by (now rewrite length_map, length_seq).
    rewrite (map_nth (fun k => nth k l d) (seq 0 (length l)) 0 n).
    now rewrite seq_nth.
Qed.

(** Expanding a tensor to its own size changes nothing. *)
Lemma expand_self t : length (data t) = numel t -> expand t (shape t) = t.
Proof.
  intros Hl. unfold expand, tabulate. destruct t as [s d]. simpl in *.
  f_equal. unfold numel in Hl. simpl in Hl. rewrite <- Hl at 1.
  rewrite <- (map_nth_seq d 0) at 2.
  apply map_ext_in. intros k Hk. apply in_seq in Hk.
  unfold get, item. simpl.
  rewrite expand_index_unravel, ravel_unravel by lia. reflexivity.
Qed.

Lemma expand_has_shape t s : has_shape t s -> expand t s = t.
Proof. intros [<- Hl]. apply expand_self. exact Hl. Qed.

Lemma infer_size_rev_refl r d : infer_size_rev r r d = Ok r.
Proof.
  revert d. induction r as [|a r IH]; intros d; simpl; [reflexivity|].
  rewrite Nat.eqb_refl, IH. reflexivity.
Qed.

Lemma infer_size_refl s : infer_size s s = Ok s.
Proof.
  unfold infer_size. rewrite infer_size_rev_refl. simpl.
  now rewrite rev_involutive.
Qed.

Lemma list_eqb_refl s : list_eqb s s = true.
Proof. unfold list_eqb. destruct (list_eq_dec Nat.eq_dec s s); congruence. Qed.

Lemma list_eqb_eq a b : list_eqb a b = true -> a = b.
Proof. unfold list_eqb. destruct (list_eq_dec Nat.eq_dec a b); congruence. Qed.

(** [out += x] on two tensors of one size adds element by element. *)
Lemma add__same_size out x s :
  has_shape out s -> has_shape x s ->
  add_ out x = Ok (mkTensor s (map2 Qplus (data out) (data x))).
Proof.
  intros [Ho Hlo] [Hx Hlx]. unfold add_. rewrite Ho, Hx.
  rewrite infer_size_refl, list_eqb_refl.
  rewrite <- Hx in Hlx |- *. rewrite expand_self by exact Hlx. reflexivity.
Qed.

Example infer_size_clash :
  infer_size [1; 64; 46; 46] [1; 64; 50; 50]
  = Raise (RuntimeError_size_mismatch 46 50 3).
Proof. reflexivity. Qed.

Example infer_size_broadcast : infer_size [5; 1; 46] [3; 1; 7; 1] = Ok [3; 5; 7; 46].
Proof. reflexivity. Qed.

(** When the two last sizes clash the operands do not broadcast. *)
Lemma infer_size_rev_head a ra b rb d r :
  infer_size_rev (a :: ra) (b :: rb) d = Ok (a :: r) -> b = a \/ b = 1.
Proof.
  simpl. destruct (a =? b) eqn:E1.
  - apply Nat.eqb_eq in E1. auto.
  - destruct (a =? 1) eqn:E2.
    + destruct (infer_size_rev ra rb (d - 1)); simpl; [|discriminate].
      intros E. injection E as E _. apply Nat.eqb_neq in E1. congruence.
    + destruct (b =? 1) eqn:E3; [|discriminate].
      apply Nat.eqb_eq in E3. auto.
Qed.

(** What a successful in-place addition tells about the sizes: the last
    size of [x] is the last size of [out], or 1. *)
Lemma add__inv_last out x y so a sx b :
  add_ out x = Ok y ->
  shape out = so ++ [a] -> shape x = sx ++ [b] ->
  b = a \/ b = 1.
Proof.
  unfold add_, infer_size. intros E Ho Hx. rewrite Ho, Hx in E.
  rewrite !rev_app_distr in E. cbn [rev app] in E.
  destruct (infer_size_rev _ _ _) as [r|e] eqn:Er; simpl in E; [|discriminate].
  destruct (list_eqb (rev r) (so ++ [a])) eqn:El; [|discriminate].
  apply list_eqb_eq in El.
  assert (Hr : r = a :: rev so).
  { rewrite <- (rev_involutive r), El, rev_app_distr. reflexivity. }
  subst r. eapply infer_size_rev_head. exact Er.
Qed.

End TorchFacts.

(* ================================================================== *)
(** * The residual block                                               *)
(* ================================================================== *)

Module Demo05Facts.
Import Torch TorchFacts Demo05.

Lemma bind_lift_ok {A B} (r : result A) (a : A) (k : A -> M B) w :
  r = Ok a -> bind (lift r) k w = k a w.
Proof. intros ->. reflexivity. Qed.

Lemma bind_lift_raise {A B} (r : result A) e (k : A -> M B) w :
  r = Raise e -> bind (lift r) k w = (Raise e, w).
Proof. intros ->. reflexivity. Qed.

Lemma BuildingBlock_init_configured fs C w :
  exists blk w',
    BuildingBlock_init fs C w = (Ok blk, w') /\ configured blk C 1 /\
    stdout w' = stdout w.
Proof.
  eexists. eexists. split; [reflexivity|].
  unfold configured. simpl. repeat split.
Qed.

Lemma BuildingBlock_init_unpadded_configured fs C w :
  exists blk w',
    BuildingBlock_init_unpadded fs C w = (Ok blk, w') /\ configured blk C 0 /\
    stdout w' = stdout w.
Proof.
  eexists. eexists. split; [reflexivity|].
  unfold configured. simpl. repeat split.
Qed.

(** What a returning [forward] went through. *)
Lemma forward_ok_inv fs blk x w y w' :
  forward fs blk x w = (Ok y, w') ->
  exists c1 n1 c2 n2 a,
    Conv2d_forward (conv1 blk) x = Ok c1 /\
    BatchNorm2d_forward fs (bn1 blk) c1 = Ok n1 /\
    Conv2d_forward (conv2 blk) (relu n1) = Ok c2 /\
    BatchNorm2d_forward fs (bn2 blk) c2 = Ok n2 /\
    add_ n2 x = Ok a /\ y = relu a.
Proof.
  unfold forward, bind, lift, ret, print.
  destruct (Conv2d_forward (conv1 blk) x) as [c1|e] eqn:E1; [|discriminate].
  destruct (BatchNorm2d_forward fs (bn1 blk) c1) as [n1|e] eqn:E2;
    [|discriminate].
  destruct (Conv2d_forward (conv2 blk) (relu n1)) as [c2|e] eqn:E3;
    [|discriminate].
  destruct (BatchNorm2d_forward fs (bn2 blk) c2) as [n2|e] eqn:E4;
    [|discriminate].
  destruct (add_ n2 x) as [a|e] eqn:E5; [|discriminate].
  intros E. injection E as <- _.
  exists c1, n1, c2, n2, a. repeat split; auto.
Qed.

(** A block without padding shrinks each spatial size by two per
    convolution, so its skip connection cannot be added back. *)
Lemma unpadded_forward_raises fs blk C x w :
  configured blk C 0 -> forall y w', forward fs blk x w <> (Ok y, w').
Proof.
  intros (Hc1 & Hc2 & Hb1 & Hb2) y w' E.
  destruct Hc1 as (Hi1 & Ho1 & Hk1 & Hp1).
  destruct Hc2 as (Hi2 & Ho2 & Hk2 & Hp2).
  apply forward_ok_inv in E.
  destruct E as (c1 & n1 & c2 & n2 & a & E1 & E2 & E3 & E4 & E5 & _).
  apply Conv2d_forward_inv in E1.
  destruct E1 as (lead & C1 & H & W & Hx & Hlead & _ & _ & _ & HW & Hs1).
  apply BatchNorm2d_forward_inv in E2.
  destruct E2 as (B & C' & H' & W' & Hs1' & Hn1 & _ & _).
  apply Conv2d_forward_inv in E3.
  destruct E3 as (lead2 & C2 & H2 & W2 & Hr & Hlead2 & _ & _ & _ & HW2 & Hs2).
  apply BatchNorm2d_forward_inv in E4.
  destruct E4 as (B3 & C3 & H3 & W3 & Hs2' & Hn2 & _ & _).
  rewrite relu_shape, Hn1 in Hr.
  rewrite Hk1, Hp1 in *. rewrite Hk2, Hp2 in *.
  rewrite Hs1' in Hs1. rewrite Hs2' in Hs2.
  destruct lead as [|b [|b' lead]]; simpl in Hs1, Hlead; try discriminate;
    try lia.
  destruct lead2 as [|b2 [|b2' lead2]]; simpl in Hs2, Hr, Hlead2;
    try discriminate; try lia.
  injection Hs1 as -> -> -> ->. injection Hr as <- <- <- <-.
  injection Hs2 as -> -> -> ->.
  destruct (add__inv_last n2 x a [b; out_channels (conv2 blk);
                                  H + 2 * 0 - (3 - 1) - 1 + 1 + 2 * 0 - (3 - 1) - 1 + 1]
              (W + 2 * 0 - (3 - 1) - 1 + 1 + 2 * 0 - (3 - 1) - 1 + 1)
              [b; C1; H] W E5 Hn2 Hx) as [Hw|Hw]; lia.
Qed.

(** On a batched input with room for both kernels and more than one value
    per channel at each normalisation, the block without padding (of at
    least one channel) prints the two shrunk sizes and fails at the
    addition. *)
Lemma unpadded_forward_trace fs blk C x w B H W :
  configured blk C 0 -> 1 <= C ->
  shape x = [B; C; H; W] ->
  6 <= H -> 6 <= W ->
  forward fs blk x w =
    (Raise (RuntimeError_size_mismatch (W - 4) W 3),
     mkWorld (stdout w ++
                [PrintLabelledSize "shape after first weight layer:"
                   [B; C; H - 2; W - 2];
                 PrintLabelledSize "shape after second weight layer:"
                   [B; C; H - 4; W - 4]])
             (rng w)).
Proof.
  intros (Hc1 & Hc2 & Hb1 & Hb2) HC Hx HH HW.
  destruct Hc1 as (Hi1 & Ho1 & Hk1 & Hp1).
  destruct Hc2 as (Hi2 & Ho2 & Hk2 & Hp2).
  destruct (Conv2d_forward_ok (conv1 blk) x B C H W Hx) as (c1 & E1 & Hs1 & _);
    [lia | congruence | rewrite Hk1, Hp1; lia | rewrite Hk1, Hp1; lia |].
  rewrite Ho1, Hk1, Hp1 in Hs1.
  replace (H + 2 * 0 - (3 - 1) - 1 + 1) with (H - 2) in Hs1 by lia.
  replace (W + 2 * 0 - (3 - 1) - 1 + 1) with (W - 2) in Hs1 by lia.
  assert (Hbig : forall b h w', 2 <= h -> 2 <= w' -> b * (h * w') <> 1)
    by (intros [|b] h w' ? ?; [simpl; lia | nia]).
  destruct (BatchNorm2d_forward_ok fs (bn1 blk) c1 B C (H - 2) (W - 2) Hs1)
    as (n1 & E2 & Hs2 & _); [congruence | apply Hbig; lia |].
  destruct (Conv2d_forward_ok (conv2 blk) (relu n1) B C (H - 2) (W - 2))
    as (c2 & E3 & Hs3 & _);
    [rewrite relu_shape; exact Hs2 | lia | congruence
    | rewrite Hk2, Hp2; lia | rewrite Hk2, Hp2; lia |].
  rewrite Ho2, Hk2, Hp2 in Hs3.
  replace (H - 2 + 2 * 0 - (3 - 1) - 1 + 1) with (H - 4) in Hs3 by lia.
  replace (W - 2 + 2 * 0 - (3 - 1) - 1 + 1) with (W - 4) in Hs3 by lia.
  destruct (BatchNorm2d_forward_ok fs (bn2 blk) c2 B C (H - 4) (W - 4) Hs3)
    as (n2 & E4 & Hs4 & _); [congruence | apply Hbig; lia |].
  unfold forward.
  rewrite (bind_lift_ok _ _ _ _ E1), (bind_lift_ok _ _ _ _ E2).
  unfold bind at 1. unfold ret at 1. unfold bind at 1. unfold print at 1.
  rewrite (bind_lift_ok _ _ _ _ E3), (bind_lift_ok _ _ _ _ E4).
  unfold bind at 1. unfold print at 1.
  rewrite relu_shape, Hs2, Hs4. cbn [stdout rng].
  assert (Ea : add_ n2 x = Raise (RuntimeError_size_mismatch (W - 4) W 3)).
  { unfold add_, infer_size. rewrite Hs4, Hx. cbn [rev app length Nat.max Nat.sub].
    cbn [infer_size_rev].
    replace (W - 4 =? W) with false by (symmetry; apply Nat.eqb_neq; lia).
    replace (W - 4 =? 1) with false by (symmetry; apply Nat.eqb_neq; lia).
    replace (W =? 1) with false by (symmetry; apply Nat.eqb_neq; lia).
    reflexivity. }
  rewrite (bind_lift_raise _ _ _ _ Ea). rewrite <- app_assoc. reflexivity.
Qed.

(** C1 as stated fails on three kinds of input, each of the size
    (B, C, H, W) the claim asks for, with C the block's channel count.
    A 1x1x1x1 input: the padded block raises at its first normalisation,
    which in training mode refuses a single value per channel.  A block of
    no channel on a 2x0x3x3 input: the first convolution refuses a weight
    without an output channel.  A 1x1x0x3 input: the padded height 2 is
    below the kernel's 3. *)
Lemma padded_forward_raises_on_claimed_sizes :
  (has_shape one_pixel [1; 1; 1; 1] /\
   bind (BuildingBlock_init sample_sqrt 1)
        (fun blk => forward sample_sqrt blk one_pixel) sample_world
   = (Raise (ValueError_one_value_per_channel [1; 1; 1; 1]),
      mkWorld [] (advance sample_generator 20))) /\
  (has_shape no_channels [2; 0; 3; 3] /\
   bind (BuildingBlock_init sample_sqrt 0)
        (fun blk => forward sample_sqrt blk no_channels) sample_world
   = (Raise (RuntimeError_weight_dim0 [0; 0; 3; 3]),
      mkWorld [] (advance sample_generator 0))) /\
  (has_shape empty_height [1; 1; 0; 3] /\
   bind (BuildingBlock_init sample_sqrt 1)
        (fun blk => forward sample_sqrt blk empty_height) sample_world
   = (Raise (RuntimeError_kernel_size 2 5 3),
      mkWorld [] (advance sample_generator 20))).
Proof.
  repeat split; vm_compute; reflexivity.
Qed.

(** The padded block of at least one channel, on an input of its channel
    count with non-empty height and width and not exactly one value per
    channel: every stage keeps the size, and the result is the ReLU of the
    element-wise sum of the second normalisation's output and the input. *)
Lemma padded_forward_ok fs blk C x B H W :
  configured blk C 1 -> 1 <= C ->
  has_shape x [B; C; H; W] -> 1 <= H -> 1 <= W -> B * (H * W) <> 1 ->
  exists c1 n1 c2 pre,
    Conv2d_forward (conv1 blk) x = Ok c1 /\ has_shape c1 [B; C; H; W] /\
    BatchNorm2d_forward fs (bn1 blk) c1 = Ok n1 /\ has_shape n1 [B; C; H; W] /\
    Conv2d_forward (conv2 blk) (relu n1) = Ok c2 /\ has_shape c2 [B; C; H; W] /\
    BatchNorm2d_forward fs (bn2 blk) c2 = Ok pre /\ has_shape pre [B; C; H; W] /\
    let y := relu (mkTensor [B; C; H; W] (map2 Qplus (data pre) (data x))) in
    has_shape y [B; C; H; W] /\
    forall w,
      forward fs blk x w =
        (Ok y,
         mkWorld (stdout w ++
                    [PrintLabelledSize "shape after first weight layer:"
                       [B; C; H; W];
                     PrintLabelledSize "shape after second weight layer:"
                       [B; C; H; W]])
                 (rng w)).
Proof.
  intros (Hc1 & Hc2 & Hb1 & Hb2) HC [Hx Hlx] HH HW Hn.
  destruct Hc1 as (Hi1 & Ho1 & Hk1 & Hp1).
  destruct Hc2 as (Hi2 & Ho2 & Hk2 & Hp2).
  destruct (Conv2d_forward_ok (conv1 blk) x B C H W Hx) as (c1 & E1 & Hs1);
    [lia | congruence | rewrite Hk1, Hp1; lia | rewrite Hk1, Hp1; lia |].
  rewrite Ho1, Hk1, Hp1 in Hs1.
  replace (H + 2 * 1 - (3 - 1) - 1 + 1) with H in Hs1 by lia.
  replace (W + 2 * 1 - (3 - 1) - 1 + 1) with W in Hs1 by lia.
  destruct (BatchNorm2d_forward_ok fs (bn1 blk) c1 B C H W (proj1 Hs1))
    as (n1 & E2 & Hs2); [congruence | exact Hn |].
  destruct (Conv2d_forward_ok (conv2 blk) (relu n1) B C H W)
    as (c2 & E3 & Hs3);
    [rewrite relu_shape; exact (proj1 Hs2) | lia | congruence
    | rewrite Hk2, Hp2; lia | rewrite Hk2, Hp2; lia |].
  rewrite Ho2, Hk2, Hp2 in Hs3.
  replace (H + 2 * 1 - (3 - 1) - 1 + 1) with H in Hs3 by lia.
  replace (W + 2 * 1 - (3 - 1) - 1 + 1) with W in Hs3 by lia.
  destruct (BatchNorm2d_forward_ok fs (bn2 blk) c2 B C H W (proj1 Hs3))
    as (pre & E4 & Hs4); [congruence | exact Hn |].
  exists c1, n1, c2, pre. repeat (split; [assumption|]).
  split.
  - apply relu_has_shape. split; [reflexivity|]. cbn [data].
    rewrite map2_length, (proj2 Hs4), Hlx. apply Nat.min_id.
  - intros w. unfold forward.
    rewrite (bind_lift_ok _ _ _ _ E1), (bind_lift_ok _ _ _ _ E2).
    unfold bind at 1. unfold ret at 1. unfold bind at 1. unfold print at 1.
    rewrite (bind_lift_ok _ _ _ _ E3), (bind_lift_ok _ _ _ _ E4).
    unfold bind at 1. unfold print at 1.
    rewrite relu_shape, (proj1 Hs2), (proj1 Hs4). cbn [stdout rng].
    rewrite (bind_lift_ok _ _ _ _ (add__same_size pre x _ Hs4 (conj Hx Hlx))).
    unfold bind, ret. rewrite <- app_assoc. reflexivity.
Qed.

(** X1: the cell that retries the example with the padded block prints the
    input size and then the same size after each weight layer, as the
    notebook records, and returns a tensor of that size. *)
Lemma run_padded_trace fs w :
  exists y w',
    run_padded fs w = (Ok y, w') /\ has_shape y [1; 64; 50; 50] /\
    stdout w' =
      stdout w ++
      [PrintSize [1; 64; 50; 50];
       PrintLabelledSize "shape after first weight layer:" [1; 64; 50; 50];
       PrintLabelledSize "shape after second weight layer:" [1; 64; 50; 50]].
Proof.
  set (x := mkTensor [1; NUM_CHANNELS; 50; 50]
              (map (fun i => normal01 (rng w) (cursor (rng w) + i))
                   (seq 0 (numel_of [1; NUM_CHANNELS; 50; 50])))).
  set (w1 := mkWorld (stdout w ++ [PrintSize [1; 64; 50; 50]])
               (advance (rng w) (numel_of [1; NUM_CHANNELS; 50; 50]))).
  assert (Emake : make_input w = (Ok x, w1)) by reflexivity.
  assert (Hx : has_shape x [1; 64; 50; 50]).
  { split; [reflexivity|]. subst x. cbn [data].
    now rewrite length_map, length_seq. }
  destruct (BuildingBlock_init_configured fs NUM_CHANNELS w1)
    as (blk & w2 & Einit & Hcfg & Hw2).
  destruct (padded_forward_ok fs blk 64 x 1 50 50 Hcfg)
    as (c1 & n1 & c2 & pre & _ & _ & _ & _ & _ & _ & _ & _ & Hy & Hrun);
    [lia | exact Hx | lia | lia | lia |].
  eexists. eexists. split; [|split; [exact Hy|]].
  - unfold run_padded. unfold bind at 1. rewrite Emake.
    unfold bind at 1. rewrite Einit. rewrite (Hrun w2). reflexivity.
  - cbn [stdout]. rewrite Hw2. subst w1. cbn [stdout].
    rewrite <- app_assoc. reflexivity.
Qed.

(** C1 (amended): for every input of size (B, C, H, W) with C >= 1 the
    block's channel count, H >= 1, W >= 1 and not exactly one value per
    channel (B*H*W <> 1; the empty batch is included), the padded block
    runs convolution, normalisation and ReLU, then convolution and
    normalisation, each result of size (B, C, H, W); it adds the input
    element by element to the second normalisation's output, applies the
    final ReLU, prints the two sizes, and returns a tensor of size
    (B, C, H, W). *)
Theorem padded_forward_residual fs C w0 :
  exists blk w0',
    BuildingBlock_init fs C w0 = (Ok blk, w0') /\ configured blk C 1 /\
    forall x B H W,
      1 <= C -> has_shape x [B; C; H; W] ->
      1 <= H -> 1 <= W -> B * (H * W) <> 1 ->
      exists c1 n1 c2 pre,
        Conv2d_forward (conv1 blk) x = Ok c1 /\ has_shape c1 [B; C; H; W] /\
        BatchNorm2d_forward fs (bn1 blk) c1 = Ok n1 /\ has_shape n1 [B; C; H; W] /\
        Conv2d_forward (conv2 blk) (relu n1) = Ok c2 /\ has_shape c2 [B; C; H; W] /\
        BatchNorm2d_forward fs (bn2 blk) c2 = Ok pre /\ has_shape pre [B; C; H; W] /\
        let y := relu (mkTensor [B; C; H; W] (map2 Qplus (data pre) (data x))) in
        has_shape y [B; C; H; W] /\
        forall w,
          forward fs blk x w =
            (Ok y,
             mkWorld (stdout w ++
                        [PrintLabelledSize "shape after first weight layer:"
                           [B; C; H; W];
                         PrintLabelledSize "shape after second weight layer:"
                           [B; C; H; W]])
                     (rng w)).
Proof.
  destruct (BuildingBlock_init_configured fs C w0) as (blk & w0' & Einit & Hcfg & _).
  exists blk, w0'. split; [exact Einit|]. split; [exact Hcfg|].
  intros x B H W HC Hx HH HW Hn.
  apply (padded_forward_ok fs blk C x B H W Hcfg HC Hx HH HW Hn).
Qed.

Lemma padded_forward_residual_witness :
  has_shape two_by_two [1; 1; 2; 2] /\ 1 * (2 * 2) <> 1 /\
  has_shape empty_batch [0; 1; 2; 2] /\ 0 * (2 * 2) <> 1 /\
  exists blk w0' y y0,
    BuildingBlock_init sample_sqrt 1 sample_world = (Ok blk, w0') /\
    has_shape y [1; 1; 2; 2] /\
    fst (forward sample_sqrt blk two_by_two w0') = Ok y /\
    has_shape y0 [0; 1; 2; 2] /\
    fst (forward sample_sqrt blk empty_batch w0') = Ok y0.
Proof.
  assert (Hx : has_shape two_by_two [1; 1; 2; 2]) by (split; reflexivity).
  assert (Hn : 1 * (2 * 2) <> 1) by (simpl; lia).
  assert (Hx0 : has_shape empty_batch [0; 1; 2; 2]) by (split; reflexivity).
  assert (Hn0 : 0 * (2 * 2) <> 1) by (simpl; lia).
  assert (H1 : 1 <= 1) by lia. assert (H2 : 1 <= 2) by lia.
  split; [exact Hx|]. split; [exact Hn|].
  split; [exact Hx0|]. split; [exact Hn0|].
  destruct (padded_forward_residual sample_sqrt 1 sample_world)
    as (blk & w0' & Einit & _ & Hfwd).
  destruct (Hfwd two_by_two 1 2 2 H1 Hx H2 H2 Hn)
    as (c1 & n1 & c2 & pre & _ & _ & _ & _ & _ & _ & _ & _ & Hy & Hrun).
  destruct (Hfwd empty_batch 0 2 2 H1 Hx0 H2 H2 Hn0)
    as (d1 & m1 & d2 & pre0 & _ & _ & _ & _ & _ & _ & _ & _ & Hy0 & Hrun0).
  exists blk, w0'. eexists. eexists. split; [exact Einit|].
  split; [exact Hy|]. split; [rewrite Hrun; reflexivity|].
  split; [exact Hy0|]. rewrite Hrun0. reflexivity.
Defined.

(** C2: the block without padding, on a 1x64x50x50 input, prints the sizes
    1x64x48x48 and 1x64x46x46 and then fails at [out += x] with the size
    mismatch 46 against 50 at dimension 3.  For no input at all, of any
    size, does its forward pass return a value: each convolution takes two
    off the height and the width (on an H x W input with room for both
    kernels, for a block of at least one channel, the printed sizes are
    H-2 x W-2 and H-4 x W-4), so the sum with the input cannot be formed. *)
Theorem unpadded_forward_never_returns fs :
  (forall x w,
     shape x = [1; 64; 50; 50] ->
     exists w',
       run_unpadded fs x w = (Raise (RuntimeError_size_mismatch 46 50 3), w') /\
       stdout w' =
         stdout w ++
         [PrintLabelledSize "shape after first weight layer:" [1; 64; 48; 48];
          PrintLabelledSize "shape after second weight layer:" [1; 64; 46; 46]]) /\
  (forall C w0,
     exists blk w0',
       BuildingBlock_init_unpadded fs C w0 = (Ok blk, w0') /\
       (forall x w y w', forward fs blk x w <> (Ok y, w')) /\
       (forall x w B H W,
          1 <= C -> shape x = [B; C; H; W] -> 6 <= H -> 6 <= W ->
          forward fs blk x w =
            (Raise (RuntimeError_size_mismatch (W - 4) W 3),
             mkWorld (stdout w ++
                        [PrintLabelledSize "shape after first weight layer:"
                           [B; C; H - 2; W - 2];
                         PrintLabelledSize "shape after second weight layer:"
                           [B; C; H - 4; W - 4]])
                     (rng w)))).
Proof.
  split.
  - intros x w Hx. unfold run_unpadded.
    destruct (BuildingBlock_init_unpadded_configured fs NUM_CHANNELS w)
      as (blk & w1 & Einit & Hcfg & Hw1).
    unfold bind at 1. rewrite Einit.
    rewrite (unpadded_forward_trace fs blk 64 x w1 1 50 50 Hcfg)
      by (exact Hx || lia).
    eexists. split; [reflexivity|]. cbn [stdout]. rewrite Hw1. reflexivity.
  - intros C w0.
    destruct (BuildingBlock_init_unpadded_configured fs C w0)
      as (blk & w0' & Einit & Hcfg & _).
    exists blk, w0'. split; [exact Einit|]. split.
    + intros x w. apply (unpadded_forward_raises fs blk C x w Hcfg).
    + intros x w B H W HC Hx HH HW.
      apply (unpadded_forward_trace fs blk C x w B H W Hcfg HC Hx HH HW).
Qed.

Lemma unpadded_forward_never_returns_witness :
  shape zeros_1_64_50_50 = [1; 64; 50; 50] /\
  (exists w',
     run_unpadded sample_sqrt zeros_1_64_50_50 sample_world
     = (Raise (RuntimeError_size_mismatch 46 50 3), w') /\
     stdout w' =
       [PrintLabelledSize "shape after first weight layer:" [1; 64; 48; 48];
        PrintLabelledSize "shape after second weight layer:" [1; 64; 46; 46]]) /\
  shape (full [2; 1; 6; 7] 1%Q) = [2; 1; 6; 7] /\ 6 <= 6 /\ 6 <= 7 /\
  exists blk w0',
    BuildingBlock_init_unpadded sample_sqrt 1 sample_world = (Ok blk, w0') /\
    fst (forward sample_sqrt blk (full [2; 1; 6; 7] 1%Q) w0')
    = Raise (RuntimeError_size_mismatch 3 7 3).
Proof.
  split; [reflexivity|].
  destruct (unpadded_forward_never_returns sample_sqrt) as [Hrun Hany].
  split.
  { destruct (Hrun zeros_1_64_50_50 sample_world eq_refl) as (w' & E & Hout).
    exists w'. split; [exact E | exact Hout]. }
  assert (H6 : 6 <= 6) by (apply Nat.leb_le; reflexivity).
  assert (H7 : 6 <= 7) by (apply Nat.leb_le; reflexivity).
  split; [reflexivity|]. split; [exact H6|]. split; [exact H7|].
  destruct (Hany 1 sample_world) as (blk & w0' & Einit & _ & Htrace).
  exists blk, w0'. split; [exact Einit|].
  assert (H1 : 1 <= 1) by (apply Nat.leb_le; reflexivity).
  rewrite (Htrace (full [2; 1; 6; 7] 1%Q) w0' 2 6 7 H1 eq_refl H6 H7).
  reflexivity.
Defined.

End Demo05Facts.

(* ================================================================== *)
(** * The implicit-regularization notebook                             *)
(* ================================================================== *)

Module ImplicitRegFacts.
Import Torch TorchFacts ImplicitReg.

(** ** Slices of the frame *)

Lemma py_slice_length {A} (l : list A) a b :
  length (py_slice l a b) = Nat.min (b - a) (length l - a).
Proof. unfold py_slice. now rewrite length_firstn, length_skipn. Qed.

Lemma py_slice_incl {A} (l : list A) a b : incl (py_slice l a b) l.
Proof.
  unfold py_slice. intros x Hx.
  rewrite <- (firstn_skipn a l). apply in_or_app. right.
  rewrite <- (firstn_skipn (b - a) (skipn a l)). apply in_or_app. now left.
Qed.

(** ** The dataset *)

Lemma numbers_ok l :
  forallb is_num l = true -> exists qs, numbers l = Ok qs /\ map PyNum qs = l.
Proof.
  induction l as [|v l IH]; simpl; intros H.
  - exists []. split; reflexivity.
  - apply andb_prop in H. destruct H as [Hv Hl].
    destruct v as [s|q]; [discriminate|].
    destruct (IH Hl) as (qs & E & Hq). rewrite E. simpl.
    exists (q :: qs). split; [reflexivity|]. simpl. now rewrite Hq.
Qed.

Example getitem_male :
  AbaloneData_getitem (mkAbaloneData sample_frame) 0
  = Ok (mkTensor [8] [0; 1 # 2; 1 # 4; 1 # 8; 1; 1 # 2; 1 # 4; 1 # 4]%Q,
        mkTensor [] [3%Q]).
Proof. reflexivity. Qed.

Example getitem_infant :
  AbaloneData_getitem (mkAbaloneData sample_frame) 2
  = Ok (mkTensor [8] [1; 1 # 4; 1 # 4; 1 # 8; 1; 1 # 2; 1 # 4; 1 # 4]%Q,
        mkTensor [] [1%Q]).
Proof. reflexivity. Qed.

Example getitem_out_of_range :
  AbaloneData_getitem (mkAbaloneData sample_frame) 3 = Raise IndexError.
Proof. reflexivity. Qed.

Example sweep_widths :
  py_range 1 250 20 = [1; 21; 41; 61; 81; 101; 121; 141; 161; 181; 201; 221; 241].
Proof. reflexivity. Qed.

Example chunks_of_ten : chunks 3 (seq 0 10) = [[0; 1; 2]; [3; 4; 5]; [6; 7; 8]; [9]].
Proof. reflexivity. Qed.

(** A row with the expected layout, taken apart. *)
Lemma row_layout_inv row :
  row_layout row = true ->
  exists sex qs y,
    row = PyStr sex :: map PyNum qs ++ [PyNum y] /\ length qs = 7.
Proof.
  destruct row as [|v rest]; simpl; [discriminate|]. intros H.
  apply andb_prop in H. destruct H as [H Hnum].
  apply andb_prop in H. destruct H as [Hstr Hlen].
  destruct v as [sex|q]; [|discriminate]. apply Nat.eqb_eq in Hlen.
  destruct (numbers_ok rest Hnum) as (qs & _ & Hqs).
  assert (Hl : length qs = 8) by (rewrite <- Hlen, <- Hqs, length_map; reflexivity).
  destruct (exists_last (l := qs)) as (qs' & y & ->);
    [intros ->; discriminate|].
  exists sex, qs', y. rewrite length_app in Hl. simpl in Hl.
  split; [|lia]. rewrite <- Hqs, map_app. reflexivity.
Qed.

Lemma numbers_map_PyNum qs : numbers (map PyNum qs) = Ok qs.
Proof. induction qs as [|q qs IH]; simpl; [reflexivity|]. now rewrite IH. Qed.

(** [__getitem__] on a row with the expected layout. *)
Lemma getitem_row ds idx sex qs y :
  nth_error (ds_data ds) idx = Some (PyStr sex :: map PyNum qs ++ [PyNum y]) ->
  length qs = 7 ->
  AbaloneData_getitem ds idx =
    Ok (mkTensor [8] ((if String.eqb sex "M" then 0%Q else 1%Q) :: qs),
        mkTensor [] [y]).
Proof.
  intros Hrow Hlen. unfold AbaloneData_getitem, py_index. rewrite Hrow.
  cbn [rbind].
  change (nth_error (PyStr sex :: map PyNum qs ++ [PyNum y]) 0)
    with (Some (PyStr sex)).
  cbn [rbind]. unfold py_slice.
  change (skipn 1 (PyStr sex :: map PyNum qs ++ [PyNum y]))
    with (map PyNum qs ++ [PyNum y]).
  change (8 - 1) with 7.
  assert (Hf : firstn 7 (map PyNum qs ++ [PyNum y]) = map PyNum qs).
  { rewrite firstn_app, length_map, Hlen, Nat.sub_diag, firstn_O, app_nil_r.
    apply firstn_all2. rewrite length_map. lia. }
  rewrite Hf.
  assert (H8 : nth_error (PyStr sex :: map PyNum qs ++ [PyNum y]) 8 = Some (PyNum y)).
  { change (nth_error (map PyNum qs ++ [PyNum y]) 7 = Some (PyNum y)).
    rewrite nth_error_app2 by (rewrite length_map; lia).
    rewrite length_map, Hlen. reflexivity. }
  rewrite H8. cbn [rbind eq_str]. unfold tensor_of_list.
  destruct (String.eqb sex "M"); cbn [app numbers]; rewrite numbers_map_PyNum;
    cbn [rbind tensor_of_value length]; rewrite Hlen; reflexivity.
Qed.

Lemma mapR_getitem_ok ds idxs :
  rows_ok ds idxs ->
  exists samples,
    mapR (AbaloneData_getitem ds) idxs = Ok samples /\
    length samples = length idxs /\
    Forall (fun p => has_shape (fst p) [8] /\ has_shape (snd p) []) samples.
Proof.
  induction 1 as [|i idxs (row & Hrow & Hlay) _ IH]; simpl.
  - exists []. repeat split. constructor.
  - destruct (row_layout_inv row Hlay) as (sex & qs & y & -> & Hlen).
    rewrite (getitem_row ds i sex qs y Hrow Hlen).
    destruct IH as (samples & E & Hl & Hall). rewrite E. cbn [rbind].
    eexists. split; [reflexivity|]. split; [simpl; lia|].
    constructor; [|exact Hall]. cbn [fst snd]. split; split; try reflexivity.
    cbn [data length numel_of fold_right]. lia.
Qed.

Lemma stack_ok ts s :
  ts <> [] -> Forall (fun t => has_shape t s) ts ->
  exists t, stack ts = Ok t /\ has_shape t (length ts :: s) /\
            data t = concat (map data ts).
Proof.
  intros Hne Hall. unfold stack. destruct ts as [|t0 ts']; [congruence|].
  assert (Hs0 : shape t0 = s) by (inversion Hall as [|? ? [? ?] ?]; assumption).
  replace (forallb (fun t => list_eqb (shape t) (shape t0)) (t0 :: ts')) with true.
  - eexists. split; [reflexivity|]. split; [|reflexivity].
    split; [cbn [shape]; now rewrite Hs0|]. cbn [data].
    clear Hne Hs0. induction Hall as [|t ts [_ Hl] _ IH]; [reflexivity|].
    cbn [map concat length]. rewrite length_app, Hl, IH.
    unfold numel_of. simpl. lia.
  - symmetry. apply forallb_forall. intros t Ht.
    rewrite Forall_forall in Hall. destruct (Hall t Ht) as [-> _].
    rewrite Hs0. apply list_eqb_refl.
Qed.

(** A non-empty batch of well-laid-out rows is fetched and stacked into
    features of size (batch, 8) and labels of size (batch). *)
Lemma fetch_ok ds idxs :
  idxs <> [] -> rows_ok ds idxs ->
  exists x y, fetch ds idxs = Ok (x, y) /\
    has_shape x [length idxs; 8] /\ has_shape y [length idxs].
Proof.
  intros Hne Hrows. unfold fetch.
  destruct (mapR_getitem_ok ds idxs Hrows) as (samples & E & Hl & Hall).
  rewrite E. cbn [rbind].
  assert (Hsne : samples <> []) by (destruct samples, idxs; simpl in *; congruence).
  destruct (stack_ok (map fst samples) [8]) as (x & Ex & Hx & _).
  { destruct samples; simpl; congruence. }
  { apply Forall_map. eapply Forall_impl; [|exact Hall]. intros p [H _]. exact H. }
  destruct (stack_ok (map snd samples) []) as (y & Ey & Hy & _).
  { destruct samples; simpl; congruence. }
  { apply Forall_map. eapply Forall_impl; [|exact Hall]. intros p [_ H]. exact H. }
  rewrite Ex, Ey. cbn [rbind]. exists x, y. split; [reflexivity|].
  rewrite length_map, Hl in Hx, Hy. split; assumption.
Qed.

Lemma numbers_length l qs : numbers l = Ok qs -> length qs = length l.
Proof.
  revert qs. induction l as [|v l IH]; intros qs; simpl.
  - intros E. injection E as <-. reflexivity.
  - destruct v as [s|q]; [discriminate|].
    destruct (numbers l) as [qs'|e]; simpl; [|discriminate].
    intros E. injection E as <-. simpl. now rewrite (IH qs').
Qed.

(** Whatever the row, a sample that [__getitem__] returns has 8 features
    and a scalar label. *)
Lemma getitem_inv ds idx x y :
  AbaloneData_getitem ds idx = Ok (x, y) -> has_shape x [8] /\ has_shape y [].
Proof.
  unfold AbaloneData_getitem, py_index.
  destruct (nth_error (ds_data ds) idx) as [row|]; cbn [rbind]; [|discriminate].
  destruct (nth_error row 0) as [row0|]; cbn [rbind]; [|discriminate].
  destruct (nth_error row 8) as [v8|] eqn:E8; cbn [rbind]; [|discriminate].
  unfold tensor_of_list.
  destruct (numbers _) as [qs|e] eqn:Eq; cbn [rbind]; [|discriminate].
  destruct v8 as [s|q]; cbn [tensor_of_value rbind]; [discriminate|].
  intros E. injection E as <- <-.
  apply numbers_length in Eq.
  assert (Hrow : 8 < length row) by (apply nth_error_Some; congruence).
  rewrite length_app, py_slice_length in Eq. cbn [length] in Eq.
  assert (Hq : length qs = 8) by lia. clear Eq.
  unfold has_shape. cbn [shape data length]. rewrite Hq.
  repeat split.
Qed.

Lemma mapR_getitem_inv ds idxs samples :
  mapR (AbaloneData_getitem ds) idxs = Ok samples ->
  length samples = length idxs /\
  Forall (fun p => has_shape (fst p) [8] /\ has_shape (snd p) []) samples.
Proof.
  revert samples. induction idxs as [|i idxs IH]; intros samples; simpl.
  - intros E. injection E as <-. split; [reflexivity | constructor].
  - destruct (AbaloneData_getitem ds i) as [[x y]|e] eqn:Eg; cbn [rbind];
      [|discriminate].
    destruct (mapR _ idxs) as [ss|e]; cbn [rbind]; [|discriminate].
    intros E. injection E as <-. destruct (IH ss eq_refl) as [Hl Hall].
    split; [simpl; lia|]. constructor; [|exact Hall].
    apply (getitem_inv ds i x y Eg).
Qed.

(** A fetched batch has features of size (batch, 8) and labels of size
    (batch), whatever the rows were. *)
Lemma fetch_inv ds idxs x y :
  fetch ds idxs = Ok (x, y) ->
  has_shape x [length idxs; 8] /\ has_shape y [length idxs].
Proof.
  unfold fetch.
  destruct (mapR _ idxs) as [samples|e] eqn:Em; cbn [rbind]; [|discriminate].
  destruct (mapR_getitem_inv ds idxs samples Em) as [Hl Hall].
  destruct (stack (map fst samples)) as [x'|e] eqn:Ex; cbn [rbind]; [|discriminate].
  destruct (stack (map snd samples)) as [y'|e] eqn:Ey; cbn [rbind]; [|discriminate].
  intros E. injection E as <- <-.
  assert (Hne : samples <> []) by (intros ->; discriminate).
  destruct (stack_ok (map fst samples) [8]) as (x0 & Ex0 & Hx & _).
  { destruct samples; simpl; congruence. }
  { apply Forall_map. eapply Forall_impl; [|exact Hall]. intros p [H _]. exact H. }
  destruct (stack_ok (map snd samples) []) as (y0 & Ey0 & Hy & _).
  { destruct samples; simpl; congruence. }
  { apply Forall_map. eapply Forall_impl; [|exact Hall]. intros p [_ H]. exact H. }
  rewrite Ex in Ex0. rewrite Ey in Ey0. injection Ex0 as <-. injection Ey0 as <-.
  rewrite length_map, Hl in Hx, Hy. split; assumption.
Qed.

(** ** The model *)

Lemma nth_map_seq (g : nat -> Q) n j d : j < n -> nth j (map g (seq 0 n)) d = g j.
Proof.
  intros Hj. rewrite (nth_indep _ d (g 0)) by (now rewrite length_map, length_seq).
  rewrite (map_nth g (seq 0 n) 0 j). now rewrite seq_nth.
Qed.

(** Reading a row-major table back: element [j] of row [r]. *)
Lemma nth_table (f : nat -> nat -> Q) W n a r j d :
  r < n -> j < W ->
  nth (r * W + j) (flat_map (fun r => map (f r) (seq 0 W)) (seq a n)) d
  = f (a + r) j.
Proof.
  revert a r. induction n as [|n IH]; intros a r Hr Hj; [lia|].
  cbn [seq flat_map]. destruct r as [|r].
  - rewrite app_nth1 by (now rewrite length_map, length_seq).
    rewrite Nat.add_0_r. now apply nth_map_seq.
  - rewrite app_nth2 by (rewrite length_map, length_seq; simpl; lia).
    rewrite length_map, length_seq.
    replace (S r * W + j - W) with (r * W + j) by (simpl; lia).
    rewrite IH by lia. f_equal. lia.
Qed.

Lemma flat_map_singleton {A B} (g : A -> B) (l : list A) :
  flat_map (fun a => [g a]) l = map g l.
Proof. induction l as [|a l IH]; simpl; [reflexivity|]. now rewrite IH. Qed.

Lemma sum_upto_ext n f g :
  (forall k, k < n -> f k = g k) -> sum_upto n f = sum_upto n g.
Proof.
  intros H. unfold sum_upto. f_equal. apply map_ext_in.
  intros k Hk. apply in_seq in Hk. apply H. lia.
Qed.

Lemma item_relu t i : item (relu t) i = relu_scalar (item t i).
Proof. unfold item, relu. cbn [data]. exact (map_nth relu_scalar (data t) 0%Q i). Qed.

(** A bias-free linear layer on a 2-D input. *)
Lemma Linear_forward_2d m x n outf inf :
  shape (weight m) = [outf; inf] -> bias m = None -> shape x = [n; inf] ->
  Linear_forward m x =
    Ok (mkTensor [n; outf]
          (flat_map (fun r =>
             map (fun o =>
                    sum_upto inf (fun k =>
                      item x (r * inf + k) * item (weight m) (o * inf + k))%Q)
                 (seq 0 outf))
             (seq 0 n))).
Proof.
  intros Hw Hb Hx. unfold Linear_forward, add_bias. rewrite Hw, Hx, Hb.
  cbn [rev app]. rewrite Nat.eqb_refl.
  replace (numel_of [n]) with n by (unfold numel_of; simpl; lia).
  reflexivity.
Qed.

(** The network computes [two_layer_net]: two bias-free linear maps, a
    ReLU after each. *)
Lemma forward_two_layer W m w1 w2 x n :
  two_layer W m w1 w2 -> shape x = [n; 8] ->
  Model_forward m x = Ok (two_layer_net W w1 w2 x n).
Proof.
  intros (Hl & [Hs1 _] & [Hs2 _]) Hx. unfold Model_forward. rewrite Hl.
  cbn [Sequential_forward Layer_forward].
  rewrite (Linear_forward_2d _ x n W 8) by (cbn [weight bias]; auto).
  cbn [rbind weight].
  rewrite (Linear_forward_2d _ _ n 1 W) by (cbn [weight bias relu shape]; auto).
  cbn [rbind weight]. unfold two_layer_net, relu at 1. cbn [shape data].
  do 2 f_equal. cbn [seq map]. rewrite flat_map_singleton, map_map.
  apply map_ext_in. intros r Hr. apply in_seq in Hr. f_equal.
  unfold pre_activation. apply sum_upto_ext. intros j Hj.
  rewrite item_relu. unfold item at 1. cbn [data].
  rewrite (nth_table (fun r o => sum_upto 8 (fun k =>
             item x (r * 8 + k) * item w1 (o * 8 + k))%Q) W n 0 r j) by lia.
  reflexivity.
Qed.

Lemma two_layer_net_has_shape W w1 w2 x n :
  has_shape (two_layer_net W w1 w2 x n) [n; 1].
Proof.
  split; [reflexivity|]. unfold two_layer_net. cbn [data].
  rewrite length_map, length_seq. unfold numel_of. simpl. lia.
Qed.

(** ** The loss *)

Lemma squeeze_column_shape t n :
  shape t = [n; 1] -> shape (squeeze t) = if n =? 1 then [] else [n].
Proof.
  intros H. unfold squeeze. cbn [shape]. rewrite H. cbn [filter].
  rewrite Nat.eqb_refl. cbn [negb]. destruct (n =? 1); reflexivity.
Qed.

(** On a column of [n] predictions and [n] targets the loss is the mean of
    the squared differences. *)
Lemma MSELoss_column out y n :
  has_shape out [n; 1] -> has_shape y [n] -> 1 <= n ->
  MSELoss (squeeze out) y =
    Ok (mkTensor [] [mean_squared_error (data out) (data y)]).
Proof.
  intros [Hso Hlo] [Hsy Hly] Hn. unfold MSELoss, mean_squared_error.
  rewrite (squeeze_column_shape out n Hso), Hsy.
  destruct (Nat.eq_dec n 1) as [->|Hne].
  - cbn [Nat.eqb].
    change (infer_size [] [1]) with (@Ok (list nat) [1]). cbv iota.
    rewrite (expand_has_shape y [1]) by (split; assumption).
    destruct (data out) as [|v [|v' l]] eqn:Ed; try discriminate.
    unfold expand, tabulate, squeeze. cbn [shape data]. rewrite Ed, Hly, Hso.
    reflexivity.
  - assert (Hlo' : length (data out) = n)
      by (rewrite Hlo; unfold numel_of; simpl; lia).
    assert (Hly' : length (data y) = n)
      by (rewrite Hly; unfold numel_of; simpl; lia).
    replace (n =? 1) with false by (symmetry; now apply Nat.eqb_neq).
    rewrite infer_size_refl.
    assert (Hsq : shape (squeeze out) = [n]).
    { rewrite (squeeze_column_shape out n Hso).
      replace (n =? 1) with false by (symmetry; now apply Nat.eqb_neq).
      reflexivity. }
    rewrite (expand_has_shape (squeeze out) [n])
      by (split; [exact Hsq | cbn [squeeze data]; rewrite Hlo';
                              unfold numel_of; simpl; lia]).
    rewrite (expand_has_shape y [n]) by (split; assumption).
    cbn [squeeze data]. rewrite Hly'.
    replace (numel_of [n]) with n by (unfold numel_of; simpl; lia).
    reflexivity.
Qed.

Lemma MSELoss_backward_ok a b l :
  MSELoss a b = Ok l -> exists g, MSELoss_backward a b = Ok g.
Proof.
  unfold MSELoss, MSELoss_backward.
  destruct (infer_size (shape a) (shape b)); [|discriminate].
  intros _. eexists. reflexivity.
Qed.

(** ** Gradients and the SGD step *)

Lemma Linear_backward_shape m x gy outf inf :
  shape (weight m) = [outf; inf] -> bias m = None ->
  exists gw gx,
    Linear_backward m x gy = (gw, None, gx) /\ has_shape gw [outf; inf].
Proof.
  intros Hw Hb. unfold Linear_backward. rewrite Hw, Hb.
  eexists. eexists. split; [reflexivity|]. split; [reflexivity|].
  cbn [data]. rewrite (flat_map_length_const _ _ inf).
  - rewrite length_seq. unfold numel_of. simpl. lia.
  - intros o. now rewrite length_map, length_seq.
Qed.

(** Differentiation succeeds whenever the forward pass and the seed do. *)
Lemma Sequential_backward_ok ls x out seed g :
  Sequential_forward ls x = Ok out -> seed out = Ok g ->
  exists r, Sequential_backward ls x seed = Ok r.
Proof.
  revert x. induction ls as [|l ls IH]; intros x Hf Hs; simpl in *.
  - injection Hf as ->. rewrite Hs. eexists. reflexivity.
  - destruct (Layer_forward l x) as [y|e]; simpl in *; [|discriminate].
    destruct (IH y Hf Hs) as ([gs gy] & E). rewrite E. simpl.
    destruct l as [m|].
    + destruct (Linear_backward m x gy) as [[gw gb] gx]. eexists. reflexivity.
    + eexists. reflexivity.
Qed.

(** The gradients of a two-layer model: one per linear layer, of the size
    of its weight. *)
Lemma backward_two_layer W m w1 w2 x seed gs gx :
  two_layer W m w1 w2 ->
  Sequential_backward (layers m) x seed = Ok (gs, gx) ->
  exists gw1 gw2,
    gs = [Some (gw1, None); None; Some (gw2, None); None] /\
    has_shape gw1 [W; 8] /\ has_shape gw2 [1; W].
Proof.
  intros (Hl & [Hs1 _] & [Hs2 _]). rewrite Hl.
  cbn [Sequential_backward Layer_forward].
  destruct (Linear_forward _ x) as [y1|e]; cbn [rbind]; [|discriminate].
  destruct (Linear_forward _ (relu y1)) as [y2|e]; cbn [rbind]; [|discriminate].
  destruct (seed (relu y2)) as [g|e]; cbn [rbind]; [|discriminate].
  destruct (Linear_backward_shape (mkLinear w2 None) (relu y1)
              (relu_backward y2 g) 1 W Hs2 eq_refl) as (gw2 & gx2 & E2 & H2).
  rewrite E2. cbn [rbind].
  destruct (Linear_backward_shape (mkLinear w1 None) x
              (relu_backward y1 gx2) W 8 Hs1 eq_refl) as (gw1 & gx1 & E1 & H1).
  rewrite E1. intros E. injection E as <- _.
  exists gw1, gw2. repeat split; try apply H1; try apply H2.
Qed.

Lemma sgd_update_has_shape lr p g s :
  has_shape p s -> has_shape g s -> has_shape (sgd_update lr p g) s.
Proof.
  intros [Hp Hlp] [Hg Hlg]. split; [exact Hp|]. unfold sgd_update. cbn [data].
  rewrite map2_length, Hlp, Hlg. apply Nat.min_id.
Qed.

Lemma SGD_step_two_layer lr W m w1 w2 gw1 gw2 :
  two_layer W m w1 w2 -> has_shape gw1 [W; 8] -> has_shape gw2 [1; W] ->
  two_layer W (SGD_step lr m [Some (gw1, None); None; Some (gw2, None); None])
    (sgd_update lr w1 gw1) (sgd_update lr w2 gw2).
Proof.
  intros (Hl & H1 & H2) G1 G2. unfold two_layer, SGD_step. rewrite Hl.
  split; [reflexivity|]. split; apply sgd_update_has_shape; assumption.
Qed.

(** A training step keeps the architecture. *)
Lemma train_step_two_layer lr W m w1 w2 x y m' l :
  two_layer W m w1 w2 -> train_step lr m x y = Ok (m', l) ->
  exists w1' w2', two_layer W m' w1' w2'.
Proof.
  intros Hm. unfold train_step.
  destruct (Model_forward m x) as [out|e]; cbn [rbind]; [|discriminate].
  destruct (MSELoss (squeeze out) y) as [loss|e]; cbn [rbind]; [|discriminate].
  destruct (Sequential_backward _ _ _) as [[gs gx]|e] eqn:Eb; cbn [rbind];
    [|discriminate].
  intros E. injection E as <- _. cbn [fst].
  destruct (backward_two_layer W m w1 w2 x _ gs gx Hm Eb)
    as (gw1 & gw2 & -> & G1 & G2).
  eexists. eexists. apply SGD_step_two_layer; eassumption.
Qed.

(** What a training step does: forward pass, loss, gradients, and every
    weight [p] replaced by [p - lr * gradient]. *)
Lemma train_step_inv lr W m w1 w2 x y m' l :
  two_layer W m w1 w2 -> train_step lr m x y = Ok (m', l) ->
  exists out loss g1 g2,
    Model_forward m x = Ok out /\ MSELoss (squeeze out) y = Ok loss /\
    l = item0 loss /\
    has_shape g1 [W; 8] /\ has_shape g2 [1; W] /\
    two_layer W m' (sgd_update lr w1 g1) (sgd_update lr w2 g2).
Proof.
  intros Hm. unfold train_step.
  destruct (Model_forward m x) as [out|e] eqn:Eo; cbn [rbind]; [|discriminate].
  destruct (MSELoss (squeeze out) y) as [loss|e] eqn:El; cbn [rbind];
    [|discriminate].
  destruct (Sequential_backward _ _ _) as [[gs gx]|e] eqn:Eb; cbn [rbind];
    [|discriminate].
  intros E. injection E as <- <-. cbn [fst].
  destruct (backward_two_layer W m w1 w2 x _ gs gx Hm Eb)
    as (gw1 & gw2 & -> & G1 & G2).
  exists out, loss, gw1, gw2.
  split; [reflexivity|]. split; [exact El|]. split; [reflexivity|].
  split; [exact G1|]. split; [exact G2|].
  apply SGD_step_two_layer; assumption.
Qed.

(** On a batch of [n >= 1] samples a training step goes through. *)
Lemma train_step_ok lr W m w1 w2 x y n :
  two_layer W m w1 w2 -> has_shape x [n; 8] -> has_shape y [n] -> 1 <= n ->
  exists m' l, train_step lr m x y = Ok (m', l).
Proof.
  intros Hm [Hx _] Hy Hn. unfold train_step.
  pose proof (forward_two_layer W m w1 w2 x n Hm Hx) as Ef.
  rewrite Ef. cbn [rbind].
  pose proof (MSELoss_column _ y n (two_layer_net_has_shape W w1 w2 x n) Hy Hn)
    as El.
  rewrite El. cbn [rbind].
  destruct (MSELoss_backward_ok _ _ _ El) as (g & Eg).
  destruct (Sequential_backward_ok (layers m) x _
              (fun o => rbind (MSELoss_backward (squeeze o) y)
                          (fun g => Ok (squeeze_backward o g)))
              (squeeze_backward (two_layer_net W w1 w2 x n) g) Ef)
    as (r & Er).
  { rewrite Eg. reflexivity. }
  rewrite Er. cbn [rbind]. eexists. eexists. reflexivity.
Qed.

(** ** The gradient step in closed form *)

Lemma nth_map2 f (a b : list Q) i :
  i < length a -> i < length b ->
  nth i (map2 f a b) 0%Q = f (nth i a 0%Q) (nth i b 0%Q).
Proof.
  unfold map2. revert b i. induction a as [|u a IH]; intros b i Ha Hb.
  - simpl in Ha. lia.
  - destruct b as [|v b]; [simpl in Hb; lia|].
    destruct i as [|i]; [reflexivity|]. cbn [combine map nth].
    apply IH; simpl in *; lia.
Qed.

Lemma item_relu_backward t g i :
  i < length (data t) -> i < length (data g) ->
  item (relu_backward t g) i = if Qle_bool (item t i) 0 then 0%Q else item g i.
Proof.
  intros Ht Hg. unfold item, relu_backward. cbn [data].
  now rewrite nth_map2.
Qed.

Lemma item_sgd_update lr p g i :
  i < length (data p) -> i < length (data g) ->
  item (sgd_update lr p g) i = (item p i - lr * item g i)%Q.
Proof.
  intros Hp Hg. unfold item, sgd_update. cbn [data]. now rewrite nth_map2.
Qed.

Lemma sum_upto_Qeq_in n f g :
  (forall k, k < n -> (f k == g k)%Q) -> (sum_upto n f == sum_upto n g)%Q.
Proof.
  intros H. unfold sum_upto.
  assert (Hin : forall k, In k (seq 0 n) -> (f k == g k)%Q).
  { intros k Hk. apply in_seq in Hk. apply H. lia. }
  induction (seq 0 n) as [|k ks IH]; cbn [map sumQ fold_right]; [reflexivity|].
  fold (sumQ (map f ks)). fold (sumQ (map g ks)).
  rewrite IH by (intros j Hj; apply Hin; now right).
  rewrite (Hin k) by now left. reflexivity.
Qed.

Lemma sum_indicator (f : nat -> Q) i a n :
  (sumQ (map (fun k => if k =? i then f k else 0%Q) (seq a n))
   == if (a <=? i) && (i <? a + n) then f i else 0)%Q.
Proof.
  revert a. induction n as [|n IH]; intros a.
  - cbn [seq map sumQ fold_right].
    destruct (a <=? i) eqn:E1; cbn [andb]; [|reflexivity].
    apply Nat.leb_le in E1.
    replace (i <? a + 0) with false; [reflexivity|].
    symmetry. apply Nat.ltb_ge. lia.
  - cbn [seq map sumQ fold_right].
    fold (sumQ (map (fun k => if k =? i then f k else 0%Q) (seq (S a) n))).
    rewrite IH. destruct (Nat.eq_dec a i) as [->|Hne].
    + rewrite Nat.eqb_refl.
      replace (S i <=? i) with false by (symmetry; apply Nat.leb_gt; lia).
      replace (i <=? i) with true by (symmetry; apply Nat.leb_le; lia).
      replace (i <? i + S n) with true by (symmetry; apply Nat.ltb_lt; lia).
      cbn [andb]. ring.
    + replace (a =? i) with false by (symmetry; now apply Nat.eqb_neq).
      destruct (a <=? i) eqn:E1.
      * apply Nat.leb_le in E1.
        replace (S a <=? i) with true by (symmetry; apply Nat.leb_le; lia).
        replace (S a + n) with (a + S n) by lia. ring.
      * apply Nat.leb_gt in E1.
        replace (S a <=? i) with false by (symmetry; apply Nat.leb_gt; lia).
        cbn [andb]. ring.
Qed.

(** The gradient of the loss with respect to a column of [n] predictions:
    [2 (out_i - y_i) / n] at position [i]. *)
Lemma MSELoss_backward_column out y n :
  has_shape out [n; 1] -> has_shape y [n] -> 1 <= n ->
  exists g,
    MSELoss_backward (squeeze out) y = Ok g /\ length (data g) = n /\
    forall i, i < n ->
      (item g i == 2 * (item out i - item y i) / Q_of_nat n)%Q.
Proof.
  intros [Hso Hlo] [Hsy Hly] Hn. unfold MSELoss_backward.
  rewrite (squeeze_column_shape out n Hso), Hsy.
  assert (Hlo' : length (data out) = n)
    by (rewrite Hlo; unfold numel_of; simpl; lia).
  assert (Hly' : length (data y) = n)
    by (rewrite Hly; unfold numel_of; simpl; lia).
  destruct (Nat.eq_dec n 1) as [->|Hne].
  - cbn [Nat.eqb].
    change (infer_size [] [1]) with (@Ok (list nat) [1]). cbv iota.
    rewrite (expand_has_shape y [1]) by (split; assumption).
    destruct (data out) as [|v [|v' l]] eqn:Ed; try discriminate.
    destruct (data y) as [|t [|t' l']] eqn:Ey; try discriminate.
    unfold expand, tabulate, squeeze, numel. cbn [shape data]. rewrite Ed, Hso.
    eexists. split; [reflexivity|]. split; [reflexivity|].
    intros i Hi. assert (i = 0) by lia. subst i.
    unfold item. cbn. rewrite Ed, Ey. cbn [nth]. unfold Qdiv. ring.
  - replace (n =? 1) with false by (symmetry; now apply Nat.eqb_neq).
    rewrite infer_size_refl.
    assert (Hsq : shape (squeeze out) = [n]).
    { rewrite (squeeze_column_shape out n Hso).
      replace (n =? 1) with false by (symmetry; now apply Nat.eqb_neq).
      reflexivity. }
    rewrite (expand_has_shape (squeeze out) [n])
      by (split; [exact Hsq | cbn [squeeze data]; rewrite Hlo';
                              unfold numel_of; simpl; lia]).
    rewrite (expand_has_shape y [n]) by (split; assumption).
    unfold numel. rewrite Hsq.
    replace (numel_of [n]) with n by (unfold numel_of; simpl; lia).
    eexists. split; [reflexivity|]. cbn [data].
    split; [now rewrite length_map, length_seq|].
    intros i Hi. unfold item at 1. cbn [data]. rewrite nth_map_seq by exact Hi.
    rewrite (map_ext_in
               (fun k => if ravel [n] (expand_index [n] (unravel [n] k)) =? i
                         then nth k (map2 (fun u v => 2 * (u - v) / Q_of_nat n)
                                       (data (squeeze out)) (data y)) 0
                         else 0)%Q
               (fun k => if k =? i
                         then nth k (map2 (fun u v => 2 * (u - v) / Q_of_nat n)
                                       (data (squeeze out)) (data y)) 0
                         else 0)%Q).
    + rewrite sum_indicator. cbn [Nat.leb andb Nat.add].
      replace (i <? n) with true by (symmetry; now apply Nat.ltb_lt).
      rewrite nth_map2 by (cbn [squeeze data]; lia).
      reflexivity.
    + intros k Hk. apply in_seq in Hk.
      replace (ravel [n] (expand_index [n] (unravel [n] k))) with k; [reflexivity|].
      unfold expand_index, unravel, ravel. cbn [length Nat.sub skipn combine map fst snd numel_of fold_right].
      replace (n =? 1) with false by (symmetry; now apply Nat.eqb_neq).
      rewrite Nat.div_1_r. lia.
Qed.

Lemma relu_slope_times v g :
  ((if Qle_bool v 0 then 0 else g) == relu_slope v * g)%Q.
Proof. unfold relu_slope. destruct (Qle_bool v 0); ring. Qed.

Lemma first_linear_ok W w1 x n :
  shape w1 = [W; 8] -> shape x = [n; 8] ->
  Linear_forward (mkLinear w1 None) x = Ok (first_linear W w1 x n).
Proof.
  intros H1 Hx.
  now rewrite (Linear_forward_2d _ x n W 8) by (cbn [weight bias]; auto).
Qed.

Lemma item_first_linear W w1 x n r j :
  r < n -> j < W -> item (first_linear W w1 x n) (r * W + j) = hidden_pre w1 x r j.
Proof.
  intros Hr Hj. unfold item, first_linear. cbn [data].
  now rewrite (nth_table (fun r o => hidden_pre w1 x r o) W n 0 r j) by lia.
Qed.

Lemma length_table {A} (f : nat -> nat -> A) W n :
  length (flat_map (fun r => map (f r) (seq 0 W)) (seq 0 n)) = n * W.
Proof.
  rewrite (flat_map_length_const _ _ W).
  - now rewrite length_seq.
  - intros r. now rewrite length_map, length_seq.
Qed.

Lemma second_linear_ok W w1 w2 x n :
  shape w2 = [1; W] ->
  Linear_forward (mkLinear w2 None) (relu (first_linear W w1 x n))
  = Ok (second_linear W w1 w2 x n).
Proof.
  intros H2.
  rewrite (Linear_forward_2d _ _ n 1 W) by (cbn [weight bias relu shape]; auto).
  unfold second_linear. do 2 f_equal. cbn [seq map weight].
  rewrite flat_map_singleton. apply map_ext_in. intros r Hr. apply in_seq in Hr.
  unfold pre_activation. apply sum_upto_ext. intros j Hj.
  rewrite item_relu, item_first_linear by lia. reflexivity.
Qed.

Lemma relu_second_linear W w1 w2 x n :
  relu (second_linear W w1 w2 x n) = two_layer_net W w1 w2 x n.
Proof.
  unfold relu, second_linear, two_layer_net. cbn [shape data].
  now rewrite map_map.
Qed.

Lemma item_second_linear W w1 w2 x n r :
  r < n -> item (second_linear W w1 w2 x n) r = pre_activation W w1 w2 x r.
Proof. intros Hr. unfold item, second_linear. cbn [data]. now apply nth_map_seq. Qed.

Lemma item_two_layer_net W w1 w2 x n r :
  r < n ->
  item (two_layer_net W w1 w2 x n) r = relu_scalar (pre_activation W w1 w2 x r).
Proof. intros Hr. unfold item, two_layer_net. cbn [data]. now apply nth_map_seq. Qed.

(** A training step on [n] samples: the loss is the mean squared error of
    the network's predictions, and every weight moves against the
    gradient of that loss, by [lr] times it. *)
Lemma train_step_descent lr W m w1 w2 x y n :
  two_layer W m w1 w2 -> has_shape x [n; 8] -> has_shape y [n] -> 1 <= n ->
  exists m' v1 v2,
    train_step lr m x y
      = Ok (m', mean_squared_error (data (two_layer_net W w1 w2 x n)) (data y)) /\
    two_layer W m' v1 v2 /\
    descent_step W lr w1 w2 x y n v1 v2.
Proof.
  intros Hm [Hx Hlx] Hy Hn.
  pose proof Hm as (Hl & [Hs1 Hl1] & [Hs2 Hl2]).
  unfold train_step.
  rewrite (forward_two_layer W m w1 w2 x n Hm Hx). cbn [rbind].
  rewrite (MSELoss_column _ y n (two_layer_net_has_shape W w1 w2 x n) Hy Hn).
  cbn [rbind].
  destruct (MSELoss_backward_column _ y n (two_layer_net_has_shape W w1 w2 x n)
              Hy Hn) as (g & Eg & Hlg & Hg).
  rewrite Hl. cbn [Sequential_backward Layer_forward].
  rewrite (first_linear_ok W w1 x n Hs1 Hx). cbn [rbind].
  rewrite (second_linear_ok W w1 w2 x n Hs2). cbn [rbind].
  rewrite relu_second_linear, Eg. cbn [rbind].
  unfold Linear_backward. cbn [weight bias]. rewrite Hs1, Hs2.
  cbn [rbind fst snd relu shape first_linear removelast].
  rewrite Hx. cbn [removelast].
  replace (numel_of [n]) with n by (unfold numel_of; simpl; lia).
  set (g4 := relu_backward (second_linear W w1 w2 x n)
               (squeeze_backward (two_layer_net W w1 w2 x n) g)).
  set (h := relu (first_linear W w1 x n)).
  match goal with
  | |- context [relu_backward (first_linear W w1 x n) ?t] => set (gx3 := t)
  end.
  set (g2 := relu_backward (first_linear W w1 x n) gx3).
  match goal with
  | |- context [Some (?a, None) :: None :: Some (?b, None) :: _] =>
      set (gw1 := a); set (gw2 := b)
  end.
  assert (G1 : has_shape gw1 [W; 8]).
  { split; [reflexivity|]. subst gw1. cbn [data]. rewrite length_table.
    unfold numel_of. simpl. lia. }
  assert (G2 : has_shape gw2 [1; W]).
  { split; [reflexivity|]. subst gw2. cbn [data]. rewrite length_table.
    unfold numel_of. simpl. lia. }
  eexists _, (sgd_update lr w1 gw1), (sgd_update lr w2 gw2).
  split; [reflexivity|].
  split; [apply SGD_step_two_layer; assumption|].
  assert (Hlen1 : length (data w1) = W * 8)
    by (rewrite Hl1; unfold numel_of; simpl; lia).
  assert (Hlen2 : length (data w2) = W)
    by (rewrite Hl2; unfold numel_of; simpl; lia).
  assert (Hg4 : forall r, r < n ->
            (item g4 r == out_slope W w1 w2 x y n r)%Q).
  { intros r Hr. subst g4. rewrite item_relu_backward.
    - rewrite item_second_linear by exact Hr.
      rewrite relu_slope_times. unfold out_slope.
      change (item (squeeze_backward (two_layer_net W w1 w2 x n) g) r)
        with (item g r).
      rewrite (Hg r Hr), item_two_layer_net by exact Hr. reflexivity.
    - unfold second_linear. cbn [data]. now rewrite length_map, length_seq.
    - cbn [squeeze_backward data]. lia. }
  split.
  - intros j k Hj Hk.
    rewrite item_sgd_update.
    2:{ rewrite Hlen1. nia. }
    2:{ subst gw1. cbn [data]. rewrite length_table. nia. }
    assert (E : (item gw1 (j * 8 + k) == grad_w1 W w1 w2 x y n j k)%Q).
    { subst gw1. unfold item at 1. cbn [data].
      rewrite (nth_table (fun o k => sum_upto n (fun r =>
                 item g2 (r * W + o) * item x (r * 8 + k))%Q) 8 W 0 j k)
        by lia.
      cbn [Nat.add]. unfold grad_w1. apply sum_upto_Qeq_in. intros r Hr.
      subst g2. rewrite item_relu_backward.
      - rewrite item_first_linear by lia. rewrite relu_slope_times.
        subst gx3. unfold item at 1. cbn [data].
        rewrite (nth_table (fun r k => sum_upto 1 (fun o =>
                   item g4 (r * 1 + o) * item w2 (o * W + k))%Q) W n 0 r j)
          by lia.
        unfold sum_upto. cbn [seq map sumQ fold_right Nat.add Nat.mul].
        rewrite Nat.mul_1_r, Nat.add_0_r, (Hg4 r Hr). ring.
      - unfold first_linear. cbn [data]. rewrite length_table. nia.
      - subst gx3. cbn [data]. rewrite length_table. nia. }
    now rewrite E.
  - intros j Hj.
    rewrite item_sgd_update.
    2:{ rewrite Hlen2. lia. }
    2:{ subst gw2. cbn [data]. rewrite length_table. lia. }
    assert (E : (item gw2 j == grad_w2 W w1 w2 x y n j)%Q).
    { subst gw2. unfold item at 1. cbn [data].
      replace j with (0 * W + j) at 1 by lia.
      rewrite (nth_table (fun o k => sum_upto n (fun r =>
                 item g4 (r * 1 + o) * item h (r * W + k))%Q) W 1 0 0 j)
        by lia.
      cbn [Nat.add]. unfold grad_w2. apply sum_upto_Qeq_in. intros r Hr.
      rewrite Nat.mul_1_r, Nat.add_0_r, (Hg4 r Hr).
      subst h. rewrite item_relu, item_first_linear by lia. reflexivity. }
    now rewrite E.
Qed.

(** ** Batches and permutations *)

Lemma chunks_fuel_spec fuel bs l :
  0 < bs -> length l <= fuel ->
  concat (chunks_fuel fuel bs l) = l /\
  Forall (fun c => c <> [] /\ incl c l) (chunks_fuel fuel bs l).
Proof.
  intros Hbs. revert l. induction fuel as [|fuel IH]; intros l Hl.
  - destruct l; simpl in *; [|lia]. split; [reflexivity | constructor].
  - destruct l as [|a l']; [split; [reflexivity | constructor]|].
    cbn [chunks_fuel concat].
    destruct (IH (skipn bs (a :: l'))) as [Hc Hall].
    { rewrite length_skipn. cbn [length] in *. lia. }
    rewrite Hc. split; [apply firstn_skipn|].
    constructor.
    + split.
      * destruct bs; [lia|]. simpl. discriminate.
      * intros i Hi. rewrite <- (firstn_skipn bs (a :: l')).
        apply in_or_app. now left.
    + eapply Forall_impl; [|exact Hall]. intros c [Hne Hin]. split; [exact Hne|].
      intros i Hi. rewrite <- (firstn_skipn bs (a :: l')).
      apply in_or_app. right. now apply Hin.
Qed.

Lemma chunks_spec bs l :
  0 < bs ->
  concat (chunks bs l) = l /\ Forall (fun c => c <> [] /\ incl c l) (chunks bs l).
Proof. intros H. apply chunks_fuel_spec; [exact H | apply Nat.le_refl]. Qed.

(** The first batch is the first [bs] indices. *)
Lemma chunks_first bs l :
  l <> [] -> exists rest, chunks bs l = firstn bs l :: rest.
Proof.
  destruct l as [|a l']; [congruence|]. intros _. unfold chunks.
  cbn [length chunks_fuel]. eexists. reflexivity.
Qed.

Lemma firstn_nth_skipn {A} (l : list A) n d :
  n < length l -> l = firstn n l ++ nth n l d :: skipn (S n) l.
Proof.
  revert l. induction n as [|n IH]; intros [|a l] H; simpl in *; try lia.
  - reflexivity.
  - f_equal. apply IH. lia.
Qed.

Lemma draw_raw_eq w :
  draw_raw w = (Ok (random_raw (rng w) (cursor (rng w))),
                mkWorld (stdout w) (advance (rng w) 1)).
Proof. reflexivity. Qed.

(** The shuffle returns a permutation of its input and prints nothing. *)
Lemma fisher_yates_perm n l w :
  length l = n ->
  exists p w', fisher_yates n l w = (Ok p, w') /\ Permutation p l /\
               stdout w' = stdout w.
Proof.
  revert l w. induction n as [|n IH]; intros l w Hl.
  - destruct l; [|discriminate]. exists [], w. repeat split. constructor.
  - destruct l as [|a rest]; [discriminate|]. simpl in Hl.
    injection Hl as Hl. cbn [fisher_yates].
    destruct rest as [|b r] eqn:Er.
    + exists [a], w. repeat split. apply Permutation_refl.
    + rewrite <- Er in *. unfold bind at 1. rewrite draw_raw_eq.
      set (w1 := mkWorld (stdout w) (advance (rng w) 1)).
      set (z := random_raw (rng w) (cursor (rng w)) mod length (a :: rest)).
      assert (Hz : z < S (length rest)).
      { subst z. apply Nat.mod_upper_bound. simpl. lia. }
      destruct z as [|z'].
      * destruct (IH rest w1 Hl) as (tl & w' & E & Hp & Hs).
        unfold bind. rewrite E. exists (a :: tl), w'.
        repeat split; [now constructor | exact Hs].
      * assert (Hz' : z' < length rest) by lia.
        destruct (IH (firstn z' rest ++ a :: skipn (S z') rest) w1)
          as (tl & w' & E & Hp & Hs).
        { rewrite length_app, length_firstn. cbn [length].
          rewrite length_skipn. lia. }
        unfold bind. rewrite E. exists (nth z' rest a :: tl), w'.
        repeat split; [|exact Hs].
        eapply Permutation_trans; [apply perm_skip; exact Hp|].
        eapply Permutation_trans;
          [apply perm_skip; symmetry; apply Permutation_middle|].
        eapply Permutation_trans; [apply perm_swap|].
        apply perm_skip.
        eapply Permutation_trans; [apply Permutation_middle|].
        rewrite <- (firstn_nth_skipn rest z' a Hz'). apply Permutation_refl.
Qed.

(** Iterating over the training loader: the batches cut a permutation of
    all training rows. *)
Lemma train_loader_iter csv w :
  exists perm w1,
    DataLoader_iter (train_loader csv) w
      = (Ok (chunks (batch_size (train_loader csv)) perm), w1) /\
    Permutation perm (seq 0 (AbaloneData_len (dataset (train_loader csv)))) /\
    stdout w1 = stdout w.
Proof.
  unfold DataLoader_iter. cbn [shuffle train_loader].
  destruct (fisher_yates_perm _ (seq 0 (AbaloneData_len
              (dataset (train_loader csv)))) w (length_seq _ _))
    as (perm & w1 & E & Hp & Hs).
  exists perm, w1. split; [|split; assumption].
  unfold bind, randperm. cbn [dataset train_loader] in E |- *. rewrite E.
  reflexivity.
Qed.

Lemma firstn_seq n a len : firstn n (seq a len) = seq a (Nat.min n len).
Proof.
  revert a len. induction n as [|n IH]; intros a [|len]; simpl; try reflexivity.
  now rewrite IH.
Qed.

(** Iterating without shuffling reads the rows in order and leaves the
    world alone. *)
Lemma first_batch_in_order dl w :
  shuffle dl = false -> 0 < AbaloneData_len (dataset dl) ->
  first_batch dl w =
    (fetch (dataset dl)
       (seq 0 (Nat.min (batch_size dl) (AbaloneData_len (dataset dl)))), w).
Proof.
  intros Hs Hn. unfold first_batch, DataLoader_iter. rewrite Hs.
  unfold bind, ret.
  destruct (chunks_first (batch_size dl) (seq 0 (AbaloneData_len (dataset dl))))
    as (rest & E).
  { destruct (AbaloneData_len (dataset dl)); [lia | discriminate]. }
  rewrite E, firstn_seq. reflexivity.
Qed.

Lemma rows_ok_slice csv a b idxs :
  forallb row_layout csv = true ->
  Forall (fun i => i < length (py_slice csv a b)) idxs ->
  rows_ok (mkAbaloneData (py_slice csv a b)) idxs.
Proof.
  intros Hcsv Hall. unfold rows_ok. eapply Forall_impl; [|exact Hall].
  intros i Hi. cbn [ds_data].
  destruct (nth_error (py_slice csv a b) i) as [row|] eqn:E.
  - exists row. split; [reflexivity|].
    rewrite forallb_forall in Hcsv. apply Hcsv.
    apply (py_slice_incl csv a b). eapply nth_error_In. exact E.
  - apply nth_error_None in E. cbv beta in Hi. lia.
Qed.

(** ** The training loops *)

Lemma train_batches_two_layer lr ds W batches :
  forall m tl m' tl' w1 w2,
    two_layer W m w1 w2 ->
    train_batches lr ds batches m tl = Ok (m', tl') ->
    exists w1' w2', two_layer W m' w1' w2'.
Proof.
  induction batches as [|b bs IH]; intros m tl m' tl' w1 w2 Hm; simpl.
  - intros E. injection E as <- _. eauto.
  - destruct (fetch ds b) as [[x y]|e]; cbn [rbind fst snd]; [|discriminate].
    destruct (train_step lr m x y) as [[m1 l]|e] eqn:Es; cbn [rbind fst snd];
      [|discriminate].
    destruct (train_step_two_layer lr W m w1 w2 x y m1 l Hm Es) as (u1 & u2 & Hm1).
    apply (IH m1 _ m' tl' u1 u2 Hm1).
Qed.

Lemma train_batches_ok lr ds W batches :
  forall m tl w1 w2,
    two_layer W m w1 w2 ->
    Forall (fun b => b <> [] /\ rows_ok ds b) batches ->
    exists m' tl',
      train_batches lr ds batches m tl = Ok (m', tl') /\
      sgd_pass lr ds batches m m'.
Proof.
  induction batches as [|b bs IH]; intros m tl w1 w2 Hm Hall; simpl.
  - exists m, tl. split; [reflexivity | constructor].
  - inversion Hall as [|? ? [Hne Hrows] Hrest]; subst.
    destruct (fetch_ok ds b Hne Hrows) as (x & y & Ef & Hx & Hy).
    rewrite Ef. cbn [rbind fst snd].
    assert (Hn : 1 <= length b) by (destruct b; simpl; [congruence | lia]).
    destruct (train_step_ok lr W m w1 w2 x y (length b) Hm Hx Hy Hn)
      as (m1 & l & Es).
    rewrite Es. cbn [rbind fst snd].
    destruct (train_step_two_layer lr W m w1 w2 x y m1 l Hm Es) as (u1 & u2 & Hm1).
    destruct (IH m1 (tl + l)%Q u1 u2 Hm1 Hrest) as (m' & tl' & E & Hpass).
    exists m', tl'. split; [exact E|]. econstructor; eassumption.
Qed.

Lemma train_epochs_two_layer csv lr W epochs :
  forall m w m' w' w1 w2,
    two_layer W m w1 w2 ->
    train_epochs csv lr epochs m w = (Ok m', w') ->
    exists w1' w2', two_layer W m' w1' w2'.
Proof.
  induction epochs as [|k IH]; intros m w m' w' w1 w2 Hm; cbn [train_epochs].
  - unfold ret. intros E. injection E as <- _. eauto.
  - unfold bind at 1.
    destruct (DataLoader_iter (train_loader csv) w) as [[batches|e] wa];
      [|discriminate].
    unfold bind at 1, lift.
    destruct (train_batches _ _ _ _ _) as [[m1 tl]|e] eqn:Eb; [|discriminate].
    cbn [fst].
    destruct (train_batches_two_layer _ _ W _ _ _ _ _ _ _ Hm Eb) as (u1 & u2 & Hm1).
    apply (IH m1 wa m' w' u1 u2 Hm1).
Qed.

(** On a well-laid-out frame every epoch goes through: [epochs] passes,
    each over a permutation of all training rows. *)
Lemma train_epochs_ok csv lr W epochs :
  forallb row_layout csv = true ->
  forall m w w1 w2,
    two_layer W m w1 w2 ->
    exists m' w',
      train_epochs csv lr epochs m w = (Ok m', w') /\
      trained csv lr epochs m w m' w' /\ stdout w' = stdout w.
Proof.
  intros Hcsv. induction epochs as [|k IH]; intros m w w1 w2 Hm;
    cbn [train_epochs].
  - exists m, w. repeat split. constructor.
  - destruct (train_loader_iter csv w) as (perm & wa & Ei & Hperm & Hsa).
    unfold bind at 1. rewrite Ei.
    destruct (chunks_spec (batch_size (train_loader csv)) perm) as [_ Hch].
    { cbn [batch_size train_loader]. lia. }
    destruct (train_batches_ok lr (dataset (train_loader csv)) W
                (chunks (batch_size (train_loader csv)) perm) m 0%Q w1 w2 Hm)
      as (m1 & tl & Eb & Hpass).
    { eapply Forall_impl; [|exact Hch]. intros c [Hne Hin]. split; [exact Hne|].
      apply rows_ok_slice; [exact Hcsv|].
      apply Forall_forall. intros i Hi. apply Hin in Hi.
      apply (Permutation_in _ Hperm) in Hi. apply in_seq in Hi.
      unfold AbaloneData_len in Hi. cbn [dataset train_loader ds_data] in Hi. lia. }
    unfold bind at 1, lift. rewrite Eb. cbn [fst].
    destruct (train_batches_two_layer _ _ W _ _ _ _ _ _ _ Hm Eb) as (u1 & u2 & Hm1).
    destruct (IH m1 wa u1 u2 Hm1) as (m' & w' & E & Htr & Hs).
    exists m', w'. split; [exact E|]. split; [|congruence].
    econstructor; eassumption.
Qed.

(** ** Construction *)

Lemma Model_init_two_layer fs W w :
  exists m w' w1 w2,
    Model_init fs W w = (Ok m, w') /\ two_layer W m w1 w2 /\
    stdout w' = stdout w.
Proof.
  eexists. eexists. eexists. eexists. split; [reflexivity|].
  split; [|reflexivity]. split; [reflexivity|].
  split; (split; [reflexivity|]); cbn [data];
    now rewrite !length_map, length_seq.
Qed.

Lemma two_layer_num_param W m w1 w2 :
  two_layer W m w1 w2 ->
  parameters m = [w1; w2] /\ sum_nat (map numel (parameters m)) = 9 * W.
Proof.
  intros (Hl & [Hs1 _] & [Hs2 _]). unfold parameters. rewrite Hl.
  cbn [flat_map Layer_parameters weight bias app]. split; [reflexivity|].
  cbn [map sum_nat fold_right]. unfold numel. rewrite Hs1, Hs2.
  unfold numel_of. simpl. lia.
Qed.

(** ** [get_test_loss] *)

Lemma first_batch_inv dl w xy w' :
  shuffle dl = false -> first_batch dl w = (Ok xy, w') ->
  w' = w /\ 0 < AbaloneData_len (dataset dl).
Proof.
  intros Hs. destruct (AbaloneData_len (dataset dl)) as [|n] eqn:En.
  - unfold first_batch, DataLoader_iter. rewrite Hs, En. discriminate.
  - rewrite first_batch_in_order by (rewrite ?En; auto; lia).
    intros E. injection E as _ <-. split; [reflexivity | lia].
Qed.

Lemma test_split_length csv :
  AbaloneData_len (dataset (test_loader csv)) = Nat.min 1000 (length csv - 3000).
Proof.
  unfold AbaloneData_len. cbn [dataset test_loader ds_data].
  rewrite py_slice_length. f_equal.
Qed.

(** What a returning call went through. *)
Lemma get_test_loss_inv fs csv W epochs w tl np w' :
  get_test_loss fs csv W epochs w = (Ok (tl, np), w') ->
  exists m0 w0 a1 a2 m b1 b2 xt yt out loss,
    Model_init fs W w = (Ok m0, w0) /\ two_layer W m0 a1 a2 /\
    train_epochs csv (1 # 100) epochs m0 w0 = (Ok m, w') /\
    two_layer W m b1 b2 /\
    first_batch (test_loader csv) w' = (Ok (xt, yt), w') /\
    Model_forward m xt = Ok out /\
    MSELoss (squeeze out) yt = Ok loss /\
    tl = (0 + item0 loss)%Q /\ np = 9 * W.
Proof.
  unfold get_test_loss.
  destruct (Model_init_two_layer fs W w) as (m0 & w0 & a1 & a2 & Ei & Hm0 & _).
  unfold bind at 1. rewrite Ei. unfold bind at 1.
  destruct (train_epochs csv (1 # 100) epochs m0 w0) as [[m|e] w1] eqn:Et;
    [|discriminate].
  destruct (train_epochs_two_layer csv _ W epochs _ _ _ _ _ _ Hm0 Et)
    as (b1 & b2 & Hm).
  unfold bind at 1.
  destruct (first_batch (test_loader csv) w1) as [[[xt yt]|e] w2] eqn:Ef;
    [|discriminate].
  destruct (first_batch_inv (test_loader csv) _ _ _ eq_refl Ef) as [-> _].
  unfold bind at 1, lift. cbn [fst snd].
  destruct (Model_forward m xt) as [out|e] eqn:Eo; [|discriminate].
  unfold bind at 1.
  destruct (MSELoss (squeeze out) yt) as [loss|e] eqn:El; [|discriminate].
  unfold ret. intros E. injection E as <- <- <-.
  exists m0, w0, a1, a2, m, b1, b2, xt, yt, out, loss.
  repeat (split; [assumption || reflexivity|]).
  apply (two_layer_num_param W m b1 b2 Hm).
Qed.

(** On a well-laid-out frame with a non-empty test part the call returns,
    and this is what it computes. *)
Lemma get_test_loss_run fs csv W epochs w :
  forallb row_layout csv = true -> 3000 < length csv ->
  exists m0 w0 a1 a2 m w1 b1 b2 xt yt,
    Model_init fs W w = (Ok m0, w0) /\ two_layer W m0 a1 a2 /\
    train_epochs csv (1 # 100) epochs m0 w0 = (Ok m, w1) /\
    trained csv (1 # 100) epochs m0 w0 m w1 /\
    two_layer W m b1 b2 /\
    let n := AbaloneData_len (dataset (test_loader csv)) in
    1 <= n /\
    fetch (dataset (test_loader csv)) (seq 0 n) = Ok (xt, yt) /\
    has_shape xt [n; 8] /\ has_shape yt [n] /\
    get_test_loss fs csv W epochs w =
      (Ok ((0 + mean_squared_error (data (two_layer_net W b1 b2 xt n)) (data yt))%Q,
           9 * W), w1).
Proof.
  intros Hcsv Hlen.
  destruct (Model_init_two_layer fs W w) as (m0 & w0 & a1 & a2 & Ei & Hm0 & _).
  destruct (train_epochs_ok csv (1 # 100) W epochs Hcsv m0 w0 a1 a2 Hm0)
    as (m & w1 & Et & Htr & _).
  destruct (train_epochs_two_layer csv _ W epochs _ _ _ _ _ _ Hm0 Et)
    as (b1 & b2 & Hm).
  pose proof (test_split_length csv) as Hn.
  set (n := AbaloneData_len (dataset (test_loader csv))) in *.
  assert (Hn1 : 1 <= n) by lia.
  assert (Hn2 : n <= 1000) by lia.
  destruct (fetch_ok (dataset (test_loader csv)) (seq 0 n)) as (xt & yt & Ef & Hx & Hy).
  { destruct n; [lia | discriminate]. }
  { apply rows_ok_slice; [exact Hcsv|]. apply Forall_forall. intros i Hi.
    apply in_seq in Hi. subst n. unfold AbaloneData_len in Hi.
    cbn [dataset test_loader ds_data] in Hi. lia. }
  rewrite length_seq in Hx, Hy.
  exists m0, w0, a1, a2, m, w1, b1, b2, xt, yt.
  repeat (split; [assumption|]).
  unfold get_test_loss. unfold bind at 1. rewrite Ei.
  unfold bind at 1. rewrite Et. unfold bind at 1.
  rewrite first_batch_in_order by (auto; fold n; lia).
  fold n. cbn [batch_size test_loader]. rewrite (Nat.min_r 1000 n) by lia.
  rewrite Ef. unfold bind at 1, lift. cbn [fst snd].
  rewrite (forward_two_layer W m b1 b2 xt n Hm (proj1 Hx)).
  unfold bind at 1.
  rewrite (MSELoss_column _ yt n (two_layer_net_has_shape W b1 b2 xt n) Hy Hn1).
  unfold ret. cbn [item0 item data nth].
  rewrite (proj2 (two_layer_num_param W m b1 b2 Hm)). reflexivity.
Qed.

(** C7: for every row with the expected layout (a string, seven numeric
    fields, the label), [__getitem__] returns a feature vector of exactly 8
    elements: 0 if the first field is 'M' and 1 otherwise, then the seven
    numeric fields; the label is the ninth column.  A batch of such samples
    has size (batch, 8), its labels size (batch). *)
Theorem getitem_eight_features ds :
  (forall idx row,
     nth_error (ds_data ds) idx = Some row -> row_layout row = true ->
     exists x y sex qs label,
       row = PyStr sex :: map PyNum qs ++ [PyNum label] /\ length qs = 7 /\
       AbaloneData_getitem ds idx = Ok (x, y) /\
       has_shape x [8] /\ length (data x) = 8 /\
       data x = (if String.eqb sex "M" then 0%Q else 1%Q) :: qs /\
       (sex = "M"%string -> nth 0 (data x) 0%Q = 0%Q) /\
       (sex <> "M"%string -> nth 0 (data x) 0%Q = 1%Q) /\
       has_shape y [] /\ data y = [label]) /\
  (forall idxs,
     idxs <> [] -> rows_ok ds idxs ->
     exists x y, fetch ds idxs = Ok (x, y) /\
       has_shape x [length idxs; 8] /\ has_shape y [length idxs]).
Proof.
  split.
  - intros idx row Hrow Hlay.
    destruct (row_layout_inv row Hlay) as (sex & qs & label & -> & Hlen).
    eexists. eexists. exists sex, qs, label.
    split; [reflexivity|]. split; [exact Hlen|].
    split; [apply (getitem_row ds idx sex qs label Hrow Hlen)|].
    unfold has_shape. cbn [shape data nth length]. rewrite Hlen.
    split; [split; reflexivity|]. split; [reflexivity|]. split; [reflexivity|].
    split; [intros ->; reflexivity|].
    split; [|split; [split|]; reflexivity].
    intros Hne. destruct (String.eqb_spec sex "M"); congruence.
  - intros idxs Hne Hrows. apply fetch_ok; assumption.
Qed.

Lemma getitem_eight_features_witness :
  nth_error sample_frame 1 = Some sample_female /\
  row_layout sample_female = true /\
  exists x y,
    AbaloneData_getitem (mkAbaloneData sample_frame) 1 = Ok (x, y) /\
    length (data x) = 8 /\
    exists bx byy,
      fetch (mkAbaloneData sample_frame) [0; 1; 2] = Ok (bx, byy) /\
      shape bx = [3; 8].
Proof.
  assert (H1 : nth_error (ds_data (mkAbaloneData sample_frame)) 1
               = Some sample_female) by reflexivity.
  assert (H2 : row_layout sample_female = true) by reflexivity.
  split; [exact H1|]. split; [exact H2|].
  destruct (getitem_eight_features (mkAbaloneData sample_frame)) as [Hget Hbatch].
  destruct (Hget 1 sample_female H1 H2)
    as (x & y & sex & qs & label & _ & _ & E & _ & Hl & _).
  exists x, y. split; [exact E|]. split; [exact Hl|].
  destruct (Hbatch [0; 1; 2]) as (bx & byy & Ef & [Hs _] & _).
  - discriminate.
  - repeat constructor; eexists; (split; [reflexivity|]); reflexivity.
  - exists bx, byy. split; [exact Ef | exact Hs].
Defined.

(** C3: for every hidden width W, [Model(W)] has two parameter tensors, of
    sizes (W, 8) and (1, W), that is 8*W + W*1 = 9*W scalars; and the
    [num_param] that [get_test_loss(W, epochs)] returns is 9*W: whenever
    the call returns, and it does return on a well-laid-out frame with a
    non-empty test part. *)
Theorem num_param_is_9W fs W :
  (forall w,
     exists m w' w1 w2,
       Model_init fs W w = (Ok m, w') /\ parameters m = [w1; w2] /\
       has_shape w1 [W; 8] /\ has_shape w2 [1; W] /\
       numel w1 = 8 * W /\ numel w2 = W * 1 /\
       sum_nat (map numel (parameters m)) = 9 * W /\
       length (data w1) + length (data w2) = 9 * W) /\
  (forall csv epochs w tl np w',
     get_test_loss fs csv W epochs w = (Ok (tl, np), w') -> np = 9 * W) /\
  (forall csv epochs w,
     forallb row_layout csv = true -> 3000 < length csv ->
     exists tl w', get_test_loss fs csv W epochs w = (Ok (tl, 9 * W), w')).
Proof.
  split; [|split].
  - intros w.
    destruct (Model_init_two_layer fs W w) as (m & w' & w1 & w2 & Ei & Hm & _).
    destruct (two_layer_num_param W m w1 w2 Hm) as [Hp Hsum].
    destruct Hm as (_ & [Hs1 Hl1] & [Hs2 Hl2]).
    exists m, w', w1, w2.
    repeat (split; [assumption|]).
    unfold numel. rewrite Hs1, Hs2, Hl1, Hl2.
    unfold numel_of. simpl. repeat split; try assumption; lia.
  - intros csv epochs w tl np w' E.
    destruct (get_test_loss_inv fs csv W epochs w tl np w' E)
      as (m0 & w0 & a1 & a2 & m & b1 & b2 & xt & yt & out & loss & H).
    apply H.
  - intros csv epochs w Hcsv Hlen.
    destruct (get_test_loss_run fs csv W epochs w Hcsv Hlen)
      as (m0 & w0 & a1 & a2 & m & w1 & b1 & b2 & xt & yt & H).
    destruct H as (_ & _ & _ & _ & _ & _ & _ & _ & _ & E).
    eexists. eexists. exact E.
Qed.

Lemma num_param_is_9W_witness :
  get_test_loss sample_sqrt sample_csv 1 0 sample_world
    = (Ok ((0 + 4)%Q, 9), mkWorld [] (advance (advance sample_generator 8) 1)) /\
  forallb row_layout sample_csv = true /\ 3000 < length sample_csv /\
  9 = 9 * 1 /\
  exists tl w', get_test_loss sample_sqrt sample_csv 1 10 sample_world
                = (Ok (tl, 9 * 1), w').
Proof.
  assert (E : get_test_loss sample_sqrt sample_csv 1 0 sample_world
              = (Ok ((0 + 4)%Q, 9),
                 mkWorld [] (advance (advance sample_generator 8) 1)))
    by (vm_compute; reflexivity).
  assert (Hcsv : forallb row_layout sample_csv = true) by (vm_compute; reflexivity).
  assert (Hlen : 3000 < length sample_csv)
    by (apply Nat.ltb_lt; vm_compute; reflexivity).
  destruct (num_param_is_9W sample_sqrt 1) as (_ & Hret & Hrun).
  split; [exact E|]. split; [exact Hcsv|]. split; [exact Hlen|].
  split; [exact (Hret _ _ _ _ _ _ E)|].
  exact (Hrun sample_csv 10 sample_world Hcsv Hlen).
Defined.

Lemma mapR_inputs {A B} (f : A -> result B) l bs :
  mapR f l = Ok bs -> Forall (fun a => exists b, f a = Ok b) l.
Proof.
  revert bs. induction l as [|a l IH]; intros bs; cbn [mapR].
  - constructor.
  - destruct (f a) as [b|e] eqn:Ea; cbn [rbind]; [|discriminate].
    destruct (mapR f l) as [bs'|e]; cbn [rbind]; [|discriminate].
    intros _. constructor; [now exists b | now apply (IH bs')].
Qed.

(** A batch fetched from a part of a well-laid-out frame has features of
    size (batch, 8) and labels of size (batch). *)
Lemma fetch_shapes csv a c b x y :
  forallb row_layout csv = true -> b <> [] ->
  fetch (mkAbaloneData (py_slice csv a c)) b = Ok (x, y) ->
  has_shape x [length b; 8] /\ has_shape y [length b].
Proof.
  intros Hcsv Hne E.
  assert (Hin : Forall (fun i => i < length (py_slice csv a c)) b).
  { unfold fetch in E.
    destruct (mapR _ b) as [samples|e] eqn:Em; cbn [rbind] in E; [|discriminate].
    eapply Forall_impl; [|exact (mapR_inputs _ _ _ Em)].
    cbv beta. intros i (s & Es). apply nth_error_Some.
    unfold AbaloneData_getitem, py_index in Es. cbn [ds_data] in Es.
    destruct (nth_error (py_slice csv a c) i); [discriminate|].
    discriminate. }
  destruct (fetch_ok _ b Hne (rows_ok_slice csv a c b Hcsv Hin))
    as (x' & y' & E' & Hx & Hy).
  rewrite E in E'. injection E' as <- <-. split; assumption.
Qed.

(** C6: on a well-laid-out frame with a non-empty test part,
    [get_test_loss(layer_size, epochs)] builds a network 8 -> layer_size
    -> 1 of two bias-free linear layers, a ReLU after each; trains it for
    exactly [epochs] passes over the training loader, each pass a gradient
    step per batch; evaluates the MSE of the trained network on the
    held-out rows; and returns that loss with the parameter count.  Every
    gradient step is plain SGD on the MSE loss at learning rate 0.01: on a
    batch of [n >= 1] samples the batch loss is the mean squared error of
    the network's predictions, and each weight [p] becomes
    [p - 0.01 * dL/dp], the derivative being the one of that mean squared
    error; and every non-empty batch of the training loader has [n] rows
    of 8 features and [n] labels. *)
Theorem get_test_loss_contract fs csv W epochs w :
  forallb row_layout csv = true -> 3000 < length csv ->
  (exists m0 w0 a1 a2 m w1 b1 b2 xt yt,
     Model_init fs W w = (Ok m0, w0) /\ two_layer W m0 a1 a2 /\
     (forall x k, shape x = [k; 8] ->
                  Model_forward m0 x = Ok (two_layer_net W a1 a2 x k)) /\
     trained csv (1 # 100) epochs m0 w0 m w1 /\ two_layer W m b1 b2 /\
     let n := AbaloneData_len (dataset (test_loader csv)) in
     fetch (dataset (test_loader csv)) (seq 0 n) = Ok (xt, yt) /\
     has_shape xt [n; 8] /\ has_shape yt [n] /\
     Model_forward m xt = Ok (two_layer_net W b1 b2 xt n) /\
     get_test_loss fs csv W epochs w =
       (Ok ((0 + mean_squared_error (data (two_layer_net W b1 b2 xt n))
                                    (data yt))%Q,
            sum_nat (map numel (parameters m))), w1)) /\
  (forall m u1 u2 x y m' l,
     two_layer W m u1 u2 -> train_step (1 # 100) m x y = Ok (m', l) ->
     exists out loss g1 g2,
       Model_forward m x = Ok out /\ MSELoss (squeeze out) y = Ok loss /\
       l = item0 loss /\
       has_shape g1 [W; 8] /\ has_shape g2 [1; W] /\
       two_layer W m' (sgd_update (1 # 100) u1 g1) (sgd_update (1 # 100) u2 g2)) /\
  (forall m u1 u2 x y n,
     two_layer W m u1 u2 -> has_shape x [n; 8] -> has_shape y [n] -> 1 <= n ->
     exists m' v1 v2,
       train_step (1 # 100) m x y
         = Ok (m', mean_squared_error (data (two_layer_net W u1 u2 x n)) (data y))
       /\ two_layer W m' v1 v2
       /\ descent_step W (1 # 100) u1 u2 x y n v1 v2) /\
  (forall b x y,
     b <> [] -> fetch (dataset (train_loader csv)) b = Ok (x, y) ->
     has_shape x [length b; 8] /\ has_shape y [length b]).
Proof.
  intros Hcsv Hlen. split; [|split; [|split]].
  - destruct (get_test_loss_run fs csv W epochs w Hcsv Hlen)
      as (m0 & w0 & a1 & a2 & m & w1 & b1 & b2 & xt & yt & H).
    destruct H as (Ei & Hm0 & _ & Htr & Hm & _ & Ef & Hx & Hy & E).
    exists m0, w0, a1, a2, m, w1, b1, b2, xt, yt.
    split; [exact Ei|]. split; [exact Hm0|].
    split; [intros x k Hs; apply (forward_two_layer W m0 a1 a2 x k Hm0 Hs)|].
    split; [exact Htr|]. split; [exact Hm|].
    split; [exact Ef|]. split; [exact Hx|]. split; [exact Hy|].
    split; [apply (forward_two_layer W m b1 b2 xt _ Hm (proj1 Hx))|].
    rewrite (proj2 (two_layer_num_param W m b1 b2 Hm)). exact E.
  - intros m u1 u2 x y m' l Hm Es.
    apply (train_step_inv (1 # 100) W m u1 u2 x y m' l Hm Es).
  - intros m u1 u2 x y n Hm Hx Hy Hn.
    apply (train_step_descent (1 # 100) W m u1 u2 x y n Hm Hx Hy Hn).
  - intros b x y Hne E.
    apply (fetch_shapes csv 0 3000 b x y Hcsv Hne E).
Qed.

Lemma get_test_loss_contract_witness :
  forallb row_layout sample_csv = true /\ 3000 < length sample_csv /\
  (exists tl np w',
     get_test_loss sample_sqrt sample_csv 2 10 sample_world = (Ok (tl, np), w')) /\
  two_layer 2 sample_live_model (full [2; 8] (1 # 2)) (mkTensor [1; 2] [1%Q; 1 # 2]) /\
  (exists m' l v1 v2,
     train_step (1 # 100) sample_live_model (full [2; 8] 1%Q)
       (mkTensor [2] [1%Q; 2%Q]) = Ok (m', l) /\ (l == 41 # 2)%Q /\
     two_layer 2 m' v1 v2 /\
     (item v1 0 == 41 # 100)%Q /\ (item v1 8 == 455 # 1000)%Q /\
     (item v2 0 == 64 # 100)%Q /\ (item v2 1 == 14 # 100)%Q) /\
  exists x y,
    fetch (dataset (train_loader sample_csv)) [0; 1] = Ok (x, y) /\
    has_shape x [2; 8] /\ has_shape y [2].
Proof.
  assert (Hcsv : forallb row_layout sample_csv = true) by (vm_compute; reflexivity).
  assert (Hlen : 3000 < length sample_csv)
    by (apply Nat.ltb_lt; vm_compute; reflexivity).
  assert (Hm : two_layer 2 sample_live_model (full [2; 8] (1 # 2))
                 (mkTensor [1; 2] [1%Q; 1 # 2]))
    by (repeat split; reflexivity).
  split; [exact Hcsv|]. split; [exact Hlen|].
  destruct (get_test_loss_contract sample_sqrt sample_csv 2 10 sample_world
              Hcsv Hlen) as (H & _ & Hstep & Hbatch).
  split.
  { destruct H as (m0 & w0 & a1 & a2 & m & w1 & b1 & b2 & xt & yt & H).
    destruct H as (_ & _ & _ & _ & _ & _ & _ & _ & _ & E).
    eexists. eexists. eexists. exact E. }
  split; [exact Hm|]. split.
  - destruct (Hstep sample_live_model _ _ (full [2; 8] 1%Q)
                (mkTensor [2] [1%Q; 2%Q]) 2 Hm)
      as (m' & v1 & v2 & E & Hm' & Hd1 & Hd2).
    { split; reflexivity. }
    { split; reflexivity. }
    { lia. }
    eexists m', _, v1, v2. split; [exact E|].
    split; [vm_compute; reflexivity|].
    split; [exact Hm'|].
    split; [|split; [|split]].
    + rewrite (Hd1 0 0) by lia. vm_compute. reflexivity.
    + rewrite (Hd1 1 0) by lia. vm_compute. reflexivity.
    + rewrite (Hd2 0) by lia. vm_compute. reflexivity.
    + rewrite (Hd2 1) by lia. vm_compute. reflexivity.
  - pose (r := fetch (dataset (train_loader sample_csv)) [0; 1]).
    assert (E : fetch (dataset (train_loader sample_csv)) [0; 1] = r)
      by reflexivity.
    vm_compute in r. subst r.
    match type of E with
    | _ = Ok (?x, ?y) =>
        exists x, y; split; [exact E|];
        apply (Hbatch [0; 1] x y); [discriminate | exact E]
    end.
Defined.

(** C9: the network ends with a ReLU, so whatever the input, every element
    of the output of [Model.forward] is non-negative; the output is the
    ReLU of the last linear layer's result, and where that result is
    nowhere positive the output is zero everywhere.  On [n] samples of 8
    features the forward pass returns [n] such values. *)
Theorem Model_forward_nonneg W m w1 w2 :
  two_layer W m w1 w2 ->
  (forall x out,
     Model_forward m x = Ok out ->
     exists z,
       Sequential_forward (firstn 3 (layers m)) x = Ok z /\ out = relu z /\
       Forall (fun v => (0 <= v)%Q) (data out) /\
       (Forall (fun v => (v <= 0)%Q) (data z) ->
        data out = repeat 0%Q (length (data z)))) /\
  (forall x n,
     shape x = [n; 8] ->
     exists out,
       Model_forward m x = Ok out /\ has_shape out [n; 1] /\
       Forall (fun v => (0 <= v)%Q) (data out) /\
       data out = map (fun r => relu_scalar (pre_activation W w1 w2 x r)) (seq 0 n)).
Proof.
  intros Hm.
  assert (Hnn : forall z, Forall (fun v => (0 <= v)%Q) (data (relu z))).
  { intros z. unfold relu. cbn [data]. apply Forall_forall. intros v Hv.
    apply in_map_iff in Hv. destruct Hv as (u & <- & _).
    apply relu_scalar_nonneg. }
  split.
  - intros x out. destruct Hm as (Hl & _ & _). unfold Model_forward.
    rewrite Hl. cbn [firstn Sequential_forward Layer_forward].
    destruct (Linear_forward _ x) as [y1|e]; cbn [rbind]; [|discriminate].
    destruct (Linear_forward _ (relu y1)) as [z|e]; cbn [rbind]; [|discriminate].
    intros E. injection E as <-. exists z.
    split; [reflexivity|]. split; [reflexivity|]. split; [apply Hnn|].
    intros Hz. unfold relu. cbn [data].
    induction Hz as [|v l Hv _ IH]; [reflexivity|].
    cbn [map length repeat]. rewrite IH, (relu_scalar_nonpos v Hv). reflexivity.
  - intros x n Hx. exists (two_layer_net W w1 w2 x n).
    split; [apply (forward_two_layer W m w1 w2 x n Hm Hx)|].
    split; [apply two_layer_net_has_shape|].
    split; [|reflexivity].
    unfold two_layer_net. cbn [data]. apply Forall_forall. intros v Hv.
    apply in_map_iff in Hv. destruct Hv as (r & <- & _).
    apply relu_scalar_nonneg.
Qed.

Lemma Model_forward_nonneg_witness :
  two_layer 2 sample_model (full [2; 8] (1 # 2)) (mkTensor [1; 2] [1%Q; (-3)%Q]) /\
  exists out,
    Model_forward sample_model (full [2; 8] 1%Q) = Ok out /\
    Forall (fun v => (0 <= v)%Q) (data out).
Proof.
  assert (Hm : two_layer 2 sample_model (full [2; 8] (1 # 2))
                 (mkTensor [1; 2] [1%Q; (-3)%Q]))
    by (repeat split; reflexivity).
  split; [exact Hm|].
  destruct (Model_forward_nonneg 2 sample_model _ _ Hm) as [Hany Hbatch].
  assert (E : Model_forward sample_model (full [2; 8] 1%Q)
              = Ok (mkTensor [2; 1] [0%Q; 0%Q])) by (vm_compute; reflexivity).
  destruct (Hany _ _ E) as (z & _ & _ & Hnn & _).
  destruct (Hbatch (full [2; 8] 1%Q) 2 eq_refl) as (out & Eo & _).
  eexists. split; [exact Eo|]. rewrite E in Eo. injection Eo as <-. exact Hnn.
Defined.

(** C10: [get_test_loss] takes its test loss from the first batch of the
    test loader alone.  A loader that does not shuffle yields as first
    batch the first [batch_size] rows: all rows when the dataset has at
    most [batch_size] of them, a strict prefix otherwise.  The test
    dataset is built from rows 3000..3999, so it holds at most 1000 rows,
    exactly 1000 for a frame of 4000 rows or more, and the batch size is
    1000: the first batch is the whole held-out part, and the loss
    returned is the MSE over all of it. *)
Theorem test_loss_on_first_batch fs csv :
  let ds := dataset (test_loader csv) in
  batch_size (test_loader csv) = 1000 /\
  AbaloneData_len ds <= batch_size (test_loader csv) /\
  (4000 <= length csv -> AbaloneData_len ds = 1000) /\
  (forall dl w,
     shuffle dl = false -> 0 < AbaloneData_len (dataset dl) ->
     (AbaloneData_len (dataset dl) <= batch_size dl ->
      first_batch dl w =
        (fetch (dataset dl) (seq 0 (AbaloneData_len (dataset dl))), w)) /\
     (batch_size dl < AbaloneData_len (dataset dl) ->
      first_batch dl w = (fetch (dataset dl) (seq 0 (batch_size dl)), w))) /\
  (forall W epochs w tl np w',
     get_test_loss fs csv W epochs w = (Ok (tl, np), w') ->
     exists m xt yt out loss,
       first_batch (test_loader csv) w' = (Ok (xt, yt), w') /\
       fetch ds (seq 0 (AbaloneData_len ds)) = Ok (xt, yt) /\
       has_shape xt [AbaloneData_len ds; 8] /\
       Model_forward m xt = Ok out /\
       MSELoss (squeeze out) yt = Ok loss /\
       tl = (0 + item0 loss)%Q /\
       item0 loss = mean_squared_error (data out) (data yt)).
Proof.
  intros ds. pose proof (test_split_length csv) as Hn. fold ds in Hn.
  split; [reflexivity|]. split; [cbn [batch_size test_loader]; lia|].
  split; [intros H; lia|]. split.
  - intros dl w Hs Hpos. split; intros Hle;
      rewrite (first_batch_in_order dl w Hs Hpos).
    + now rewrite Nat.min_r.
    + now rewrite Nat.min_l by lia.
  - intros W epochs w tl np w' E.
    destruct (get_test_loss_inv fs csv W epochs w tl np w' E)
      as (m0 & w0 & a1 & a2 & m & b1 & b2 & xt & yt & out & loss & H).
    destruct H as (_ & _ & _ & Hm & Ef & Eo & El & Htl & _).
    destruct (first_batch_inv (test_loader csv) _ _ _ eq_refl Ef) as [_ Hpos].
    fold ds in Hpos.
    assert (Efetch : fetch ds (seq 0 (AbaloneData_len ds)) = Ok (xt, yt)).
    { rewrite (first_batch_in_order (test_loader csv) w' eq_refl Hpos) in Ef.
      fold ds in Ef. cbn [batch_size test_loader] in Ef.
      rewrite (Nat.min_r 1000 (AbaloneData_len ds)) in Ef by lia.
      now injection Ef. }
    exists m, xt, yt, out, loss.
    split; [exact Ef|]. split; [exact Efetch|].
    assert (Hxy : has_shape xt [AbaloneData_len ds; 8] /\
                  has_shape yt [AbaloneData_len ds]).
    { pose proof (fetch_inv ds _ xt yt Efetch) as H. now rewrite length_seq in H. }
    destruct Hxy as [Hx Hy].
    split; [exact Hx|]. split; [exact Eo|]. split; [exact El|].
    split; [exact Htl|].
    rewrite (forward_two_layer W m b1 b2 xt _ Hm (proj1 Hx)) in Eo.
    injection Eo as <-.
    rewrite (MSELoss_column _ yt _ (two_layer_net_has_shape W b1 b2 xt _) Hy Hpos)
      in El.
    injection El as <-. reflexivity.
Qed.

Lemma test_loss_on_first_batch_witness :
  4000 <= length sample_csv_4000 /\
  AbaloneData_len (dataset (test_loader sample_csv_4000)) = 1000 /\
  first_batch (mkDataLoader (mkAbaloneData sample_frame) 2 false) sample_world
    = (fetch (mkAbaloneData sample_frame) (seq 0 2), sample_world) /\
  first_batch (mkDataLoader (mkAbaloneData sample_frame) 5 false) sample_world
    = (fetch (mkAbaloneData sample_frame) (seq 0 3), sample_world) /\
  exists xt yt,
    fetch (dataset (test_loader sample_csv)) (seq 0 1) = Ok (xt, yt) /\
    has_shape xt [1; 8].
Proof.
  assert (H4000 : 4000 <= length sample_csv_4000)
    by (apply Nat.leb_le; vm_compute; reflexivity).
  destruct (test_loss_on_first_batch sample_sqrt sample_csv_4000)
    as (_ & _ & Hfull & Hfirst & _).
  destruct (test_loss_on_first_batch sample_sqrt sample_csv)
    as (_ & _ & _ & _ & Hloss).
  split; [exact H4000|]. split; [exact (Hfull H4000)|].
  assert (Hpos : 0 < 3) by (apply Nat.ltb_lt; reflexivity).
  split.
  { destruct (Hfirst (mkDataLoader (mkAbaloneData sample_frame) 2 false)
                sample_world eq_refl Hpos) as [_ Hprefix].
    apply Hprefix. apply Nat.ltb_lt. reflexivity. }
  split.
  { destruct (Hfirst (mkDataLoader (mkAbaloneData sample_frame) 5 false)
                sample_world eq_refl Hpos) as [Hall _].
    apply Hall. apply Nat.leb_le. reflexivity. }
  assert (E : get_test_loss sample_sqrt sample_csv 1 0 sample_world
              = (Ok ((0 + 4)%Q, 9),
                 mkWorld [] (advance (advance sample_generator 8) 1)))
    by (vm_compute; reflexivity).
  destruct (Hloss 1 0 sample_world _ _ _ E)
    as (m & xt & yt & out & loss & _ & Ef & Hx & _).
  assert (Hn : AbaloneData_len (dataset (test_loader sample_csv)) = 1)
    by (vm_compute; reflexivity).
  rewrite Hn in Ef, Hx. exists xt, yt. split; [exact Ef | exact Hx].
Defined.

(** ** The sweep *)

(** The comparison [test_loss > 15] says what it reads. *)
Lemma rejected_iff a : rejected a = true <-> exceeds_threshold a.
Proof.
  destruct a as [q| | |]; cbn [rejected exceeds_threshold].
  - split.
    + destruct (Qle_bool q 15) eqn:E; cbn [negb]; [discriminate|]. intros _.
      apply Qnot_le_lt. intros Hle. apply Qle_bool_iff in Hle. congruence.
    + intros H. destruct (Qle_bool q 15) eqn:E; [|reflexivity].
      apply Qle_bool_iff in E. exfalso. apply (Qlt_not_le _ _ H E).
  - split; auto.
  - split; [discriminate | contradiction].
  - split; [discriminate | contradiction].
Qed.

Lemma rejected_true a : rejected a = true -> exceeds_threshold a.
Proof. apply rejected_iff. Qed.

Lemma rejected_true_intro a : exceeds_threshold a -> rejected a = true.
Proof. apply rejected_iff. Qed.

Lemma rejected_false a : rejected a = false -> ~ exceeds_threshold a.
Proof. intros H He. apply rejected_iff in He. congruence. Qed.

Lemma rejected_false_intro a : ~ exceeds_threshold a -> rejected a = false.
Proof.
  intros H. destruct (rejected a) eqn:E; [|reflexivity].
  exfalso. apply H. now apply rejected_iff.
Qed.


Lemma at_most_not_exceeds a : at_most_threshold a -> ~ exceeds_threshold a.
Proof.
  destruct a as [q| | |]; cbn [exceeds_threshold at_most_threshold]; auto.
  intros H. now apply Qle_not_lt.
Qed.

Lemma py_range_unit n : length (py_range 0 n 1) = n.
Proof.
  unfold py_range. rewrite length_map, length_seq, Nat.div_1_r. lia.
Qed.

(** *** Sums of floats *)

Lemma float_eq_refl a : float_eq a a.
Proof. destruct a; cbn [float_eq]; auto. reflexivity. Qed.

Lemma float_eq_sym a b : float_eq a b -> float_eq b a.
Proof. destruct a, b; cbn [float_eq]; auto. intros H. now symmetry. Qed.

Lemma float_eq_trans a b c : float_eq a b -> float_eq b c -> float_eq a c.
Proof.
  destruct a, b, c; cbn [float_eq]; auto; try contradiction.
  intros H1 H2. now rewrite H1.
Qed.

Lemma fadd_compat a a' b b' :
  float_eq a a' -> float_eq b b' -> float_eq (fadd a b) (fadd a' b').
Proof.
  destruct a, a', b, b'; cbn [float_eq fadd]; auto; try contradiction.
  intros H1 H2. now rewrite H1, H2.
Qed.

Lemma fadd_assoc a b c : float_eq (fadd (fadd a b) c) (fadd a (fadd b c)).
Proof. destruct a, b, c; cbn [float_eq fadd]; auto. ring. Qed.

Lemma fadd_0_l a : float_eq (fadd (Fin 0) a) a.
Proof. destruct a; cbn [float_eq fadd]; auto. ring. Qed.

Lemma fadd_0_r a : float_eq (fadd a (Fin 0)) a.
Proof. destruct a; cbn [float_eq fadd]; auto. ring. Qed.

Lemma fdiv_compat a a' n : float_eq a a' -> float_eq (fdiv a n) (fdiv a' n).
Proof.
  destruct a, a'; cbn [float_eq fdiv]; auto. intros H. now rewrite H.
Qed.

Lemma fdiv_fadd a b n :
  float_eq (fdiv (fadd a b) n) (fadd (fdiv a n) (fdiv b n)).
Proof.
  destruct a, b; cbn [float_eq fadd fdiv]; auto. unfold Qdiv. ring.
Qed.

(** Adding up the quotients gives the mean. *)
Lemma fsum_quotients l n :
  float_eq (fsum (map (fun t => fdiv t n) l)) (float_mean l n).
Proof.
  unfold float_mean. induction l as [|t l IH]; cbn [map fsum fold_right].
  - cbn [fdiv float_eq]. unfold Qdiv. ring.
  - fold (fsum (map (fun t => fdiv t n) l)). fold (fsum l).
    eapply float_eq_trans; [|apply float_eq_sym, fdiv_fadd].
    apply fadd_compat; [apply float_eq_refl | exact IH].
Qed.

(** The mean of numbers is their sum over [n], as rationals. *)
Lemma float_mean_numbers (qs : list Q) n :
  float_mean (map Fin qs) n = Fin (sumQ qs / Q_of_nat n).
Proof.
  unfold float_mean.
  assert (E : fsum (map Fin qs) = Fin (sumQ qs)).
  { induction qs as [|q qs IH]; [reflexivity|].
    cbn [map fsum fold_right]. fold (fsum (map Fin qs)). now rewrite IH. }
  now rewrite E.
Qed.









(** The loops are verified for an arbitrary training call; [sweep_cell]
    runs them on [get_test_loss] over the loaded frame. *)
Section SweepFacts.
Variable get_test_loss_ : nat -> nat -> M (pyfloat * nat).

Local Abbreviation attempt := (ImplicitReg.attempt get_test_loss_).
Local Abbreviation retry_loop := (ImplicitReg.retry_loop get_test_loss_).
Local Abbreviation one_run := (ImplicitReg.one_run get_test_loss_).
Local Abbreviation runs_loop := (ImplicitReg.runs_loop get_test_loss_).
Local Abbreviation sizes_loop := (ImplicitReg.sizes_loop get_test_loss_).
Local Abbreviation accepted_run := (ImplicitReg.accepted_run get_test_loss_).
Local Abbreviation accepted_runs := (ImplicitReg.accepted_runs get_test_loss_).
Local Abbreviation swept := (ImplicitReg.swept get_test_loss_).

(** Every outcome of an attempt is the outcome of a training call. *)
Lemma attempt_is_call ls ep :
  forall k w r w',
    attempt ls ep k w = (r, w') ->
    exists w0, get_test_loss_ ls ep w0 = (r, w').
Proof.
  induction k as [|k IH]; intros w r w'; cbn [ImplicitReg.attempt].
  - intros E. now exists w.
  - destruct (get_test_loss_ ls ep w) as [[cur|e] w1] eqn:Eg.
    + apply IH.
    + intros E. injection E as <- <-. now exists w.
Qed.


(** What the loop returns: the current loss if it is accepted, otherwise
    the first accepted one among the further attempts. *)
Lemma retry_loop_result fuel ls ep :
  forall cur w tl np w',
    retry_loop fuel ls ep cur w = Done (Ok (tl, np)) w' ->
    (rejected (fst cur) = false /\ cur = (tl, np) /\ w' = w) \/
    (rejected (fst cur) = true /\ accepted_run ls ep w tl np w').
Proof.
  induction fuel as [|fuel IH]; intros cur w tl np w'; cbn [ImplicitReg.retry_loop];
    destruct (rejected (fst cur)) eqn:Er; try discriminate.
  - intros E. injection E as -> ->. left. auto.
  - destruct (get_test_loss_ ls ep w) as [[cur'|e] w1] eqn:Eg; [|discriminate].
    intros E. right. split; [reflexivity|].
    destruct (IH cur' w1 tl np w' E) as [(Hr & -> & ->)|(Hr & k & Ek & Hle & Hbefore)].
    + exists 0. cbn [ImplicitReg.attempt]. split; [exact Eg|].
      split; [now apply rejected_false in Hr|]. intros j Hj. lia.
    + exists (S k). cbn [ImplicitReg.attempt]. rewrite Eg.
      split; [exact Ek|]. split; [exact Hle|].
      intros [|j] Hj.
      * destruct cur' as [tl1 np1]. exists tl1, np1, w1.
        cbn [ImplicitReg.attempt]. split; [exact Eg|]. now apply rejected_true.
      * cbn [ImplicitReg.attempt]. rewrite Eg. apply Hbefore. lia.
  - intros E. injection E as -> ->. left. auto.
Qed.

Lemma one_run_accepted fuel ls ep w tl np w' :
  one_run fuel ls ep w = Done (Ok (tl, np)) w' -> accepted_run ls ep w tl np w'.
Proof.
  unfold ImplicitReg.one_run.
  destruct (get_test_loss_ ls ep w) as [[cur|e] w1] eqn:Eg; [|discriminate].
  intros E.
  destruct (retry_loop_result fuel ls ep cur w1 tl np w' E)
    as [(Hr & -> & ->)|(Hr & k & Ek & Hle & Hbefore)].
  - exists 0. cbn [ImplicitReg.attempt]. split; [exact Eg|].
    split; [now apply rejected_false in Hr|]. intros j Hj. lia.
  - exists (S k). cbn [ImplicitReg.attempt]. rewrite Eg.
    split; [exact Ek|]. split; [exact Hle|].
    intros [|j] Hj.
    + destruct cur as [tl1 np1]. exists tl1, np1, w1.
      cbn [ImplicitReg.attempt]. split; [exact Eg|]. now apply rejected_true.
    + cbn [ImplicitReg.attempt]. rewrite Eg. apply Hbefore. lia.
Qed.

(** The loops raise nothing of their own: what the retry loop raises is
    the outcome of one of its attempts. *)
Lemma retry_loop_raise_attempt fuel ls ep :
  forall cur w e w',
    retry_loop fuel ls ep cur w = Done (Raise e) w' ->
    exists k, attempt ls ep k w = (Raise e, w').
Proof.
  induction fuel as [|fuel IH]; intros cur w e w'; cbn [ImplicitReg.retry_loop];
    destruct (rejected (fst cur)); try discriminate.
  destruct (get_test_loss_ ls ep w) as [[cur'|e'] w1] eqn:Eg.
  - intros E. destruct (IH cur' w1 e w' E) as (k & Ek).
    exists (S k). cbn [ImplicitReg.attempt]. now rewrite Eg.
  - intros E. injection E as <- <-. exists 0. exact Eg.
Qed.

Lemma retry_loop_raises fuel ls ep cur w e w' :
  retry_loop fuel ls ep cur w = Done (Raise e) w' ->
  raised_by_training get_test_loss_ e.
Proof.
  intros E. destruct (retry_loop_raise_attempt fuel ls ep cur w e w' E) as (k & Ek).
  destruct (attempt_is_call ls ep k w _ _ Ek) as (w0 & E0).
  now exists ls, ep, w0, w'.
Qed.

Lemma one_run_raises fuel ls ep w e w' :
  one_run fuel ls ep w = Done (Raise e) w' ->
  raised_by_training get_test_loss_ e.
Proof.
  unfold ImplicitReg.one_run.
  destruct (get_test_loss_ ls ep w) as [[cur|e'] w1] eqn:Eg.
  - apply retry_loop_raises.
  - intros E. injection E as <- _. now exists ls, ep, w, w1.
Qed.





(** The inner loop adds the accepted losses, each divided by [num_runs];
    any exception is one a training call raised. *)
Lemma runs_loop_result fuel ls ep nr :
  forall runs st w,
    match runs_loop fuel ls ep nr runs st w with
    | Done (Ok (avg, onp)) w' =>
        exists tls,
          accepted_runs ls ep (length runs) w tls w' /\
          float_eq avg (fadd (fst st) (fsum (map (fun t => fdiv t nr) tls))) /\
          (onp = None -> runs = [] /\ snd st = None)
    | Done (Raise e) w' => raised_by_training get_test_loss_ e
    | OutOfFuel => True
    end.
Proof.
  induction runs as [|r runs IH]; intros [avg0 onp0] w; cbn [ImplicitReg.runs_loop].
  - exists []. split; [constructor|]. cbn [fst snd map fsum fold_right].
    split; [apply float_eq_sym, fadd_0_r | auto].
  - destruct (one_run fuel ls ep w) as [[[tl np]|e] w1|] eqn:E1; [| |exact I].
    + pose proof (one_run_accepted fuel ls ep w tl np w1 E1) as Hacc.
      specialize (IH (fadd avg0 (fdiv tl nr), Some np) w1).
      cbn [fst] in *.
      destruct (runs_loop fuel ls ep nr runs _ w1) as [[[avg onp]|e] w2|];
        [| exact IH | exact I].
      destruct IH as (tls & Hruns & Havg & Hnone).
      exists (tl :: tls). split; [econstructor; eassumption|].
      split.
      * eapply float_eq_trans; [exact Havg|].
        cbn [map fsum fold_right].
        fold (fsum (map (fun t => fdiv t nr) tls)). apply fadd_assoc.
      * intros Hn. destruct (Hnone Hn) as [_ Hs]. discriminate.
    + apply (one_run_raises fuel ls ep w e w1 E1).
Qed.

(** The outer loop records, for each width, the mean of its accepted
    losses. *)
Lemma sizes_loop_result fuel ep nr :
  forall sizes st w,
    match sizes_loop fuel ep nr sizes st w with
    | Done (Ok (losses, params)) w' =>
        exists avgs,
          swept ep nr sizes w avgs w' /\ losses = fst st ++ avgs /\
          length params = length (snd st) + length sizes
    | Done (Raise e) w' =>
        raised_by_training get_test_loss_ e \/ (e = NameError /\ nr = 0)
    | OutOfFuel => True
    end.
Proof.
  induction sizes as [|ls sizes IH]; intros [ls0 ps0] w; cbn [ImplicitReg.sizes_loop].
  - exists []. split; [constructor|]. cbn [fst snd length].
    split; [now rewrite app_nil_r | lia].
  - pose proof (runs_loop_result fuel ls ep nr (py_range 0 nr 1) (Fin 0, None) w)
      as Hr.
    destruct (runs_loop fuel ls ep nr (py_range 0 nr 1) (Fin 0, None) w)
      as [[[avg [np|]]|e] w1|]; [| | left; exact Hr | exact I].
    + destruct Hr as (tls & Hruns & Havg & _). rewrite py_range_unit in Hruns.
      cbn [fst] in Havg.
      specialize (IH (ls0 ++ [avg], ps0 ++ [np])
                     (snd (print (PrintSweep ls np avg) w1))).
      cbn [fst snd] in *.
      destruct (sizes_loop fuel ep nr sizes _ _) as [[[losses params]|e] w2|];
        [| exact IH | exact I].
      destruct IH as (avgs & Hsw & -> & Hlen).
      exists (avg :: avgs). split.
      * econstructor; [exact Hruns | | exact Hsw].
        eapply float_eq_trans; [exact Havg|].
        eapply float_eq_trans; [apply fadd_0_l | apply fsum_quotients].
      * split; [now rewrite <- app_assoc|].
        rewrite Hlen, length_app. simpl. lia.
    + destruct Hr as (tls & Hruns & _ & Hnone).
      destruct (Hnone eq_refl) as [Hnil _]. right. split; [reflexivity|].
      rewrite <- (py_range_unit nr), Hnil. reflexivity.
Qed.




(** C4: when the sweep returns, it has recorded one value for each of the
    13 widths, and the value for a width is the mean, over [num_runs] = 10
    runs, of the accepted test losses: each run's attempts with a loss
    above 15 were discarded and training was redone, and the first loss
    not above 15 was kept.  A loss above the threshold raises nothing: any
    exception the sweep ends with was raised by a training call. *)
Theorem sweep_records_mean_of_accepted fuel w :
  (forall losses params w',
     sweep get_test_loss_ fuel w = Done (Ok (losses, params)) w' ->
     swept 10 10 (py_range 1 250 20) w losses w' /\
     length losses = 13 /\ length params = 13) /\
  (forall e w',
     sweep get_test_loss_ fuel w = Done (Raise e) w' ->
     raised_by_training get_test_loss_ e).
Proof.
  unfold sweep.
  pose proof (sizes_loop_result fuel 10 10 (py_range 1 250 20) ([], []) w) as H.
  split.
  - intros losses params w' E. rewrite E in H.
    destruct H as (avgs & Hsw & -> & Hlen). cbn [fst snd app length] in *.
    split; [exact Hsw|]. split; [|exact Hlen].
    clear - Hsw. change 13 with (length (py_range 1 250 20)).
    induction Hsw; simpl; congruence.
  - intros e w' E. rewrite E in H. destruct H as [H|[_ H]]; [exact H | discriminate].
Qed.


End SweepFacts.


Lemma sweep_records_mean_of_accepted_witness :
  (exists losses params w',
     sweep sample_training 5 cycling_world = Done (Ok (losses, params)) w' /\
     length losses = 13) /\
  (exists e w',
     sweep_cell sample_sqrt [sample_short_row] 0 sample_world = Done (Raise e) w' /\
     raised_by_training (get_test_loss_float sample_sqrt [sample_short_row]) e).
Proof.
  split.
  - destruct (sweep_records_mean_of_accepted sample_training 5 cycling_world)
      as [Hok _].
    pose (r := sweep sample_training 5 cycling_world).
    assert (E : sweep sample_training 5 cycling_world = r) by reflexivity.
    vm_compute in r. subst r.
    eexists. eexists. eexists. split; [exact E|].
    exact (proj1 (proj2 (Hok _ _ _ E))).
  - destruct (sweep_records_mean_of_accepted
                (get_test_loss_float sample_sqrt [sample_short_row]) 0
                sample_world) as [_ Hraise].
    pose (r := sweep_cell sample_sqrt [sample_short_row] 0 sample_world).
    assert (E : sweep_cell sample_sqrt [sample_short_row] 0 sample_world = r)
      by reflexivity.
    vm_compute in r. subst r.
    eexists. eexists. split; [exact E|]. exact (Hraise _ _ E).
Defined.


End ImplicitRegFacts.

(* ================================================================== *)
(** * The residual block: where it returns and what it raises          *)
(* ================================================================== *)

Module Demo05Edge.
Import Torch TorchFacts Demo05 Demo05Facts.

Lemma add__same_shape_ok out x :
  shape out = shape x -> exists y, add_ out x = Ok y /\ shape y = shape out.
Proof.
  intros H. unfold add_. rewrite <- H, infer_size_refl, list_eqb_refl.
  eexists. split; reflexivity.
Qed.

(** The padded block of at least one channel returns on every 4-D input
    of its channel count with non-empty height and width and not exactly
    one value per channel. *)
Lemma padded_forward_returns fs blk C x B H W w :
  configured blk C 1 -> 1 <= C ->
  shape x = [B; C; H; W] -> 1 <= H -> 1 <= W -> B * (H * W) <> 1 ->
  exists y w', forward fs blk x w = (Ok y, w') /\ shape y = [B; C; H; W].
Proof.
  intros (Hc1 & Hc2 & Hb1 & Hb2) HC Hx HH HW Hn.
  destruct Hc1 as (Hi1 & Ho1 & Hk1 & Hp1).
  destruct Hc2 as (Hi2 & Ho2 & Hk2 & Hp2).
  destruct (Conv2d_forward_ok (conv1 blk) x B C H W Hx) as (c1 & E1 & Hs1 & _);
    [lia | congruence | rewrite Hk1, Hp1; lia | rewrite Hk1, Hp1; lia |].
  rewrite Ho1, Hk1, Hp1 in Hs1.
  replace (H + 2 * 1 - (3 - 1) - 1 + 1) with H in Hs1 by lia.
  replace (W + 2 * 1 - (3 - 1) - 1 + 1) with W in Hs1 by lia.
  destruct (BatchNorm2d_forward_ok fs (bn1 blk) c1 B C H W Hs1)
    as (n1 & E2 & Hs2 & _); [congruence | exact Hn |].
  destruct (Conv2d_forward_ok (conv2 blk) (relu n1) B C H W)
    as (c2 & E3 & Hs3 & _);
    [rewrite relu_shape; exact Hs2 | lia | congruence
    | rewrite Hk2, Hp2; lia | rewrite Hk2, Hp2; lia |].
  rewrite Ho2, Hk2, Hp2 in Hs3.
  replace (H + 2 * 1 - (3 - 1) - 1 + 1) with H in Hs3 by lia.
  replace (W + 2 * 1 - (3 - 1) - 1 + 1) with W in Hs3 by lia.
  destruct (BatchNorm2d_forward_ok fs (bn2 blk) c2 B C H W Hs3)
    as (pre & E4 & Hs4 & _); [congruence | exact Hn |].
  destruct (add__same_shape_ok pre x) as (a & Ea & Hsa); [congruence|].
  unfold forward.
  rewrite (bind_lift_ok _ _ _ _ E1), (bind_lift_ok _ _ _ _ E2).
  unfold bind at 1. unfold ret at 1. unfold bind at 1. unfold print at 1.
  rewrite (bind_lift_ok _ _ _ _ E3), (bind_lift_ok _ _ _ _ E4).
  unfold bind at 1. unfold print at 1.
  rewrite (bind_lift_ok _ _ _ _ Ea). unfold bind, ret.
  eexists. eexists. split; [reflexivity|]. rewrite relu_shape. congruence.
Qed.

(** X2: a padded block without a channel returns on no input; for a block of
    C >= 1 channels the inputs on which it returns are exactly the 4-D
    ones of its channel count, with non-empty height and width, other than
    a single value per channel. *)
Theorem padded_forward_domain fs C w0 :
  exists blk w0',
    BuildingBlock_init fs C w0 = (Ok blk, w0') /\
    forall x w,
      (exists y w', forward fs blk x w = (Ok y, w')) <->
      (1 <= C /\
       exists B H W,
         shape x = [B; C; H; W] /\ 1 <= H /\ 1 <= W /\ B * (H * W) <> 1).
Proof.
  destruct (BuildingBlock_init_configured fs C w0) as (blk & w0' & Einit & Hcfg & _).
  exists blk, w0'. split; [exact Einit|]. intros x w. split.
  - intros (y & w' & E). apply forward_ok_inv in E.
    destruct E as (c1 & n1 & c2 & n2 & a & E1 & E2 & _).
    destruct Hcfg as ((Hi1 & Ho1 & Hk1 & Hp1) & _).
    apply Conv2d_forward_inv in E1.
    destruct E1 as (lead & C1 & H & W & Hx & Hlead & HO & HC & HH & HW & Hs1).
    apply BatchNorm2d_forward_inv in E2.
    destruct E2 as (B & C' & H' & W' & Hs1' & _ & Hn & _).
    rewrite Hk1, Hp1 in *. rewrite Hs1' in Hs1.
    destruct lead as [|b [|b' lead]]; simpl in Hs1, Hlead; try discriminate;
      try lia.
    injection Hs1 as -> -> -> ->.
    split; [lia|].
    exists b, H, W. simpl in Hx.
    split; [congruence|]. split; [lia|]. split; [lia|].
    intros Hone. apply Hn.
    replace (H + 2 - 2 - 1 + 1) with H by lia.
    replace (W + 2 - 2 - 1 + 1) with W by lia. exact Hone.
  - intros (HC & B & H & W & Hx & HH & HW & Hn).
    destruct (padded_forward_returns fs blk C x B H W w Hcfg HC Hx HH HW Hn)
      as (y & w' & E & _).
    exists y, w'. exact E.
Qed.

(** X3: what either block raises before it prints anything.  An input that
    is neither 3-D nor 4-D is refused first.  A block without a channel
    then refuses every 3-D or 4-D input: its weight has no output channel.
    A block of C >= 1 channels refuses a channel count other than its own,
    then a height or width too small for the kernel; an unbatched (3-D)
    input of its channel count passes the convolution and is refused by
    the normalisation. *)
Theorem forward_rejects fs blk C p x w :
  configured blk C p ->
  (length (shape x) <> 3 -> length (shape x) <> 4 ->
   forward fs blk x w = (Raise (RuntimeError_conv_input_rank (length (shape x))), w)) /\
  (C = 0 -> length (shape x) = 3 \/ length (shape x) = 4 ->
   forward fs blk x w = (Raise (RuntimeError_weight_dim0 [0; 0; 3; 3]), w)) /\
  (1 <= C ->
   (forall B C' H W,
      shape x = [B; C'; H; W] -> C' <> C ->
      forward fs blk x w = (Raise (RuntimeError_conv_channels C C'), w)) /\
   (forall B H W,
      shape x = [B; C; H; W] -> H + 2 * p < 3 \/ W + 2 * p < 3 ->
      forward fs blk x w =
        (Raise (RuntimeError_kernel_size (H + 2 * p) (W + 2 * p) 3), w)) /\
   (forall H W,
      shape x = [C; H; W] -> 3 <= H + 2 * p -> 3 <= W + 2 * p ->
      forward fs blk x w = (Raise (ValueError_expected_4D 3), w))).
Proof.
  intros ((Hi1 & Ho1 & Hk1 & Hp1) & _).
  split; [|split].
  - intros H3 H4. unfold forward. apply bind_lift_raise.
    unfold Conv2d_forward.
    destruct (shape x) as [|a [|b [|c [|d [|e l]]]]]; simpl in *;
      try reflexivity; lia.
  - intros -> Hrank. unfold forward. apply bind_lift_raise.
    unfold Conv2d_forward, conv2d_core. rewrite Ho1, Hi1, Hk1.
    destruct (shape x) as [|a [|b [|c [|d [|e l]]]]]; simpl in Hrank;
      try lia; reflexivity.
  - intros HC.
    assert (HO : (out_channels (conv1 blk) =? 0) = false)
      by (rewrite Ho1; apply Nat.eqb_neq; lia).
    split; [|split].
    + intros B C' H W Hx Hne. unfold forward. apply bind_lift_raise.
      unfold Conv2d_forward, conv2d_core. rewrite Hx, HO, Hi1.
      replace (C' =? C) with false by (symmetry; now apply Nat.eqb_neq).
      reflexivity.
    + intros B H W Hx Hsmall. unfold forward. apply bind_lift_raise.
      unfold Conv2d_forward, conv2d_core. rewrite Hx, HO, Hi1, Hk1, Hp1.
      rewrite Nat.eqb_refl. cbn [negb].
      destruct (H + 2 * p <? 3) eqn:EH; [reflexivity|].
      destruct (W + 2 * p <? 3) eqn:EW; [reflexivity|].
      apply Nat.ltb_ge in EH, EW. lia.
    + intros H W Hx HH HW. unfold forward.
      destruct (conv2d_core_ok (conv1 blk) x [] 1 C H W)
        as (c1 & E1 & Hs1 & _);
        [rewrite Ho1; exact HC | now rewrite Hi1
        | rewrite Hk1, Hp1; exact HH | rewrite Hk1, Hp1; exact HW |].
      assert (E1' : Conv2d_forward (conv1 blk) x = Ok c1)
        by (unfold Conv2d_forward; rewrite Hx; exact E1).
      rewrite (bind_lift_ok _ _ _ _ E1'). apply bind_lift_raise.
      unfold BatchNorm2d_forward. rewrite Hs1. reflexivity.
Qed.

Lemma forward_rejects_witness :
  configured (sample_block 1) 1 1 /\
  configured empty_block 0 1 /\
  forward sample_sqrt (sample_block 1) (full [4; 4] 1%Q) sample_world
    = (Raise (RuntimeError_conv_input_rank 2), sample_world) /\
  forward sample_sqrt empty_block no_channels sample_world
    = (Raise (RuntimeError_weight_dim0 [0; 0; 3; 3]), sample_world) /\
  forward sample_sqrt (sample_block 1) (full [2; 3; 4; 4] 1%Q) sample_world
    = (Raise (RuntimeError_conv_channels 1 3), sample_world) /\
  forward sample_sqrt (sample_block 0) (full [2; 1; 2; 5] 1%Q) sample_world
    = (Raise (RuntimeError_kernel_size 2 5 3), sample_world) /\
  forward sample_sqrt (sample_block 1) (full [1; 4; 4] 1%Q) sample_world
    = (Raise (ValueError_expected_4D 3), sample_world).
Proof.
  assert (H1 : configured (sample_block 1) 1 1) by (repeat split; reflexivity).
  assert (H0 : configured (sample_block 0) 1 0) by (repeat split; reflexivity).
  assert (He : configured empty_block 0 1) by (repeat split; reflexivity).
  assert (L1 : 1 <= 1) by (apply Nat.leb_le; reflexivity).
  split; [exact H1|]. split; [exact He|].
  split.
  { destruct (forward_rejects sample_sqrt (sample_block 1) 1 1
                (full [4; 4] 1%Q) sample_world H1) as (Hrank & _).
    apply Hrank; discriminate. }
  split.
  { destruct (forward_rejects sample_sqrt empty_block 0 1
                no_channels sample_world He) as (_ & Hw & _).
    apply Hw; [reflexivity | right; reflexivity]. }
  split.
  { destruct (forward_rejects sample_sqrt (sample_block 1) 1 1
                (full [2; 3; 4; 4] 1%Q) sample_world H1) as (_ & _ & H).
    destruct (H L1) as (Hch & _).
    apply (Hch 2 3 4 4 eq_refl). discriminate. }
  split.
  { destruct (forward_rejects sample_sqrt (sample_block 0) 1 0
                (full [2; 1; 2; 5] 1%Q) sample_world H0) as (_ & _ & H).
    destruct (H L1) as (_ & Hk & _).
    apply (Hk 2 2 5 eq_refl). left. apply Nat.ltb_lt. reflexivity. }
  destruct (forward_rejects sample_sqrt (sample_block 1) 1 1
              (full [1; 4; 4] 1%Q) sample_world H1) as (_ & _ & H).
  destruct (H L1) as (_ & _ & H3).
  apply (H3 4 4 eq_refl); apply Nat.leb_le; reflexivity.
Defined.

End Demo05Edge.

(* ================================================================== *)
(** * The dataset, the model and the training call at their edges      *)
(* ================================================================== *)

Module ImplicitRegEdge.
Import Torch TorchFacts ImplicitReg ImplicitRegFacts.

(** ** [__getitem__] *)

Lemma numbers_fail l :
  forallb is_num l = false -> numbers l = Raise TypeError_not_numeric.
Proof.
  induction l as [|v l IH]; simpl; [discriminate|].
  destruct v as [s|q]; [reflexivity|]. simpl. intros H. now rewrite IH.
Qed.

(** A row of at least nine cells, taken apart. *)
Lemma long_row_inv (row : list pyval) :
  9 <= length row ->
  exists r0 l7 r8 rest,
    row = r0 :: l7 ++ r8 :: rest /\ length l7 = 7 /\
    py_slice row 1 8 = l7 /\ py_slice row 8 9 = [r8] /\
    py_slice row 1 9 = l7 ++ [r8] /\
    nth_error row 0 = Some r0 /\ nth_error row 8 = Some r8.
Proof.
  intros H.
  destruct row as [|r0 [|r1 [|r2 [|r3 [|r4 [|r5 [|r6 [|r7 [|r8 rest]]]]]]]]];
    simpl in H; try lia.
  exists r0, [r1; r2; r3; r4; r5; r6; r7], r8, rest. repeat split.
Qed.

(** X4: when [__getitem__] raises on the layout of the frame: an index past
    the end or a row of fewer than nine cells raises IndexError; in a row
    of at least nine cells a feature cell (second to eighth) that is not
    a number raises TypeError, whatever the first and the ninth cell
    are. *)
Theorem getitem_cases ds idx :
  (nth_error (ds_data ds) idx = None ->
   AbaloneData_getitem ds idx = Raise IndexError) /\
  (forall row,
     nth_error (ds_data ds) idx = Some row -> length row < 9 ->
     AbaloneData_getitem ds idx = Raise IndexError) /\
  (forall row,
     nth_error (ds_data ds) idx = Some row -> 9 <= length row ->
     forallb is_num (py_slice row 1 8) = false ->
     AbaloneData_getitem ds idx = Raise TypeError_not_numeric).
Proof.
  unfold AbaloneData_getitem, py_index. split; [|split].
  - intros ->. reflexivity.
  - intros row -> Hlen. cbn [rbind].
    destruct (nth_error row 0) as [r0|]; cbn [rbind]; [|reflexivity].
    destruct (nth_error row 8) as [r8|] eqn:E8; [|reflexivity].
    assert (8 < length row) by (apply nth_error_Some; congruence). lia.
  - intros row -> Hlen Hnum. cbn [rbind].
    destruct (long_row_inv row Hlen)
      as (r0 & l7 & r8 & rest & _ & _ & H18 & _ & H19 & E0 & E8).
    rewrite E0, E8, H18. cbn [rbind]. rewrite H18 in Hnum.
    unfold tensor_of_list.
    assert (En : forall b, numbers ([PyNum b] ++ l7) = Raise TypeError_not_numeric)
      by (intros b; cbn [app numbers]; now rewrite (numbers_fail l7 Hnum)).
    destruct (eq_str r0 "M"); rewrite En; reflexivity.
Qed.

Lemma getitem_cases_witness :
  AbaloneData_getitem (mkAbaloneData sample_odd_frame) 3 = Raise IndexError /\
  AbaloneData_getitem (mkAbaloneData sample_odd_frame) 0 = Raise IndexError /\
  AbaloneData_getitem (mkAbaloneData sample_odd_frame) 1
    = Raise TypeError_not_numeric.
Proof.
  split.
  { destruct (getitem_cases (mkAbaloneData sample_odd_frame) 3) as (H & _).
    apply H. reflexivity. }
  split.
  { destruct (getitem_cases (mkAbaloneData sample_odd_frame) 0) as (_ & H & _).
    apply (H sample_short_row eq_refl). apply Nat.ltb_lt. reflexivity. }
  destruct (getitem_cases (mkAbaloneData sample_odd_frame) 1) as (_ & _ & H).
  apply (H sample_text_row eq_refl); [apply Nat.leb_le|]; reflexivity.
Defined.

(** ** [Model.forward] *)

(** X5: a batch whose samples do not have 8 features is refused by the first
    layer; and the network treats every sample on its own: row [r] of the
    output on a batch is the output on sample [r] alone. *)
Theorem Model_forward_per_sample W m w1 w2 x :
  two_layer W m w1 w2 ->
  (forall n d, shape x = [n; d] -> d <> 8 ->
               Model_forward m x = Raise (RuntimeError_mat_shapes d 8)) /\
  (forall n r, shape x = [n; 8] -> r < n ->
     exists out,
       Model_forward m x = Ok out /\
       Model_forward m (sample_row x r) = Ok (mkTensor [1; 1] [nth r (data out) 0%Q])).
Proof.
  intros Hm. split.
  - intros n d Hx Hd. destruct Hm as (Hl & [Hs1 _] & _).
    unfold Model_forward. rewrite Hl. cbn [Sequential_forward Layer_forward].
    unfold Linear_forward. cbn [weight]. rewrite Hs1, Hx. cbn [rev app].
    replace (d =? 8) with false by (symmetry; now apply Nat.eqb_neq).
    reflexivity.
  - intros n r Hx Hr. exists (two_layer_net W w1 w2 x n).
    split; [apply (forward_two_layer W m w1 w2 x n Hm Hx)|].
    rewrite (forward_two_layer W m w1 w2 (sample_row x r) 1 Hm eq_refl).
    unfold two_layer_net. cbn [data seq map]. do 3 f_equal.
    rewrite (nth_map_seq _ n r 0%Q Hr). f_equal.
    unfold pre_activation. apply sum_upto_ext. intros j _. f_equal.
    unfold hidden_unit. f_equal. apply sum_upto_ext. intros k Hk. f_equal.
    unfold item, sample_row. cbn [data].
    rewrite nth_firstn, nth_skipn. cbn [Nat.mul Nat.add].
    replace (k <? 8) with true by (symmetry; now apply Nat.ltb_lt).
    reflexivity.
Qed.

Lemma Model_forward_per_sample_witness :
  two_layer 2 sample_model (full [2; 8] (1 # 2)) (mkTensor [1; 2] [1%Q; (-3)%Q]) /\
  Model_forward sample_model (full [3; 5] 1%Q) = Raise (RuntimeError_mat_shapes 5 8) /\
  exists out,
    Model_forward sample_model (full [3; 8] 1%Q) = Ok out /\
    Model_forward sample_model (sample_row (full [3; 8] 1%Q) 2)
    = Ok (mkTensor [1; 1] [nth 2 (data out) 0%Q]).
Proof.
  assert (Hm : two_layer 2 sample_model (full [2; 8] (1 # 2))
                 (mkTensor [1; 2] [1%Q; (-3)%Q]))
    by (repeat split; reflexivity).
  split; [exact Hm|].
  split.
  { destruct (Model_forward_per_sample 2 sample_model _ _ (full [3; 5] 1%Q) Hm)
      as [Hbad _].
    apply (Hbad 3 5 eq_refl). discriminate. }
  destruct (Model_forward_per_sample 2 sample_model _ _ (full [3; 8] 1%Q) Hm)
    as [_ Hrow].
  apply (Hrow 3 2 eq_refl). apply Nat.ltb_lt. reflexivity.
Defined.

(** ** The loaders *)

Lemma chunks_fuel_bounded fuel bs l :
  Forall (fun c => length c <= bs) (chunks_fuel fuel bs l).
Proof.
  revert l. induction fuel as [|fuel IH]; intros l; [constructor|].
  destruct l as [|a l']; [constructor|]. cbn [chunks_fuel].
  constructor; [apply firstn_le_length | apply IH].
Qed.

Lemma chunks_fuel_exact bs k :
  0 < bs ->
  forall fuel l,
    length l = k * bs -> length l <= fuel ->
    length (chunks_fuel fuel bs l) = k /\
    Forall (fun c => length c = bs) (chunks_fuel fuel bs l).
Proof.
  intros Hbs. induction k as [|k IH]; intros fuel l Hl Hf.
  - destruct l; [|discriminate]. destruct fuel; split; try reflexivity; constructor.
  - destruct l as [|a l']; [simpl in Hl; lia|].
    destruct fuel as [|fuel]; [simpl in Hf; lia|].
    cbn [chunks_fuel].
    destruct (IH fuel (skipn bs (a :: l'))) as [Hk Hall].
    { rewrite length_skipn, Hl. simpl. lia. }
    { rewrite length_skipn. cbn [length] in *. lia. }
    split; [simpl; now rewrite Hk|].
    constructor; [|exact Hall]. rewrite length_firstn, Hl. simpl. lia.
Qed.

(** X6: one pass over the training loader of a non-empty frame: the batches
    are non-empty groups of at most 1000 indices which, put end to end,
    are a permutation of all training rows, so every row is used exactly
    once.  On a frame of 3000 rows or more there are exactly three batches
    of 1000. *)
Theorem train_loader_batches csv w :
  1 <= length csv ->
  exists batches w1,
    DataLoader_iter (train_loader csv) w = (Ok batches, w1) /\
    Permutation (concat batches) (seq 0 (Nat.min 3000 (length csv))) /\
    Forall (fun b => 1 <= length b <= 1000) batches /\
    (3000 <= length csv ->
     length batches = 3 /\ Forall (fun b => length b = 1000) batches).
Proof.
  intros _.
  destruct (train_loader_iter csv w) as (perm & w1 & E & Hperm & _).
  cbn [batch_size train_loader] in E.
  exists (chunks 1000 perm), w1. split; [exact E|].
  destruct (chunks_spec 1000 perm) as [Hc Hne]; [lia|].
  assert (Hn : AbaloneData_len (dataset (train_loader csv))
               = Nat.min 3000 (length csv)).
  { unfold AbaloneData_len. cbn [dataset train_loader ds_data].
    rewrite py_slice_length. lia. }
  rewrite Hn in Hperm.
  split; [now rewrite Hc|]. split.
  - pose proof (chunks_fuel_bounded (length perm) 1000 perm) as Hb.
    fold (chunks 1000 perm) in Hb.
    rewrite Forall_forall in *. intros b Hin. split; [|now apply Hb].
    destruct (Hne b Hin) as [Hnil _]. destruct b; [congruence | simpl; lia].
  - intros Hlen. apply (chunks_fuel_exact 1000 3); [lia | | lia].
    rewrite (Permutation_length Hperm), length_seq. lia.
Qed.

Lemma train_loader_batches_witness :
  3000 <= length sample_csv /\
  exists batches w1,
    DataLoader_iter (train_loader sample_csv) sample_world = (Ok batches, w1) /\
    length batches = 3.
Proof.
  assert (H : 3000 <= length sample_csv)
    by (apply Nat.leb_le; vm_compute; reflexivity).
  split; [exact H|].
  destruct (train_loader_batches sample_csv sample_world)
    as (batches & w1 & E & _ & _ & H3); [lia|].
  exists batches, w1. split; [exact E | exact (proj1 (H3 H))].
Defined.

(** ** What [get_test_loss] leaves alone *)

Lemma only_advances_refl w : only_advances w w.
Proof. repeat split. apply Nat.le_refl. Qed.

Lemma only_advances_trans w1 w2 w3 :
  only_advances w1 w2 -> only_advances w2 w3 -> only_advances w1 w3.
Proof.
  intros (A1 & A2 & A3 & A4 & A5) (B1 & B2 & B3 & B4 & B5).
  repeat split; try congruence. lia.
Qed.

Lemma draw_advances tape n w : only_advances w (snd (draw tape n w)).
Proof. repeat split. simpl. lia. Qed.

Lemma fisher_yates_advances n :
  forall l w, only_advances w (snd (fisher_yates n l w)).
Proof.
  induction n as [|n IH]; intros l w; [apply only_advances_refl|].
  destruct l as [|a [|b r]]; try apply only_advances_refl.
  cbn [fisher_yates]. unfold bind at 1. rewrite draw_raw_eq.
  set (w1 := mkWorld (stdout w) (advance (rng w) 1)).
  assert (H1 : only_advances w w1) by (repeat split; simpl; lia).
  destruct (random_raw (rng w) (cursor (rng w)) mod length (a :: b :: r))
    as [|z'].
  - unfold bind. specialize (IH (b :: r) w1).
    destruct (fisher_yates n (b :: r) w1) as [[tl|e] w2]; cbn [snd] in *;
      eapply only_advances_trans; eassumption.
  - unfold bind.
    specialize (IH (firstn z' (b :: r) ++ a :: skipn (S z') (b :: r)) w1).
    destruct (fisher_yates n _ w1) as [[tl|e] w2]; cbn [snd] in *;
      eapply only_advances_trans; eassumption.
Qed.

Lemma DataLoader_iter_advances dl w :
  only_advances w (snd (DataLoader_iter dl w)).
Proof.
  unfold DataLoader_iter. destruct (shuffle dl).
  - unfold bind, randperm.
    pose proof (fisher_yates_advances (AbaloneData_len (dataset dl))
                  (seq 0 (AbaloneData_len (dataset dl))) w) as H.
    destruct (fisher_yates _ _ w) as [[p|e] w1]; exact H.
  - apply only_advances_refl.
Qed.

Lemma train_epochs_advances csv lr epochs :
  forall m w, only_advances w (snd (train_epochs csv lr epochs m w)).
Proof.
  induction epochs as [|k IH]; intros m w; cbn [train_epochs];
    [apply only_advances_refl|].
  unfold bind at 1.
  pose proof (DataLoader_iter_advances (train_loader csv) w) as H1.
  destruct (DataLoader_iter (train_loader csv) w) as [[batches|e] w1];
    cbn [snd] in *; [|exact H1].
  unfold bind at 1, lift.
  destruct (train_batches _ _ _ _ _) as [[m1 tl]|e]; cbn [snd]; [|exact H1].
  eapply only_advances_trans; [exact H1 | apply IH].
Qed.

Lemma first_batch_advances dl w : only_advances w (snd (first_batch dl w)).
Proof.
  unfold first_batch. unfold bind.
  pose proof (DataLoader_iter_advances dl w) as H.
  destruct (DataLoader_iter dl w) as [[[|b bs]|e] w1]; exact H.
Qed.

Lemma get_test_loss_advances fs csv W epochs w :
  only_advances w (snd (get_test_loss fs csv W epochs w)).
Proof.
  unfold get_test_loss.
  destruct (Model_init_two_layer fs W w) as (m0 & w0 & a1 & a2 & Ei & _ & _).
  assert (H0 : only_advances w w0).
  { revert Ei. unfold Model_init, Linear_init, uniform_, bind, ret, draw.
    cbn [fst snd]. intros E. injection E as _ <-.
    repeat split. cbn [rng cursor advance]. lia. }
  unfold bind at 1. rewrite Ei. unfold bind at 1.
  pose proof (train_epochs_advances csv (1 # 100) epochs m0 w0) as H1.
  destruct (train_epochs csv (1 # 100) epochs m0 w0) as [[m|e] w1];
    cbn [snd] in *; [|eapply only_advances_trans; eassumption].
  assert (H01 : only_advances w w1) by (eapply only_advances_trans; eassumption).
  unfold bind at 1.
  pose proof (first_batch_advances (test_loader csv) w1) as H2.
  destruct (first_batch (test_loader csv) w1) as [[[xt yt]|e] w2];
    cbn [snd] in *; [|eapply only_advances_trans; eassumption].
  assert (H02 : only_advances w w2) by (eapply only_advances_trans; eassumption).
  unfold bind at 1, lift. cbn [fst snd].
  destruct (Model_forward m xt) as [out|e]; [|exact H02].
  unfold bind at 1.
  destruct (MSELoss (squeeze out) yt) as [loss|e]; exact H02.
Qed.

(** X7: whether it returns or raises, [get_test_loss] prints nothing and
    leaves the generator's streams as they were: all it changes in the
    world is the generator's position, and that only forwards. *)
Theorem get_test_loss_only_advances fs csv W epochs w :
  only_advances w (snd (get_test_loss fs csv W epochs w)).
Proof. apply get_test_loss_advances. Qed.

(** X8: on a well-laid-out, non-empty frame of at most 3000 rows the test
    part is empty: the call trains, and then raises StopIteration at
    [next(iter(..))]. *)
Theorem get_test_loss_short_frame fs csv W epochs w :
  forallb row_layout csv = true -> 1 <= length csv -> length csv <= 3000 ->
  exists w', get_test_loss fs csv W epochs w = (Raise StopIteration, w').
Proof.
  intros Hcsv _ Hlen. unfold get_test_loss.
  destruct (Model_init_two_layer fs W w) as (m0 & w0 & a1 & a2 & Ei & Hm0 & _).
  destruct (train_epochs_ok csv (1 # 100) W epochs Hcsv m0 w0 a1 a2 Hm0)
    as (m & w1 & Et & _ & _).
  unfold bind at 1. rewrite Ei. unfold bind at 1. rewrite Et.
  unfold bind at 1.
  assert (Ef : first_batch (test_loader csv) w1 = (Raise StopIteration, w1)).
  { unfold first_batch, DataLoader_iter. cbn [shuffle test_loader].
    rewrite (test_split_length csv).
    replace (Nat.min 1000 (length csv - 3000)) with 0 by lia. reflexivity. }
  rewrite Ef. eexists. reflexivity.
Qed.

Lemma get_test_loss_short_frame_witness :
  forallb row_layout sample_frame = true /\
  1 <= length sample_frame <= 3000 /\
  exists w',
    get_test_loss sample_sqrt sample_frame 2 10 sample_world
    = (Raise StopIteration, w').
Proof.
  assert (H1 : forallb row_layout sample_frame = true) by reflexivity.
  assert (H2 : length sample_frame <= 3000) by (apply Nat.leb_le; reflexivity).
  assert (H0 : 1 <= length sample_frame) by (apply Nat.leb_le; reflexivity).
  split; [exact H1|]. split; [exact (conj H0 H2)|].
  exact (get_test_loss_short_frame sample_sqrt sample_frame 2 10 sample_world
           H1 H0 H2).
Defined.

(** ** The network that cannot learn *)

Lemma Qmult_nonneg_nonpos (a b : Q) : (0 <= a -> b <= 0 -> a * b <= 0)%Q.
Proof. intros Ha Hb. nra. Qed.

Lemma sumQ_nonpos l : Forall (fun v => (v <= 0)%Q) l -> (sumQ l <= 0)%Q.
Proof.
  induction 1 as [|v l Hv _ IH]; [apply Qle_refl|].
  cbn [sumQ fold_right]. fold (sumQ l). lra.
Qed.

Lemma sumQ_zero l : Forall (fun v => (v == 0)%Q) l -> (sumQ l == 0)%Q.
Proof.
  induction 1 as [|v l Hv _ IH]; [reflexivity|].
  cbn [sumQ fold_right]. fold (sumQ l). rewrite Hv, IH. reflexivity.
Qed.

Lemma sum_upto_nonpos n f : (forall k, (f k <= 0)%Q) -> (sum_upto n f <= 0)%Q.
Proof.
  intros H. apply sumQ_nonpos. apply Forall_forall. intros v Hin.
  apply in_map_iff in Hin as (k & <- & _). apply H.
Qed.

Lemma sum_upto_zero n f : (forall k, (f k == 0)%Q) -> (sum_upto n f == 0)%Q.
Proof.
  intros H. apply sumQ_zero. apply Forall_forall. intros v Hin.
  apply in_map_iff in Hin as (k & <- & _). apply H.
Qed.

Lemma item_nonneg t i :
  Forall (fun v => (0 <= v)%Q) (data t) -> (0 <= item t i)%Q.
Proof.
  intros H. unfold item.
  destruct (nth_in_or_default i (data t) 0%Q) as [Hin| ->]; [|apply Qle_refl].
  rewrite Forall_forall in H. now apply H.
Qed.

Lemma item_nonpos t i :
  Forall (fun v => (v <= 0)%Q) (data t) -> (item t i <= 0)%Q.
Proof.
  intros H. unfold item.
  destruct (nth_in_or_default i (data t) 0%Q) as [Hin| ->]; [|apply Qle_refl].
  rewrite Forall_forall in H. now apply H.
Qed.

Lemma item_zero t i :
  Forall (fun v => (v == 0)%Q) (data t) -> (item t i == 0)%Q.
Proof.
  intros H. unfold item.
  destruct (nth_in_or_default i (data t) 0%Q) as [Hin| ->]; [|reflexivity].
  rewrite Forall_forall in H. now apply H.
Qed.

(** A linear layer without bias sends non-negative inputs through
    non-positive weights to non-positive outputs. *)
Lemma Linear_forward_nonpos m x h :
  bias m = None ->
  Forall (fun v => (0 <= v)%Q) (data x) ->
  Forall (fun v => (v <= 0)%Q) (data (weight m)) ->
  Linear_forward m x = Ok h -> Forall (fun v => (v <= 0)%Q) (data h).
Proof.
  intros Hb Hx Hw. unfold Linear_forward.
  destruct (shape (weight m)) as [|outf [|inf [|? ?]]]; try discriminate;
    destruct (rev (shape x)) as [|last lead]; try discriminate.
  destruct (last =? inf); [|discriminate].
  intros E. injection E as <-. cbn [data].
  apply Forall_forall. intros v Hin.
  apply in_flat_map in Hin as (r & _ & Hin).
  apply in_map_iff in Hin as (o & <- & _).
  unfold add_bias. rewrite Hb. apply sum_upto_nonpos. intros k.
  apply Qmult_nonneg_nonpos; [now apply item_nonneg | now apply item_nonpos].
Qed.

Lemma relu_data_nonneg t : Forall (fun v => (0 <= v)%Q) (data (relu t)).
Proof.
  unfold relu. cbn [data]. apply Forall_forall. intros v Hin.
  apply in_map_iff in Hin as (u & <- & _). apply relu_scalar_nonneg.
Qed.

Lemma relu_data_nonpos t :
  Forall (fun v => (v <= 0)%Q) (data t) ->
  data (relu t) = repeat 0%Q (length (data (relu t))).
Proof.
  unfold relu. cbn [data]. rewrite length_map.
  induction 1 as [|v l Hv _ IH]; [reflexivity|].
  cbn [map length repeat]. rewrite (relu_scalar_nonpos v Hv). now f_equal.
Qed.

Lemma map2_Forall (P : Q -> Prop) f a b :
  (forall u v, In u a -> In v b -> P (f u v)) -> Forall P (map2 f a b).
Proof.
  intros H. unfold map2. apply Forall_forall. intros v Hin.
  apply in_map_iff in Hin as ([u g] & <- & Hin). cbn [fst snd].
  apply H; [eapply in_combine_l | eapply in_combine_r]; eassumption.
Qed.

(** No gradient passes a ReLU whose input is nowhere positive. *)
Lemma relu_backward_dead h g :
  Forall (fun v => (v <= 0)%Q) (data h) ->
  Forall (fun v => (v == 0)%Q) (data (relu_backward h g)).
Proof.
  intros H. unfold relu_backward. cbn [data]. apply map2_Forall.
  intros u v Hu _. rewrite Forall_forall in H. apply H in Hu.
  apply Qle_bool_iff in Hu. rewrite Hu. reflexivity.
Qed.

Lemma relu_backward_zero h g :
  Forall (fun v => (v == 0)%Q) (data g) ->
  Forall (fun v => (v == 0)%Q) (data (relu_backward h g)).
Proof.
  intros H. unfold relu_backward. cbn [data]. apply map2_Forall.
  intros u v _ Hv. rewrite Forall_forall in H.
  destruct (Qle_bool u 0); [reflexivity | now apply H].
Qed.

(** A zero gradient at the output of a linear layer gives zero gradients
    for its weight and for its input. *)
Lemma Linear_backward_zero m x gy outf inf :
  shape (weight m) = [outf; inf] ->
  Forall (fun v => (v == 0)%Q) (data gy) ->
  Forall (fun v => (v == 0)%Q) (data (fst (fst (Linear_backward m x gy)))) /\
  Forall (fun v => (v == 0)%Q) (data (snd (Linear_backward m x gy))).
Proof.
  intros Hw Hg. unfold Linear_backward. rewrite Hw. cbn [fst snd data].
  split; apply Forall_forall; intros v Hin;
    apply in_flat_map in Hin as (a & _ & Hin);
    apply in_map_iff in Hin as (b & <- & _);
    apply sum_upto_zero; intros r;
    rewrite (item_zero gy _ Hg); ring.
Qed.

Lemma map2_sgd_zero lr :
  forall a b,
    length b = length a -> Forall (fun v => (v == 0)%Q) b ->
    Forall2 Qeq (map2 (fun pv gv => pv - lr * gv)%Q a b) a.
Proof.
  unfold map2.
  induction a as [|pv a IH]; intros [|gv b] Hl Hz; try discriminate;
    cbn [combine map fst snd]; [constructor|].
  inversion Hz as [|? ? Hgv Hz']; subst. constructor.
  - rewrite Hgv. ring.
  - apply IH; [now injection Hl | exact Hz'].
Qed.

Lemma Forall2_Qeq_refl (a : list Q) : Forall2 Qeq a a.
Proof. induction a; constructor; [reflexivity | assumption]. Qed.

Lemma Forall2_Qeq_trans (a b c : list Q) :
  Forall2 Qeq a b -> Forall2 Qeq b c -> Forall2 Qeq a c.
Proof.
  intros H. revert c. induction H as [|x y a b Hxy _ IH]; intros c Hc;
    inversion Hc; subst; constructor.
  - etransitivity; eassumption.
  - now apply IH.
Qed.

Lemma Forall2_Qeq_nonpos (a b : list Q) :
  Forall2 Qeq a b -> Forall (fun v => (v <= 0)%Q) b ->
  Forall (fun v => (v <= 0)%Q) a.
Proof.
  induction 1 as [|x y a b Hxy _ IH]; intros Hb; [constructor|].
  inversion Hb; subst. constructor; [now rewrite Hxy | now apply IH].
Qed.

(** The gradients are zero when the result of the last linear layer is
    nowhere positive. *)
Lemma backward_flat W m w1 w2 x seed gs gx :
  two_layer W m w1 w2 ->
  (forall y1 y2,
     Linear_forward (mkLinear w1 None) x = Ok y1 ->
     Linear_forward (mkLinear w2 None) (relu y1) = Ok y2 ->
     Forall (fun v => (v <= 0)%Q) (data y2)) ->
  Sequential_backward (layers m) x seed = Ok (gs, gx) ->
  exists gw1 gw2,
    gs = [Some (gw1, None); None; Some (gw2, None); None] /\
    has_shape gw1 [W; 8] /\ has_shape gw2 [1; W] /\
    Forall (fun v => (v == 0)%Q) (data gw1) /\
    Forall (fun v => (v == 0)%Q) (data gw2).
Proof.
  intros (Hl & [Hs1 _] & [Hs2 _]) Hflat. rewrite Hl.
  cbn [Sequential_backward Layer_forward].
  destruct (Linear_forward _ x) as [y1|e] eqn:E1f; cbn [rbind]; [|discriminate].
  destruct (Linear_forward _ (relu y1)) as [y2|e] eqn:E2f; cbn [rbind];
    [|discriminate].
  destruct (seed (relu y2)) as [g|e]; cbn [rbind]; [|discriminate].
  pose proof (Hflat y1 y2 eq_refl E2f) as Hy2.
  destruct (Linear_backward_zero (mkLinear w2 None) (relu y1)
              (relu_backward y2 g) 1 W Hs2 (relu_backward_dead y2 g Hy2))
    as [Z2 Zx2].
  destruct (Linear_backward_shape (mkLinear w2 None) (relu y1)
              (relu_backward y2 g) 1 W Hs2 eq_refl) as (gw2 & gx2 & E2 & H2).
  rewrite E2 in Z2, Zx2. cbn [fst snd] in Z2, Zx2.
  rewrite E2. cbn [rbind].
  destruct (Linear_backward_zero (mkLinear w1 None) x
              (relu_backward y1 gx2) W 8 Hs1 (relu_backward_zero y1 gx2 Zx2))
    as [Z1 _].
  destruct (Linear_backward_shape (mkLinear w1 None) x
              (relu_backward y1 gx2) W 8 Hs1 eq_refl) as (gw1 & gx1 & E1 & H1).
  rewrite E1 in Z1. cbn [fst snd] in Z1.
  rewrite E1. intros E. injection E as <- _.
  exists gw1, gw2. repeat split; try apply H1; try apply H2; assumption.
Qed.

Lemma dead_forward W m w1 w2 x out :
  two_layer W m w1 w2 -> Forall (fun v => (v <= 0)%Q) (data w2) ->
  Model_forward m x = Ok out -> data out = repeat 0%Q (length (data out)).
Proof.
  intros (Hl & _ & _) Hdead. unfold Model_forward. rewrite Hl.
  cbn [Sequential_forward Layer_forward].
  destruct (Linear_forward _ x) as [y1|e]; cbn [rbind]; [|discriminate].
  destruct (Linear_forward _ (relu y1)) as [y2|e] eqn:E2; cbn [rbind];
    [|discriminate].
  intros E. injection E as <-. apply relu_data_nonpos.
  exact (Linear_forward_nonpos (mkLinear w2 None) (relu y1) y2 eq_refl
           (relu_data_nonneg y1) Hdead E2).
Qed.

(** A step on which the last linear layer's result is nowhere positive
    leaves the weights equal in value. *)
Lemma train_step_flat lr W m w1 w2 x y m' l :
  two_layer W m w1 w2 ->
  (forall y1 y2,
     Linear_forward (mkLinear w1 None) x = Ok y1 ->
     Linear_forward (mkLinear w2 None) (relu y1) = Ok y2 ->
     Forall (fun v => (v <= 0)%Q) (data y2)) ->
  train_step lr m x y = Ok (m', l) ->
  exists w1' w2',
    two_layer W m' w1' w2' /\
    Forall2 Qeq (data w1') (data w1) /\ Forall2 Qeq (data w2') (data w2).
Proof.
  intros Hm Hdead. unfold train_step.
  destruct (Model_forward m x) as [out|e]; cbn [rbind]; [|discriminate].
  destruct (MSELoss (squeeze out) y) as [loss|e]; cbn [rbind]; [|discriminate].
  destruct (Sequential_backward _ _ _) as [[gs gx]|e] eqn:Eb; cbn [rbind];
    [|discriminate].
  intros E. injection E as <- _. cbn [fst].
  destruct (backward_flat W m w1 w2 x _ gs gx Hm Hdead Eb)
    as (gw1 & gw2 & -> & G1 & G2 & Z1 & Z2).
  exists (sgd_update lr w1 gw1), (sgd_update lr w2 gw2).
  split; [apply SGD_step_two_layer; assumption|].
  destruct Hm as (_ & [_ L1] & [_ L2]).
  unfold sgd_update. cbn [data].
  split; apply map2_sgd_zero; try assumption.
  - now rewrite (proj2 G1), L1.
  - now rewrite (proj2 G2), L2.
Qed.

Lemma train_step_dead lr W m w1 w2 x y m' l :
  two_layer W m w1 w2 -> Forall (fun v => (v <= 0)%Q) (data w2) ->
  train_step lr m x y = Ok (m', l) ->
  exists w1' w2',
    two_layer W m' w1' w2' /\
    Forall2 Qeq (data w1') (data w1) /\ Forall2 Qeq (data w2') (data w2).
Proof.
  intros Hm Hdead. apply (train_step_flat lr W m w1 w2 x y m' l Hm).
  intros y1 y2 _ E2.
  exact (Linear_forward_nonpos (mkLinear w2 None) (relu y1) y2 eq_refl
           (relu_data_nonneg y1) Hdead E2).
Qed.

(** *** Training on rows without a feature

    When every feature of a batch is zero, both linear layers give zero
    whatever the weights, so the step changes no weight. *)









Lemma train_batches_dead lr ds W batches :
  forall m tl m' tl' w1 w2,
    two_layer W m w1 w2 -> Forall (fun v => (v <= 0)%Q) (data w2) ->
    train_batches lr ds batches m tl = Ok (m', tl') ->
    exists w1' w2',
      two_layer W m' w1' w2' /\
      Forall2 Qeq (data w1') (data w1) /\ Forall2 Qeq (data w2') (data w2).
Proof.
  induction batches as [|b bs IH]; intros m tl m' tl' w1 w2 Hm Hd;
    cbn [train_batches].
  - intros E. injection E as <- _. exists w1, w2.
    split; [exact Hm|]. split; apply Forall2_Qeq_refl.
  - destruct (fetch ds b) as [[x y]|e]; cbn [rbind fst snd]; [|discriminate].
    destruct (train_step lr m x y) as [[m1 l]|e] eqn:Es; cbn [rbind fst snd];
      [|discriminate].
    intros E.
    destruct (train_step_dead lr W m w1 w2 x y m1 l Hm Hd Es)
      as (u1 & u2 & Hm1 & Q1 & Q2).
    destruct (IH m1 _ m' tl' u1 u2 Hm1 (Forall2_Qeq_nonpos _ _ Q2 Hd) E)
      as (v1 & v2 & Hm' & R1 & R2).
    exists v1, v2. split; [exact Hm'|].
    split; eapply Forall2_Qeq_trans; eassumption.
Qed.

Lemma train_epochs_dead csv lr W epochs :
  forall m w m' w' w1 w2,
    two_layer W m w1 w2 -> Forall (fun v => (v <= 0)%Q) (data w2) ->
    train_epochs csv lr epochs m w = (Ok m', w') ->
    exists w1' w2',
      two_layer W m' w1' w2' /\
      Forall2 Qeq (data w1') (data w1) /\ Forall2 Qeq (data w2') (data w2).
Proof.
  induction epochs as [|k IH]; intros m w m' w' w1 w2 Hm Hd; cbn [train_epochs].
  - unfold ret. intros E. injection E as <- _. exists w1, w2.
    split; [exact Hm|]. split; apply Forall2_Qeq_refl.
  - unfold bind at 1.
    destruct (DataLoader_iter (train_loader csv) w) as [[batches|e] wa];
      [|discriminate].
    unfold bind at 1, lift.
    destruct (train_batches _ _ _ _ _) as [[m1 tl]|e] eqn:Eb; [|discriminate].
    cbn [fst]. intros E.
    destruct (train_batches_dead _ _ W _ _ _ _ _ _ _ Hm Hd Eb)
      as (u1 & u2 & Hm1 & Q1 & Q2).
    destruct (IH m1 wa m' w' u1 u2 Hm1 (Forall2_Qeq_nonpos _ _ Q2 Hd) E)
      as (v1 & v2 & Hm' & R1 & R2).
    exists v1, v2. split; [exact Hm'|].
    split; eapply Forall2_Qeq_trans; eassumption.
Qed.

(** X9: a network none of whose output weights is positive predicts 0 for
    every input, gets zero gradients, and so keeps its weights through a
    gradient step and through any number of epochs: it cannot learn. *)
Theorem dead_network_never_learns W m w1 w2 :
  two_layer W m w1 w2 -> Forall (fun v => (v <= 0)%Q) (data w2) ->
  (forall x out,
     Model_forward m x = Ok out -> data out = repeat 0%Q (length (data out))) /\
  (forall lr x y m' l,
     train_step lr m x y = Ok (m', l) ->
     exists w1' w2',
       two_layer W m' w1' w2' /\
       Forall2 Qeq (data w1') (data w1) /\ Forall2 Qeq (data w2') (data w2)) /\
  (forall csv lr epochs w m' w',
     train_epochs csv lr epochs m w = (Ok m', w') ->
     exists w1' w2',
       two_layer W m' w1' w2' /\
       Forall2 Qeq (data w1') (data w1) /\ Forall2 Qeq (data w2') (data w2)).
Proof.
  intros Hm Hd. split; [|split].
  - intros x out. now apply (dead_forward W m w1 w2).
  - intros lr x y m' l. now apply train_step_dead.
  - intros csv lr epochs w m' w'. now apply train_epochs_dead.
Qed.

Lemma dead_network_never_learns_witness :
  two_layer 2 sample_dead_model (full [2; 8] (1 # 2))
    (mkTensor [1; 2] [(-1)%Q; (-3)%Q]) /\
  Forall (fun v => (v <= 0)%Q) [(-1)%Q; (-3)%Q] /\
  exists m' l w1' w2',
    train_step (1 # 100) sample_dead_model (full [2; 8] 1%Q)
      (mkTensor [2] [1%Q; 2%Q]) = Ok (m', l) /\
    two_layer 2 m' w1' w2' /\
    Forall2 Qeq (data w2') [(-1)%Q; (-3)%Q].
Proof.
  assert (Hm : two_layer 2 sample_dead_model (full [2; 8] (1 # 2))
                 (mkTensor [1; 2] [(-1)%Q; (-3)%Q]))
    by (repeat split; reflexivity).
  assert (Hd : Forall (fun v => (v <= 0)%Q) [(-1)%Q; (-3)%Q]).
  { constructor; [apply Qle_bool_iff; reflexivity|].
    constructor; [apply Qle_bool_iff; reflexivity | constructor]. }
  split; [exact Hm|]. split; [exact Hd|].
  pose (r := train_step (1 # 100) sample_dead_model (full [2; 8] 1%Q)
               (mkTensor [2] [1%Q; 2%Q])).
  assert (E : train_step (1 # 100) sample_dead_model (full [2; 8] 1%Q)
                (mkTensor [2] [1%Q; 2%Q]) = r) by reflexivity.
  vm_compute in r. subst r.
  destruct (dead_network_never_learns 2 sample_dead_model _ _ Hm Hd)
    as (_ & Hstep & _).
  destruct (Hstep _ _ _ _ _ E) as (w1' & w2' & Hm' & _ & Q2).
  eexists. eexists. exists w1', w2'. split; [exact E|].
  split; [exact Hm' | exact Q2].
Defined.

(** The initial model is without a positive output weight as soon as the
    draws for the output layer are at most 1/2. *)
Lemma Model_init_dead fs W w :
  (0 <= kaiming_bound fs W)%Q ->
  (forall i, i < W ->
     (uniform01 (rng w) (cursor (rng w) + 8 * W + i) <= 1 # 2)%Q) ->
  exists m0 w0, Model_init fs W w = (Ok m0, w0) /\ dead W m0.
Proof.
  intros Hb Hu. eexists. eexists. split; [reflexivity|].
  eexists. eexists. split.
  - split; [reflexivity|].
    split; (split; [reflexivity|]); cbn [data];
      now rewrite !length_map, length_seq.
  - cbn [data]. apply Forall_forall. intros v Hin.
    apply in_map_iff in Hin as (u & <- & Hin).
    apply in_map_iff in Hin as (i & <- & Hin).
    apply in_seq in Hin.
    assert (Hi : i < W) by (unfold numel_of in Hin; simpl in Hin; lia).
    specialize (Hu i Hi). cbn [rng cursor advance uniform01].
    replace (cursor (rng w) + numel_of [W; 8] + i)
      with (cursor (rng w) + 8 * W + i)
      by (unfold numel_of; simpl; lia).
    nra.
Qed.

Lemma two_layer_unique W m a1 a2 b1 b2 :
  two_layer W m a1 a2 -> two_layer W m b1 b2 -> a1 = b1 /\ a2 = b2.
Proof.
  intros (La & _ & _) (Lb & _ & _). rewrite La in Lb.
  injection Lb as -> ->. auto.
Qed.

Lemma dead_init_run fs csv W epochs w :
  forallb row_layout csv = true -> 3000 < length csv ->
  (0 <= kaiming_bound fs W)%Q ->
  (forall i, i < W ->
     (uniform01 (rng w) (cursor (rng w) + 8 * W + i) <= 1 # 2)%Q) ->
  let n := AbaloneData_len (dataset (test_loader csv)) in
  exists xt yt w',
    fetch (dataset (test_loader csv)) (seq 0 n) = Ok (xt, yt) /\
    get_test_loss fs csv W epochs w =
      (Ok ((0 + mean_squared_error (repeat 0%Q n) (data yt))%Q, 9 * W), w').
Proof.
  intros Hcsv Hlen Hb Hu n.
  destruct (get_test_loss_run fs csv W epochs w Hcsv Hlen)
    as (m0 & w0 & a1 & a2 & m & w1 & b1 & b2 & xt & yt & H).
  destruct H as (Ei & Hm0 & Et & _ & Hm & _ & Ef & Hx & _ & E).
  fold n in Ef, Hx, E.
  destruct (Model_init_dead fs W w Hb Hu) as (m0' & w0' & Ei' & c1 & c2 & Hc & Hd).
  rewrite Ei in Ei'. injection Ei' as <- <-.
  destruct (train_epochs_dead csv _ W epochs m0 w0 m w1 c1 c2 Hc Hd Et)
    as (d1 & d2 & Hmd & _ & Q2).
  destruct (two_layer_unique W m b1 b2 d1 d2 Hm Hmd) as [-> ->].
  pose proof (Forall2_Qeq_nonpos _ _ Q2 Hd) as Hd2.
  pose proof (dead_forward W m d1 d2 xt _ Hmd Hd2
                (forward_two_layer W m d1 d2 xt n Hmd (proj1 Hx))) as Hz.
  assert (Hl : length (data (two_layer_net W d1 d2 xt n)) = n).
  { unfold two_layer_net. cbn [data]. now rewrite length_map, length_seq. }
  rewrite Hl in Hz. rewrite Hz in E.
  exists xt, yt, w1. split; [exact Ef | exact E].
Qed.

(** X10: when the draws for the output layer are all at most 1/2 the network
    is born without a positive output weight, and [get_test_loss] returns
    the loss of predicting 0 for every test sample, whatever the number
    of epochs. *)
Theorem dead_init_test_loss fs csv W epochs w :
  forallb row_layout csv = true -> 3000 < length csv ->
  (0 <= kaiming_bound fs W)%Q ->
  (forall i, i < W ->
     (uniform01 (rng w) (cursor (rng w) + 8 * W + i) <= 1 # 2)%Q) ->
  let n := AbaloneData_len (dataset (test_loader csv)) in
  exists xt yt w',
    fetch (dataset (test_loader csv)) (seq 0 n) = Ok (xt, yt) /\
    get_test_loss fs csv W epochs w =
      (Ok ((0 + mean_squared_error (repeat 0%Q n) (data yt))%Q, 9 * W), w').
Proof. apply dead_init_run. Qed.

Lemma dead_init_test_loss_witness :
  forallb row_layout sample_csv = true /\ 3000 < length sample_csv /\
  (0 <= kaiming_bound sample_sqrt 1)%Q /\
  exists xt yt w',
    fetch (dataset (test_loader sample_csv))
      (seq 0 (AbaloneData_len (dataset (test_loader sample_csv)))) = Ok (xt, yt) /\
    get_test_loss sample_sqrt sample_csv 1 10 sample_world =
      (Ok ((0 + mean_squared_error
                  (repeat 0%Q (AbaloneData_len (dataset (test_loader sample_csv))))
                  (data yt))%Q, 9 * 1), w').
Proof.
  assert (Hcsv : forallb row_layout sample_csv = true) by (vm_compute; reflexivity).
  assert (Hlen : 3000 < length sample_csv)
    by (apply Nat.ltb_lt; vm_compute; reflexivity).
  assert (Hb : (0 <= kaiming_bound sample_sqrt 1)%Q)
    by (apply Qle_bool_iff; vm_compute; reflexivity).
  split; [exact Hcsv|]. split; [exact Hlen|]. split; [exact Hb|].
  apply (dead_init_test_loss sample_sqrt sample_csv 1 10 sample_world Hcsv Hlen Hb).
  intros i _. apply Qle_refl.
Defined.

(** ** The retry loop and what the sweep prints *)

Section SweepEdge.
Variable get_test_loss_ : nat -> nat -> M (pyfloat * nat).
Variable Inv : World -> Prop.

Local Abbreviation retry_loop := (ImplicitReg.retry_loop get_test_loss_).
Local Abbreviation one_run := (ImplicitReg.one_run get_test_loss_).
Local Abbreviation runs_loop := (ImplicitReg.runs_loop get_test_loss_).
Local Abbreviation sizes_loop := (ImplicitReg.sizes_loop get_test_loss_).

Lemma retry_loop_stuck ls ep :
  (forall w, Inv w ->
     exists tl np w',
       get_test_loss_ ls ep w = (Ok (tl, np), w') /\
       exceeds_threshold tl /\ Inv w') ->
  forall fuel cur w,
    exceeds_threshold (fst cur) -> Inv w ->
    retry_loop fuel ls ep cur w = OutOfFuel.
Proof.
  intros H. induction fuel as [|fuel IH]; intros cur w Hc Hw;
    cbn [ImplicitReg.retry_loop]; rewrite (rejected_true_intro _ Hc);
    [reflexivity|].
  destruct (H w Hw) as (tl & np & w' & E & Hlt & Hw'). rewrite E.
  apply IH; [exact Hlt | exact Hw'].
Qed.

Lemma one_run_stuck ls ep :
  (forall w, Inv w ->
     exists tl np w',
       get_test_loss_ ls ep w = (Ok (tl, np), w') /\
       exceeds_threshold tl /\ Inv w') ->
  forall fuel w, Inv w -> one_run fuel ls ep w = OutOfFuel.
Proof.
  intros H fuel w Hw. unfold ImplicitReg.one_run.
  destruct (H w Hw) as (tl & np & w' & E & Hlt & Hw'). rewrite E.
  apply (retry_loop_stuck ls ep H); [exact Hlt | exact Hw'].
Qed.

Lemma sweep_stuck :
  (forall w, Inv w ->
     exists tl np w',
       get_test_loss_ 1 10 w = (Ok (tl, np), w') /\
       exceeds_threshold tl /\ Inv w') ->
  forall fuel w, Inv w -> sweep get_test_loss_ fuel w = OutOfFuel.
Proof.
  intros H fuel w Hw. unfold sweep. cbv zeta. rewrite sweep_widths.
  cbn [ImplicitReg.sizes_loop].
  assert (Er : py_range 0 10 1 = seq 0 10) by reflexivity. rewrite Er.
  cbn [seq ImplicitReg.runs_loop].
  rewrite (one_run_stuck 1 10 H fuel w Hw). reflexivity.
Qed.

Lemma one_run_at_once ls ep :
  (forall w, Inv w ->
     exists tl np w',
       get_test_loss_ ls ep w = (Ok (tl, np), w') /\
       ~ exceeds_threshold tl /\ Inv w') ->
  forall fuel w, Inv w ->
    exists tl np w', one_run fuel ls ep w = Done (Ok (tl, np)) w' /\ Inv w'.
Proof.
  intros H fuel w Hw. unfold ImplicitReg.one_run.
  destruct (H w Hw) as (tl & np & w' & E & Hle & Hw'). rewrite E.
  exists tl, np, w'. split; [|exact Hw'].
  destruct fuel; cbn [ImplicitReg.retry_loop fst];
    now rewrite (rejected_false_intro tl Hle).
Qed.

Lemma runs_loop_at_once ls ep nr :
  (forall w, Inv w ->
     exists tl np w',
       get_test_loss_ ls ep w = (Ok (tl, np), w') /\
       ~ exceeds_threshold tl /\ Inv w') ->
  forall fuel runs st w, Inv w ->
    exists avg onp w',
      runs_loop fuel ls ep nr runs st w = Done (Ok (avg, onp)) w' /\ Inv w'.
Proof.
  intros H fuel. induction runs as [|r runs IH]; intros [avg0 onp0] w Hw;
    cbn [ImplicitReg.runs_loop].
  - exists avg0, onp0, w. split; [reflexivity | exact Hw].
  - destruct (one_run_at_once ls ep H fuel w Hw) as (tl & np & w1 & E & Hw1).
    rewrite E. apply IH. exact Hw1.
Qed.

Lemma sizes_loop_at_once ep nr :
  0 < nr ->
  (forall ls w, Inv w ->
     exists tl np w',
       get_test_loss_ ls ep w = (Ok (tl, np), w') /\
       ~ exceeds_threshold tl /\ Inv w') ->
  (forall l w, Inv w -> Inv (snd (print l w))) ->
  forall fuel sizes st w, Inv w ->
    exists losses params w',
      sizes_loop fuel ep nr sizes st w = Done (Ok (losses, params)) w' /\ Inv w'.
Proof.
  intros Hnr H Hp fuel. induction sizes as [|ls sizes IH]; intros st w Hw;
    cbn [ImplicitReg.sizes_loop].
  - destruct st as [a b]. exists a, b, w. split; [reflexivity | exact Hw].
  - destruct (runs_loop_at_once ls ep nr (H ls) fuel (py_range 0 nr 1)
                (Fin 0, None) w Hw) as (avg & onp & w1 & E & Hw1).
    pose proof (runs_loop_result get_test_loss_ fuel ls ep nr (py_range 0 nr 1)
                  (Fin 0, None) w) as Hr.
    rewrite E in Hr. rewrite E. destruct Hr as (tls & _ & _ & Hnone).
    destruct onp as [np|].
    + cbv beta iota zeta. apply IH. apply Hp. exact Hw1.
    + destruct (Hnone eq_refl) as [Hnil _]. exfalso.
      pose proof (py_range_unit nr) as Hl. rewrite Hnil in Hl. simpl in Hl. lia.
Qed.

Lemma retry_loop_quiet (f : nat -> nat) ls ep :
  (forall w, stdout (snd (get_test_loss_ ls ep w)) = stdout w) ->
  (forall w tl np w', get_test_loss_ ls ep w = (Ok (tl, np), w') -> np = f ls) ->
  forall fuel cur w tl np w',
    snd cur = f ls ->
    retry_loop fuel ls ep cur w = Done (Ok (tl, np)) w' ->
    stdout w' = stdout w /\ np = f ls.
Proof.
  intros Hq Hn. induction fuel as [|fuel IH]; intros cur w tl np w' Hc;
    cbn [ImplicitReg.retry_loop]; destruct (rejected (fst cur));
    try discriminate.
  - intros E. injection E as -> ->. split; [reflexivity | exact Hc].
  - destruct (get_test_loss_ ls ep w) as [[[tl1 np1]|e] w1] eqn:Eg;
      [|discriminate].
    intros E.
    destruct (IH (tl1, np1) w1 tl np w' (Hn _ _ _ _ Eg) E) as [Hs Hnp].
    split; [|exact Hnp]. rewrite Hs. specialize (Hq w). now rewrite Eg in Hq.
  - intros E. injection E as -> ->. split; [reflexivity | exact Hc].
Qed.

Lemma one_run_quiet (f : nat -> nat) ls ep :
  (forall w, stdout (snd (get_test_loss_ ls ep w)) = stdout w) ->
  (forall w tl np w', get_test_loss_ ls ep w = (Ok (tl, np), w') -> np = f ls) ->
  forall fuel w tl np w',
    one_run fuel ls ep w = Done (Ok (tl, np)) w' ->
    stdout w' = stdout w /\ np = f ls.
Proof.
  intros Hq Hn fuel w tl np w'. unfold ImplicitReg.one_run.
  destruct (get_test_loss_ ls ep w) as [[[tl1 np1]|e] w1] eqn:Eg;
    [|discriminate].
  intros E.
  destruct (retry_loop_quiet f ls ep Hq Hn fuel (tl1, np1) w1 tl np w'
              (Hn _ _ _ _ Eg) E) as [Hs Hnp].
  split; [|exact Hnp]. rewrite Hs. specialize (Hq w). now rewrite Eg in Hq.
Qed.

Lemma runs_loop_quiet (f : nat -> nat) ls ep nr :
  (forall w, stdout (snd (get_test_loss_ ls ep w)) = stdout w) ->
  (forall w tl np w', get_test_loss_ ls ep w = (Ok (tl, np), w') -> np = f ls) ->
  forall fuel runs st w avg onp w',
    runs_loop fuel ls ep nr runs st w = Done (Ok (avg, onp)) w' ->
    stdout w' = stdout w /\ (onp = snd st \/ onp = Some (f ls)).
Proof.
  intros Hq Hn fuel. induction runs as [|r runs IH];
    intros [avg0 onp0] w avg onp w'; cbn [ImplicitReg.runs_loop].
  - intros E. injection E as <- <- <-. split; [reflexivity | left; reflexivity].
  - destruct (one_run fuel ls ep w) as [[[tl np]|e] w1|] eqn:E1;
      try discriminate.
    intros E.
    destruct (one_run_quiet f ls ep Hq Hn fuel w tl np w1 E1) as [Hs1 ->].
    destruct (IH _ w1 avg onp w' E) as [Hs Ho]. cbn [snd] in Ho.
    split; [congruence|]. right. destruct Ho as [Ho|Ho]; exact Ho.
Qed.

Lemma sizes_loop_output (f : nat -> nat) ep nr :
  (forall ls w, stdout (snd (get_test_loss_ ls ep w)) = stdout w) ->
  (forall ls w tl np w',
     get_test_loss_ ls ep w = (Ok (tl, np), w') -> np = f ls) ->
  forall fuel sizes ls0 ps0 w losses params w',
    sizes_loop fuel ep nr sizes (ls0, ps0) w = Done (Ok (losses, params)) w' ->
    exists avgs,
      losses = ls0 ++ avgs /\ params = ps0 ++ map f sizes /\
      length avgs = length sizes /\
      stdout w' = stdout w ++ sweep_lines sizes (map f sizes) avgs.
Proof.
  intros Hq Hn fuel. induction sizes as [|ls sizes IH];
    intros ls0 ps0 w losses params w'; cbn [ImplicitReg.sizes_loop].
  - intros E. injection E as <- <- <-. exists [].
    cbn [map sweep_lines length]. rewrite !app_nil_r. auto.
  - destruct (runs_loop fuel ls ep nr (py_range 0 nr 1) (Fin 0, None) w)
      as [[[avg [np|]]|e] w1|] eqn:Er; try discriminate.
    cbn [fst snd]. intros E.
    destruct (runs_loop_quiet f ls ep nr (Hq ls) (Hn ls) fuel _ _ w avg
                (Some np) w1 Er) as [Hs1 Ho].
    cbn [snd] in Ho. destruct Ho as [Ho|Ho]; [discriminate Ho|].
    injection Ho as ->.
    destruct (IH _ _ _ losses params w' E) as (avgs & -> & -> & Hl & Hs).
    exists (avg :: avgs). rewrite <- !app_assoc.
    cbn [app map length sweep_lines].
    split; [reflexivity|]. split; [reflexivity|]. split; [now rewrite Hl|].
    rewrite Hs. unfold print. cbn [snd stdout].
    rewrite Hs1, <- app_assoc. reflexivity.
Qed.

(** X11: the loop has no way out but an accepted loss: when every training
    call returns a loss above 15, neither the retry loop nor the sweep
    ends, however many retries are allowed. *)
Theorem sweep_never_ends_when_all_rejected :
  (forall ls ep w, Inv w ->
     exists tl np w',
       get_test_loss_ ls ep w = (Ok (tl, np), w') /\
       exceeds_threshold tl /\ Inv w') ->
  forall w, Inv w ->
    (forall fuel ls ep cur,
       exceeds_threshold (fst cur) ->
       retry_loop fuel ls ep cur w = OutOfFuel) /\
    (forall fuel, sweep get_test_loss_ fuel w = OutOfFuel).
Proof.
  intros H w Hw. split.
  - intros fuel ls ep cur Hc. now apply (retry_loop_stuck ls ep (H ls ep)).
  - intros fuel. now apply (sweep_stuck (H 1 10)).
Qed.

(** X12: when every training call returns a loss that is not above 15, the
    sweep returns without a single retry: no fuel is needed. *)
Theorem sweep_returns_when_all_accepted :
  (forall ls ep w, Inv w ->
     exists tl np w',
       get_test_loss_ ls ep w = (Ok (tl, np), w') /\
       ~ exceeds_threshold tl /\ Inv w') ->
  (forall l w, Inv w -> Inv (snd (print l w))) ->
  forall fuel w, Inv w ->
    exists losses params w',
      sweep get_test_loss_ fuel w = Done (Ok (losses, params)) w' /\ Inv w'.
Proof.
  intros H Hp fuel w Hw. unfold sweep.
  apply (sizes_loop_at_once 10 10); [lia | | exact Hp | exact Hw].
  intros ls. apply H.
Qed.

(** X13: when the training call prints nothing and reports [f layer_size]
    parameters, a sweep that returns has recorded [f] of each of the 13
    widths and has printed exactly one line per width, in order, with the
    width, its parameter count and the average it recorded. *)
Theorem sweep_prints_what_it_records (f : nat -> nat) fuel w losses params w' :
  (forall ls ep w, stdout (snd (get_test_loss_ ls ep w)) = stdout w) ->
  (forall ls ep w tl np w',
     get_test_loss_ ls ep w = (Ok (tl, np), w') -> np = f ls) ->
  sweep get_test_loss_ fuel w = Done (Ok (losses, params)) w' ->
  params = map f (py_range 1 250 20) /\ length losses = 13 /\
  stdout w' = stdout w ++ sweep_lines (py_range 1 250 20) params losses.
Proof.
  intros Hq Hn E. unfold sweep in E.
  destruct (sizes_loop_output f 10 10 (fun ls => Hq ls 10) (fun ls => Hn ls 10)
              fuel _ [] [] w losses params w' E) as (avgs & -> & -> & Hl & Hs).
  cbn [app]. split; [reflexivity|]. split; [rewrite Hl; reflexivity | exact Hs].
Qed.

End SweepEdge.

Lemma sweep_never_ends_when_all_rejected_witness :
  retry_loop stuck_training 100 1 10 (Fin 40, 9) sample_world = OutOfFuel /\
  sweep stuck_training 100 sample_world = OutOfFuel.
Proof.
  destruct (sweep_never_ends_when_all_rejected stuck_training (fun _ => True))
    with (w := sample_world) as [Hretry Hsweep].
  - intros ls ep w _. exists (Fin 40), (9 * ls), w.
    split; [reflexivity|]. split; [vm_compute; reflexivity | exact I].
  - exact I.
  - split; [apply Hretry; vm_compute; reflexivity | apply Hsweep].
Defined.

Lemma sweep_returns_when_all_accepted_witness :
  exists losses params w',
    sweep settled_training 0 sample_world = Done (Ok (losses, params)) w'.
Proof.
  destruct (sweep_returns_when_all_accepted settled_training (fun _ => True))
    with (fuel := 0) (w := sample_world) as (losses & params & w' & E & _).
  - intros ls ep w _. exists (Fin 5), (9 * ls), w.
    split; [reflexivity|]. split; [|exact I].
    intros H. vm_compute in H. discriminate H.
  - intros l w _. exact I.
  - exact I.
  - exists losses, params, w'. exact E.
Defined.

Lemma sweep_prints_what_it_records_witness :
  exists losses params w',
    sweep sample_training 5 cycling_world = Done (Ok (losses, params)) w' /\
    params = map (fun ls => 9 * ls) (py_range 1 250 20) /\
    length losses = 13 /\
    stdout w' = stdout cycling_world
                ++ sweep_lines (py_range 1 250 20) params losses.
Proof.
  pose (r := sweep sample_training 5 cycling_world).
  assert (E : sweep sample_training 5 cycling_world = r) by reflexivity.
  vm_compute in r. subst r.
  eexists. eexists. eexists. split; [exact E|].
  apply (sweep_prints_what_it_records sample_training (fun ls => 9 * ls) 5
           cycling_world _ _ _).
  - intros ls ep w. reflexivity.
  - intros ls ep w tl np w' H. unfold sample_training in H.
    now injection H as _ <- _.
  - exact E.
Defined.

(** ** The sweep on networks born dead *)

Lemma dead_stream_step fs csv W epochs w :
  forallb row_layout csv = true -> 3000 < length csv ->
  (0 <= kaiming_bound fs W)%Q ->
  (forall k, (uniform01 (rng w) k <= 1 # 2)%Q) ->
  let n := AbaloneData_len (dataset (test_loader csv)) in
  exists xt yt w',
    fetch (dataset (test_loader csv)) (seq 0 n) = Ok (xt, yt) /\
    get_test_loss fs csv W epochs w =
      (Ok ((0 + mean_squared_error (repeat 0%Q n) (data yt))%Q, 9 * W), w') /\
    (forall k, (uniform01 (rng w') k <= 1 # 2)%Q).
Proof.
  intros Hcsv Hlen Hb Hu n.
  destruct (dead_init_run fs csv W epochs w Hcsv Hlen Hb (fun i _ => Hu _))
    as (xt & yt & w' & Ef & E).
  exists xt, yt, w'. split; [exact Ef|]. split; [exact E|].
  pose proof (get_test_loss_advances fs csv W epochs w) as Ha.
  rewrite E in Ha. cbn [snd] in Ha. destruct Ha as (_ & Hs & _).
  intros k. rewrite Hs. apply Hu.
Qed.

(** The loaders cell returns on every non-empty frame, and raises on the
    empty one. *)
Lemma loaders_cell_ok csv :
  1 <= length csv -> loaders_cell csv = Ok (train_loader csv, test_loader csv).
Proof.
  intros Hlen. unfold loaders_cell, DataLoader_init.
  assert (E : (AbaloneData_len (mkAbaloneData (py_slice csv 0 3000)) =? 0) = false).
  { apply Nat.eqb_neq. unfold AbaloneData_len. cbn [ds_data].
    rewrite py_slice_length. lia. }
  rewrite E. reflexivity.
Qed.

Example loaders_cell_empty : loaders_cell [] = Raise (ValueError_num_samples 0).
Proof. reflexivity. Qed.

Lemma get_test_loss_float_ok fs csv W ep w tl np w' :
  get_test_loss fs csv W ep w = (Ok (tl, np), w') ->
  get_test_loss_float fs csv W ep w = (Ok (Fin tl, np), w').
Proof. intros E. unfold get_test_loss_float, bind. now rewrite E. Qed.

Lemma get_test_loss_float_inv fs csv W ep w tl np w' :
  get_test_loss_float fs csv W ep w = (Ok (tl, np), w') ->
  exists q, tl = Fin q /\ get_test_loss fs csv W ep w = (Ok (q, np), w').
Proof.
  unfold get_test_loss_float, bind, ret.
  destruct (get_test_loss fs csv W ep w) as [[[q np0]|e] w1]; [|discriminate].
  cbn [fst snd]. intros E. injection E as <- <- <-. now exists q.
Qed.

Lemma get_test_loss_float_advances fs csv W ep w :
  only_advances w (snd (get_test_loss_float fs csv W ep w)).
Proof.
  pose proof (get_test_loss_advances fs csv W ep w) as H.
  unfold get_test_loss_float, bind, ret.
  destruct (get_test_loss fs csv W ep w) as [[r|e] w1]; exact H.
Qed.

(** The loops on [get_test_loss] when every draw is at most 1/2. *)
Lemma loops_on_dead_inits fs csv w xt yt :
  forallb row_layout csv = true -> 3000 < length csv ->
  (forall W, (0 <= kaiming_bound fs W)%Q) ->
  (forall k, (uniform01 (rng w) k <= 1 # 2)%Q) ->
  let n := AbaloneData_len (dataset (test_loader csv)) in
  fetch (dataset (test_loader csv)) (seq 0 n) = Ok (xt, yt) ->
  let L := mean_squared_error (repeat 0%Q n) (data yt) in
  ((15 < L)%Q ->
   (forall fuel ls ep cur,
      exceeds_threshold (fst cur) ->
      retry_loop (get_test_loss_float fs csv) fuel ls ep cur w = OutOfFuel) /\
   (forall fuel, sweep (get_test_loss_float fs csv) fuel w = OutOfFuel)) /\
  ((L <= 15)%Q ->
   forall fuel, exists losses params w',
     sweep (get_test_loss_float fs csv) fuel w = Done (Ok (losses, params)) w').
Proof.
  intros Hcsv Hlen Hb Hu n Ef L.
  set (Inv := fun w : World => forall k, (uniform01 (rng w) k <= 1 # 2)%Q).
  assert (Hstep : forall W ep w0, Inv w0 ->
            exists w', get_test_loss_float fs csv W ep w0
                       = (Ok (Fin (0 + L), 9 * W), w') /\ Inv w').
  { intros W ep w0 Hw0.
    destruct (dead_stream_step fs csv W ep w0 Hcsv Hlen (Hb W) Hw0)
      as (xt' & yt' & w' & Ef' & E & Hw').
    fold n in Ef', E. rewrite Ef in Ef'. injection Ef' as <- <-.
    exists w'. split; [|exact Hw']. now apply get_test_loss_float_ok. }
  split; intros HL.
  - assert (Hrej : forall ls ep w0, Inv w0 ->
              exists tl np w',
                get_test_loss_float fs csv ls ep w0 = (Ok (tl, np), w') /\
                exceeds_threshold tl /\ Inv w').
    { intros ls ep w0 Hw0. destruct (Hstep ls ep w0 Hw0) as (w' & E & Hw').
      exists (Fin (0 + L)), (9 * ls), w'. split; [exact E|].
      split; [cbn [exceeds_threshold]; lra | exact Hw']. }
    split.
    + intros fuel ls ep cur Hc.
      now apply (retry_loop_stuck (get_test_loss_float fs csv) Inv ls ep
                   (Hrej ls ep)).
    + intros fuel.
      now apply (sweep_stuck (get_test_loss_float fs csv) Inv (Hrej 1 10)).
  - intros fuel.
    destruct (sizes_loop_at_once (get_test_loss_float fs csv) Inv 10 10)
      with (fuel := fuel) (sizes := py_range 1 250 20)
           (st := (@nil pyfloat, @nil nat)) (w := w)
      as (losses & params & w' & E & _).
    + lia.
    + intros ls w0 Hw0. destruct (Hstep ls 10 w0 Hw0) as (w' & E & Hw').
      exists (Fin (0 + L)), (9 * ls), w'. split; [exact E|].
      split; [cbn [exceeds_threshold]; lra | exact Hw'].
    + intros l w0 Hw0. exact Hw0.
    + exact Hu.
    + exists losses, params, w'. exact E.
Qed.

(** X14: the sweep cell when the generator keeps giving draws of at most 1/2,
    so that every network is born without a positive output weight: each
    training call returns [L], the mean of the squared test labels.  If
    [L] is above 15 the first retry loop never ends; if it is at most 15
    the sweep returns at once. *)
Theorem sweep_cell_on_dead_inits fs csv w xt yt :
  forallb row_layout csv = true -> 3000 < length csv ->
  (forall W, (0 <= kaiming_bound fs W)%Q) ->
  (forall k, (uniform01 (rng w) k <= 1 # 2)%Q) ->
  let n := AbaloneData_len (dataset (test_loader csv)) in
  fetch (dataset (test_loader csv)) (seq 0 n) = Ok (xt, yt) ->
  let L := mean_squared_error (repeat 0%Q n) (data yt) in
  ((15 < L)%Q -> forall fuel, sweep_cell fs csv fuel w = OutOfFuel) /\
  ((L <= 15)%Q ->
   forall fuel, exists losses params w',
     sweep_cell fs csv fuel w = Done (Ok (losses, params)) w').
Proof.
  intros Hcsv Hlen Hb Hu n Ef L.
  destruct (loops_on_dead_inits fs csv w xt yt Hcsv Hlen Hb Hu Ef)
    as [Hhigh Hlow].
  unfold sweep_cell. rewrite (loaders_cell_ok csv) by lia.
  split; intros HL fuel.
  - apply (Hhigh HL).
  - apply (Hlow HL).
Qed.

Lemma sweep_cell_on_dead_inits_witness :
  (forall fuel, sweep_cell sample_sqrt sample_csv_elder fuel sample_world
                = OutOfFuel) /\
  (forall fuel, exists losses params w',
     sweep_cell sample_sqrt sample_csv fuel sample_world
     = Done (Ok (losses, params)) w').
Proof.
  assert (Hb : forall W, (0 <= kaiming_bound sample_sqrt W)%Q).
  { intros W. apply Qle_bool_iff. reflexivity. }
  assert (Hu : forall k, (uniform01 (rng sample_world) k <= 1 # 2)%Q).
  { intros k. apply Qle_refl. }
  split.
  - pose (r := fetch (dataset (test_loader sample_csv_elder))
                 (seq 0 (AbaloneData_len (dataset (test_loader sample_csv_elder))))).
    assert (E : fetch (dataset (test_loader sample_csv_elder))
                  (seq 0 (AbaloneData_len (dataset (test_loader sample_csv_elder))))
                = r) by reflexivity.
    vm_compute in r. subst r.
    refine (proj1 (sweep_cell_on_dead_inits sample_sqrt sample_csv_elder
                     sample_world _ _ _ _ Hb Hu E) _).
    + vm_compute. reflexivity.
    + apply Nat.ltb_lt. vm_compute. reflexivity.
    + vm_compute. reflexivity.
  - pose (r := fetch (dataset (test_loader sample_csv))
                 (seq 0 (AbaloneData_len (dataset (test_loader sample_csv))))).
    assert (E : fetch (dataset (test_loader sample_csv))
                  (seq 0 (AbaloneData_len (dataset (test_loader sample_csv))))
                = r) by reflexivity.
    vm_compute in r. subst r.
    refine (proj2 (sweep_cell_on_dead_inits sample_sqrt sample_csv
                     sample_world _ _ _ _ Hb Hu E) _).
    + vm_compute. reflexivity.
    + apply Nat.ltb_lt. vm_compute. reflexivity.
    + apply Qle_bool_iff. vm_compute. reflexivity.
Defined.

(** X15: the sweep cell, when it returns, has recorded 9 times each of the 13
    widths as parameter counts and has added to the output exactly one
    line per width, in order: training itself prints nothing. *)
Theorem sweep_cell_output fs csv fuel w losses params w' :
  sweep_cell fs csv fuel w = Done (Ok (losses, params)) w' ->
  params = [9; 189; 369; 549; 729; 909; 1089; 1269; 1449; 1629; 1809; 1989; 2169]
  /\ length losses = 13 /\
  stdout w' = stdout w ++ sweep_lines (py_range 1 250 20) params losses.
Proof.
  unfold sweep_cell. destruct (loaders_cell csv) as [loaders|e]; [|discriminate].
  intros E. unfold sweep in E.
  destruct (sizes_loop_output (get_test_loss_float fs csv) (fun W => 9 * W) 10 10)
    with (fuel := fuel) (sizes := py_range 1 250 20) (ls0 := @nil pyfloat)
         (ps0 := @nil nat) (w := w) (losses := losses) (params := params)
         (w' := w') as (avgs & -> & -> & Hl & Hs).
  - intros ls w0. apply (get_test_loss_float_advances fs csv ls 10 w0).
  - intros ls w0 tl np w1 E1.
    destruct (get_test_loss_float_inv fs csv ls 10 w0 tl np w1 E1) as (q & _ & E2).
    destruct (get_test_loss_inv fs csv ls 10 w0 q np w1 E2)
      as (m0 & w00 & a1 & a2 & m & b1 & b2 & xt & yt & out & loss & H).
    apply H.
  - exact E.
  - cbn [app]. split; [reflexivity|]. split; [rewrite Hl; reflexivity | exact Hs].
Qed.

Lemma sweep_cell_output_witness :
  exists losses params w',
    sweep_cell sample_sqrt sample_csv 0 sample_world
      = Done (Ok (losses, params)) w' /\
    length losses = 13 /\
    stdout w' = sweep_lines (py_range 1 250 20) params losses.
Proof.
  assert (Hb : forall W, (0 <= kaiming_bound sample_sqrt W)%Q).
  { intros W. apply Qle_bool_iff. reflexivity. }
  assert (Hu : forall k, (uniform01 (rng sample_world) k <= 1 # 2)%Q).
  { intros k. apply Qle_refl. }
  assert (Hcsv : forallb row_layout sample_csv = true) by (vm_compute; reflexivity).
  assert (Hlen : 3000 < length sample_csv)
    by (apply Nat.ltb_lt; vm_compute; reflexivity).
  pose (r := fetch (dataset (test_loader sample_csv))
               (seq 0 (AbaloneData_len (dataset (test_loader sample_csv))))).
  assert (Er : fetch (dataset (test_loader sample_csv))
                 (seq 0 (AbaloneData_len (dataset (test_loader sample_csv))))
               = r) by reflexivity.
  vm_compute in r. subst r.
  destruct (loops_on_dead_inits sample_sqrt sample_csv sample_world _ _
              Hcsv Hlen Hb Hu Er) as [_ Hlow].
  destruct (Hlow ltac:(apply Qle_bool_iff; vm_compute; reflexivity) 0)
    as (losses & params & w' & E).
  assert (E' : sweep_cell sample_sqrt sample_csv 0 sample_world
               = Done (Ok (losses, params)) w').
  { unfold sweep_cell. rewrite (loaders_cell_ok sample_csv) by lia. exact E. }
  exists losses, params, w'.
  destruct (sweep_cell_output sample_sqrt sample_csv 0 sample_world
              losses params w' E') as (_ & Hl & Hs).
  split; [exact E'|]. split; [exact Hl | exact Hs].
Defined.


(** *** The network as a function of the weights' values *)








End ImplicitRegEdge.
